(** * BlackRoad Dotfiles Manager: a shallow embedding of [dotfiles_manager.py]

    The development has two halves.  The first half defines the model: the
    library functions the program calls (SHA-256, base64, the filesystem
    primitives, the SQLite tables) and then the commands of
    [dotfiles_manager.py], each translated statement by statement.  The
    second half states and proves the properties.

    Conventions of the model.
    - A command takes the world (database and filesystem) and returns the
      lines it printed, how it ended (normal return, uncaught exception,
      [sys.exit]) and the world it left behind.
    - The printed lines are an inductive type [report] with one constructor
      per message of the program; colours and icons are dropped.
    - The filesystem is a finite map from the path text handed to the
      system call to a node (regular file, directory, symbolic link); what
      a directory holds are the keys that continue its text after a slash.
      The anchors [/] and [.] are keys like the others.  Symbolic links are
      followed on the final component, at most [MAXSYMLINKS] times; link
      targets are looked up as written.  Two different texts are two
      different keys, so aliasing through [.], [..] or linked directories,
      permissions and device errors are not part of the model.
    - Path texts are POSIX: the parents and the last component of a path
      are computed from its text as pathlib and [os.path] do for the texts
      that [str(Path(...))] prints.
    - [mkdir], [os.symlink], [shutil.move], [shutil.copy2] and [open] for
      writing follow the library sources, with their error paths: a
      failure is [None] and becomes the uncaught [OSError] of the command.
    - pathlib's [expanduser] and [resolve], SQLite's text-to-integer
      conversion, the text that [json.dump] writes and the external [diff]
      program are fields of a [platform] record, and the clock reading is an
      argument of [cmd_backup]: every result holds for all of them.  The
      temporary file of [cmd_diff] lives outside the modelled disk.
    - JSON numbers are integers; import takes the parsed document that
      [json.load] returns. *)

From Stdlib Require Import NArith ZArith String Ascii Strings.Byte List Lia Permutation Sorted.
From stdpp Require Import gmap strings list fin_maps pretty.
Import ListNotations.

(* ===================================================================== *)
(** * Part I: the model *)
(* ===================================================================== *)

(** ** hashlib.sha256 (FIPS 180-4) *)

Module Sha256.
Local Open Scope N_scope.

Definition w32 (x : N) : N := N.land x 0xFFFFFFFF.
Definition add32 (x y : N) : N := w32 (x + y).
Definition rotr (n x : N) : N := N.lor (N.shiftr x n) (w32 (N.shiftl x (32 - n))).
Definition Ch (x y z : N) : N := N.lxor (N.land x y) (N.land (N.lxor x 0xFFFFFFFF) z).
Definition Maj (x y z : N) : N := N.lxor (N.lxor (N.land x y) (N.land x z)) (N.land y z).
Definition Sigma0 (x : N) : N := N.lxor (N.lxor (rotr 2 x) (rotr 13 x)) (rotr 22 x).
Definition Sigma1 (x : N) : N := N.lxor (N.lxor (rotr 6 x) (rotr 11 x)) (rotr 25 x).
Definition sigma0 (x : N) : N := N.lxor (N.lxor (rotr 7 x) (rotr 18 x)) (N.shiftr x 3).
Definition sigma1 (x : N) : N := N.lxor (N.lxor (rotr 17 x) (rotr 19 x)) (N.shiftr x 10).

(** The round constants are the first 32 bits of the fractional parts of the
    cube roots of the first 64 primes, the initial words those of the square
    roots of the first 8 primes; both tables are computed here. *)
Definition is_prime (n : nat) : bool :=
  forallb (fun d => negb (Nat.eqb (Nat.modulo n d) 0)) (seq 2 (n - 2)).

Definition primes : list N := map N.of_nat (List.filter is_prime (seq 2 310)).

(** The integer cube root, one bit at a time from bit [bits - 1] down. *)
Fixpoint cbrt_bits (bits : nat) (x r : N) : N :=
  match bits with
  | O => r
  | S b =>
      let c := r + N.shiftl 1 (N.of_nat b) in
      cbrt_bits b x (if c * c * c <=? x then c else r)
  end.

Definition frac_cbrt (p : N) : N := w32 (cbrt_bits 36 (N.shiftl p 96) 0).
Definition frac_sqrt (p : N) : N := w32 (N.sqrt (N.shiftl p 64)).

Definition K : list N := Eval vm_compute in map frac_cbrt primes.

(** The eight working words. *)
Record state := St { ha : N; hb : N; hc : N; hd : N; he : N; hf : N; hg : N; hh : N }.

Definition H0 : state :=
  match map frac_sqrt (firstn 8 primes) with
  | [a; b; c; d; e; f; g; h] => St a b c d e f g h
  | _ => St 0 0 0 0 0 0 0 0
  end.

(** Big-endian 32-bit words of a block. *)
Fixpoint words (bs : list N) : list N :=
  match bs with
  | b0 :: b1 :: b2 :: b3 :: r => (b0 * 16777216 + b1 * 65536 + b2 * 256 + b3) :: words r
  | _ => []
  end.

(** The schedule is extended through a sliding window of sixteen words. *)
Definition next_w (w : list N) : N :=
  add32 (add32 (sigma1 (nth 14 w 0)) (nth 9 w 0)) (add32 (sigma0 (nth 1 w 0)) (nth 0 w 0)).

Fixpoint extend (n : nat) (w : list N) : list N :=
  match n with
  | O => []
  | S n' => let x := next_w w in x :: extend n' (tl w ++ [x])
  end.

Definition schedule (block : list N) : list N :=
  let w := words block in w ++ extend 48 w.

Definition round (s : state) (kw : N * N) : state :=
  let t1 := add32 (add32 (add32 (hh s) (Sigma1 (he s)))
                         (add32 (Ch (he s) (hf s) (hg s)) (fst kw))) (snd kw) in
  let t2 := add32 (Sigma0 (ha s)) (Maj (ha s) (hb s) (hc s)) in
  St (add32 t1 t2) (ha s) (hb s) (hc s) (add32 (hd s) t1) (he s) (hf s) (hg s).

Definition compress (h : state) (block : list N) : state :=
  let s := fold_left round (combine K (schedule block)) h in
  St (add32 (ha h) (ha s)) (add32 (hb h) (hb s)) (add32 (hc h) (hc s)) (add32 (hd h) (hd s))
     (add32 (he h) (he s)) (add32 (hf h) (hf s)) (add32 (hg h) (hg s)) (add32 (hh h) (hh s)).

Fixpoint be_bytes (n : nat) (x : N) : list N :=
  match n with
  | O => []
  | S n' => N.land (N.shiftr x (8 * N.of_nat n')) 255 :: be_bytes n' x
  end.

(** Padding: a one bit, zeros, and the bit length on eight bytes. *)
Definition pad (msg : list N) : list N :=
  let l := N.of_nat (length msg) in
  let z := (55 + 64 - l mod 64) mod 64 in
  msg ++ 128 :: repeat 0 (N.to_nat z) ++ be_bytes 8 (8 * l).

Fixpoint blocks (fuel : nat) (h : state) (bs : list N) : state :=
  match fuel with
  | O => h
  | S f => match bs with
           | [] => h
           | _ => blocks f (compress h (firstn 64 bs)) (skipn 64 bs)
           end
  end.

Definition digest (msg : list N) : state :=
  let p := pad msg in blocks (length p) H0 p.

Definition hexdigit (n : N) : ascii :=
  match n with
  | 0 => "0" | 1 => "1" | 2 => "2" | 3 => "3" | 4 => "4" | 5 => "5" | 6 => "6" | 7 => "7"
  | 8 => "8" | 9 => "9" | 10 => "a" | 11 => "b" | 12 => "c" | 13 => "d" | 14 => "e" | _ => "f"
  end%char.

Definition nib (x i : N) : ascii := hexdigit (N.land (N.shiftr x (4 * i)) 15).

Definition hex32 (x : N) (rest : string) : string :=
  String (nib x 7) (String (nib x 6) (String (nib x 5) (String (nib x 4)
  (String (nib x 3) (String (nib x 2) (String (nib x 1) (String (nib x 0) rest))))))).

Definition hex (s : state) : string :=
  hex32 (ha s) (hex32 (hb s) (hex32 (hc s) (hex32 (hd s)
  (hex32 (he s) (hex32 (hf s) (hex32 (hg s) (hex32 (hh s) EmptyString))))))).

(** [hashlib.sha256(content).hexdigest()] *)
Definition hexdigest (content : list byte) : string := hex (digest (map Byte.to_N content)).

End Sha256.

(** ** base64.b64encode and base64.b64decode *)

Module Base64.
Local Open Scope N_scope.

Definition alphabet : string :=
  "ABCDEFGHIJKLMNOPQRSTUVWXYZabcdefghijklmnopqrstuvwxyz0123456789+/".

Definition pad_char : ascii := "="%char.

Definition b2a (n : N) : ascii :=
  match String.get (N.to_nat n) alphabet with Some c => c | None => pad_char end.

Fixpoint index_of (c : ascii) (s : string) (i : N) : option N :=
  match s with
  | EmptyString => None
  | String d r => if Ascii.eqb c d then Some i else index_of c r (i + 1)
  end.

Definition a2b (c : ascii) : option N := index_of c alphabet 0.

(** The four sextets of three bytes. *)
Definition s0 (x : N) : N := N.shiftr x 2.
Definition s1 (x y : N) : N := N.lor (N.shiftl (N.land x 3) 4) (N.shiftr y 4).
Definition s2 (y z : N) : N := N.lor (N.shiftl (N.land y 15) 2) (N.shiftr z 6).
Definition s3 (z : N) : N := N.land z 63.

Fixpoint b2a_base64 (bs : list N) : string :=
  match bs with
  | [] => EmptyString
  | [x] =>
      String (b2a (s0 x)) (String (b2a (s1 x 0)) (String pad_char (String pad_char EmptyString)))
  | [x; y] =>
      String (b2a (s0 x)) (String (b2a (s1 x y)) (String (b2a (s2 y 0))
        (String pad_char EmptyString)))
  | x :: y :: z :: r =>
      String (b2a (s0 x)) (String (b2a (s1 x y)) (String (b2a (s2 y z))
        (String (b2a (s3 z)) (b2a_base64 r))))
  end.

(** [base64.b64encode(content).decode()] *)
Definition b64encode (content : list byte) : string := b2a_base64 (map Byte.to_N content).

Definition out_byte (n : N) : byte :=
  match Byte.of_N (N.land n 255) with Some b => b | None => x00 end.

(** The decoding loop of [binascii.a2b_base64] in its default, lenient mode:
    characters outside the alphabet are skipped, a complete pad sequence
    stops the scan, and an incomplete last quad is an error ([None]). *)
Fixpoint a2b_base64 (s : string) (quad_pos leftchar pads : N) : option (list byte) :=
  match s with
  | EmptyString => if quad_pos =? 0 then Some [] else None
  | String c r =>
      if Ascii.eqb c pad_char then
        if (2 <=? quad_pos) && (4 <=? quad_pos + (pads + 1)) then Some []
        else a2b_base64 r quad_pos leftchar (if 2 <=? quad_pos then pads + 1 else pads)
      else
        match a2b c with
        | None => a2b_base64 r quad_pos leftchar pads
        | Some v =>
            match quad_pos with
            | 0 => a2b_base64 r 1 v 0
            | 1 => cons (out_byte (N.lor (N.shiftl leftchar 2) (N.shiftr v 4)))
                     <$> a2b_base64 r 2 (N.land v 15) 0
            | 2 => cons (out_byte (N.lor (N.shiftl leftchar 4) (N.shiftr v 2)))
                     <$> a2b_base64 r 3 (N.land v 3) 0
            | _ => cons (out_byte (N.lor (N.shiftl leftchar 6) v))
                     <$> a2b_base64 r 0 0 0
            end
        end
  end.

Definition is_ascii (s : string) : bool :=
  forallb (fun c => N_of_ascii c <? 128) (list_ascii_of_string s).

(** [base64.b64decode(s)] on a [str]: [None] stands for the [ValueError] or
    [binascii.Error] it raises. *)
Definition b64decode (s : string) : option (list byte) :=
  if is_ascii s then a2b_base64 s 0 0 0 else None.

(** Exhaustive checks over sextets and over pairs of bytes, evaluated once
    and used by the round-trip proof. *)
Definition below (n : nat) : list N := map N.of_nat (seq 0 n).

Definition sextet_ok (v : N) : bool :=
  match a2b (b2a v) with Some w => w =? v | None => false end
  && negb (Ascii.eqb (b2a v) pad_char) && (N_of_ascii (b2a v) <? 128).

Definition pair_ok (x y : N) : bool :=
  (s0 x <? 64) && (s1 x y <? 64) && (s2 x y <? 64) && (s3 x <? 64)
  && (N.land (N.lor (N.shiftl (s0 x) 2) (N.shiftr (s1 x y) 4)) 255 =? x)
  && (N.land (s1 x y) 15 =? N.shiftr y 4)
  && (N.shiftr (s2 x y) 2 =? N.land x 15)
  && (N.land (N.lor (N.shiftl (N.shiftr x 4) 4) (N.land x 15)) 255 =? x)
  && (N.land (s2 x y) 3 =? N.shiftr y 6)
  && (N.land (N.lor (N.shiftl (N.shiftr x 6) 6) (s3 x)) 255 =? x).

End Base64.

(** ** Path texts *)

(** The proper prefixes of a path text that end before a slash, shortest
    first; the prefix before a leading slash is the root. *)
Fixpoint slash_prefixes (seen rest : string) : list string :=
  match rest with
  | EmptyString => []
  | String c r =>
      (if Ascii.eqb c "/" then
         match r with
         | EmptyString => []
         | _ => [match seen with EmptyString => "/"%string | _ => seen end]
         end
       else [])
      ++ slash_prefixes (seen +:+ String c EmptyString) r
  end.

Definition is_absolute (s : string) : bool :=
  match s with
  | String c _ => Ascii.eqb c "/"
  | EmptyString => false
  end.

(** The texts of [Path(s).parents], nearest first, for the text [s] of a
    POSIX path as [str(Path(...))] prints it: [/a/b] has [/a] and [/], [a/b]
    has [a] and [.], the anchors [/] and [.] have none. *)
Definition path_parents (s : string) : list string :=
  rev (slash_prefixes EmptyString s)
  ++ (if is_absolute s || String.eqb s "." then [] else ["."%string]).

(** [str(Path(s).parent)], which is also the directory where the system
    looks up the last component of [s]; an anchor is its own parent. *)
Definition path_parent (s : string) : string :=
  match path_parents s with
  | d :: _ => d
  | [] => s
  end.

Fixpoint ends_with_sep (s : string) : bool :=
  match s with
  | EmptyString => false
  | String c EmptyString => Ascii.eqb c "/"
  | String _ r => ends_with_sep r
  end.

(** [os.path.join(a, b)] *)
Definition path_join (a b : string) : string :=
  if is_absolute b then b
  else match a with
       | EmptyString => b
       | _ => if ends_with_sep a then a +:+ b else a +:+ "/" +:+ b
       end.

(** [os.path.basename(s)]: what follows the last slash. *)
Fixpoint basename_from (acc s : string) : string :=
  match s with
  | EmptyString => acc
  | String c r =>
      if Ascii.eqb c "/" then basename_from EmptyString r
      else basename_from (acc +:+ String c EmptyString) r
  end.

Definition basename (s : string) : string := basename_from EmptyString s.

(** [s.rstrip("/")] *)
Fixpoint rstrip_sep (s : string) : string :=
  match s with
  | EmptyString => EmptyString
  | String c r =>
      match rstrip_sep r with
      | EmptyString => if Ascii.eqb c "/" then EmptyString else String c EmptyString
      | r' => String c r'
      end
  end.

(** [s[n:]] *)
Fixpoint string_drop (n : nat) (s : string) : string :=
  match n, s with
  | S n', String _ r => string_drop n' r
  | _, _ => s
  end.

(** [k] names something inside the directory [d]. *)
Definition inside (d k : string) : bool :=
  negb (String.eqb k d)
  && String.prefix (if ends_with_sep d then d else d +:+ "/") k.

Definition at_or_inside (d k : string) : bool := String.eqb k d || inside d k.

(** ** The filesystem *)

Inductive node :=
  | File (content : list byte)
  | Dir
  | Symlink (target : string).

Abbreviation filesystem := (gmap string node).

Definition MAXSYMLINKS : nat := 40.

(** [os.stat(p)]: the node reached from [p] after following symbolic links;
    [None] is [ENOENT] or [ELOOP]. *)
Fixpoint stat_from (fuel : nat) (fs : filesystem) (p : string) : option node :=
  match fs !! p with
  | Some (Symlink t) => match fuel with O => None | S f => stat_from f fs t end
  | other => other
  end.

Definition stat (fs : filesystem) (p : string) : option node := stat_from MAXSYMLINKS fs p.

(** [Path(p).exists()]: [stat] succeeded; its errors count as absence. *)
Definition path_exists (fs : filesystem) (p : string) : bool :=
  match stat fs p with Some _ => true | None => false end.

(** [Path(p).is_dir()] and [os.path.isdir(p)] *)
Definition is_dir (fs : filesystem) (p : string) : bool :=
  match stat fs p with Some Dir => true | _ => false end.

(** [Path(p).is_symlink()] and [os.readlink(p)] look at [p] itself. *)
Definition is_symlink (fs : filesystem) (p : string) : bool :=
  match fs !! p with Some (Symlink _) => true | _ => false end.

Definition readlink (fs : filesystem) (p : string) : option string :=
  match fs !! p with Some (Symlink t) => Some t | _ => None end.

(** The key at which [os.stat(p)] finds its node: the identity of the file
    that [p] leads to. *)
Fixpoint real_from (fuel : nat) (fs : filesystem) (p : string) : option string :=
  match fs !! p with
  | Some (Symlink t) => match fuel with O => None | S f => real_from f fs t end
  | Some _ => Some p
  | None => None
  end.

(** [shutil._samefile(a, b)]: both lead to the same file; an error of
    [os.stat] counts as "not the same". *)
Definition samefile (fs : filesystem) (a b : string) : bool :=
  match real_from MAXSYMLINKS fs a, real_from MAXSYMLINKS fs b with
  | Some x, Some y => String.eqb x y
  | _, _ => false
  end.

(** [open(p, "rb").read()]: [None] when [p] does not lead to a regular file. *)
Definition read_bytes (fs : filesystem) (p : string) : option (list byte) :=
  match stat fs p with Some (File c) => Some c | _ => None end.

(** The key that [open(p, "wb")] creates or truncates.  Links are followed;
    a regular file is truncated; a missing last component is created, which
    needs its directory ([FileNotFoundError], [NotADirectoryError]
    otherwise); a directory ([IsADirectoryError]) or a link loop is an
    error. *)
Fixpoint open_target (fuel : nat) (fs : filesystem) (p : string) : option string :=
  match fs !! p with
  | Some (Symlink t) => match fuel with O => None | S f => open_target f fs t end
  | Some Dir => None
  | Some (File _) => Some p
  | None => if is_dir fs (path_parent p) then Some p else None
  end.

(** [Path(p).write_bytes(c)] *)
Definition write_bytes (fs : filesystem) (p : string) (c : list byte) : option filesystem :=
  (fun k => <[k := File c]> fs) <$> open_target MAXSYMLINKS fs p.

(** [shutil.copy2(src, dst)].  A [dst] that is a directory stands for the
    entry named like [src] inside it; [SameFileError] when source and
    destination are the same file; then [src] is opened for reading and the
    destination for writing, as [open] does it (through links).  The
    metadata that [copystat] carries over is not part of a node. *)
Definition copy2 (fs : filesystem) (src dst : string) : option filesystem :=
  let dst' := if is_dir fs dst then path_join dst (basename src) else dst in
  if samefile fs src dst' then None
  else content ← read_bytes fs src; write_bytes fs dst' content.

(** What [os.rename] does to a directory: the directory and everything
    inside it is entered under the new name. *)
Definition carry (fs : filesystem) (src dst : string) : filesystem :=
  list_to_map
    (omap (fun kv : string * node =>
             if at_or_inside src kv.1
             then Some (dst +:+ string_drop (String.length src) kv.1, kv.2)
             else None)
          (map_to_list fs))
  ∪ filter (fun kv : string * node =>
              at_or_inside src kv.1 = false /\ at_or_inside dst kv.1 = false) fs.

(** The last component of [s] is [.] or [..]. *)
Definition dot_name (s : string) : bool :=
  String.eqb (basename (rstrip_sep s)) "." || String.eqb (basename (rstrip_sep s)) "..".

(** [os.rename(src, dst)], where the directory of [dst] is there ([move]
    hands it a sibling of [src] or an entry of an existing directory).
    [None] is [ENOENT] (nothing at [src]), [EBUSY] (a source that ends in
    [.] or [..]), [EISDIR] (a non-directory onto a directory), [ENOTDIR] (a
    directory onto a non-directory), [ENOTEMPTY], or [EINVAL] (a directory
    into itself). *)
Definition os_rename (fs : filesystem) (src dst : string) : option filesystem :=
  match fs !! src with
  | None => None
  | Some n =>
      if dot_name src then None
      else if String.eqb src dst then Some fs
      else
        match n, fs !! dst with
        | Dir, None => if inside src dst then None else Some (carry fs src dst)
        | Dir, Some Dir =>
            if inside src dst || existsb (inside dst) (map fst (map_to_list fs)) then None
            else Some (carry fs src dst)
        | Dir, Some _ => None
        | _, Some Dir => None
        | _, _ => Some (<[dst := n]> (delete src fs))
        end
  end.

(** [shutil.move(src, dst)].  A [dst] that is a directory takes [src] as an
    entry under its own name, unless that name is taken ([shutil.Error]);
    otherwise [src] is renamed to [dst].  When [os.rename] fails here, what
    [shutil.move] tries next fails as well: a copy of a missing source, a
    [copytree] onto a path that exists, or a move of a directory into
    itself. *)
Definition move (fs : filesystem) (src dst : string) : option filesystem :=
  if is_dir fs dst then
    if samefile fs src dst then os_rename fs src dst
    else
      let real_dst := path_join dst (basename (rstrip_sep src)) in
      if path_exists fs real_dst then None else os_rename fs src real_dst
  else os_rename fs src dst.

(** [os.symlink(src, dst)]: [FileExistsError] when anything is at [dst],
    [FileNotFoundError] or [NotADirectoryError] when the directory of [dst]
    is not there. *)
Definition os_symlink (fs : filesystem) (src dst : string) : option filesystem :=
  match fs !! dst with
  | Some _ => None
  | None => if is_dir fs (path_parent dst) then Some (<[dst := Symlink src]> fs) else None
  end.

(** [os.mkdir(d)] *)
Inductive mkdir_result :=
  | Made (fs : filesystem)
  | NoParent      (* FileNotFoundError *)
  | Refused.      (* FileExistsError, NotADirectoryError *)

Definition os_mkdir (fs : filesystem) (d : string) : mkdir_result :=
  match fs !! d with
  | Some _ => Refused
  | None =>
      match stat fs (path_parent d) with
      | Some Dir => Made (<[d := Dir]> fs)
      | Some _ => Refused
      | None => NoParent
      end
  end.

(** [Path(d).mkdir(parents=True, exist_ok=True)], as pathlib has it: try
    [os.mkdir]; on [FileNotFoundError] make the parent the same way and try
    once more; on any other error be content if [d] is a directory.
    [ancestors] are the parents of [d], nearest first; when none is left
    [d] is its own parent and the error is raised.  [None] is the
    exception. *)
Fixpoint mkdir_chain (fs : filesystem) (d : string) (ancestors : list string)
    : option filesystem :=
  match os_mkdir fs d with
  | Made fs' => Some fs'
  | Refused => if is_dir fs d then Some fs else None
  | NoParent =>
      match ancestors with
      | [] => None
      | p :: rest =>
          fs1 ← mkdir_chain fs p rest;
          match os_mkdir fs1 d with
          | Made fs2 => Some fs2
          | Refused => if is_dir fs1 d then Some fs1 else None
          | NoParent => None
          end
      end
  end.

Definition mkdir_parents (fs : filesystem) (d : string) : option filesystem :=
  mkdir_chain fs d (path_parents d).

(** ** The content hasher *)

(** [file_hash(path)]: the [try] turns every failure into the empty text. *)
Definition file_hash (fs : filesystem) (path : string) : string :=
  match read_bytes fs path with
  | Some content => Sha256.hexdigest content
  | None => EmptyString
  end.

(** ** The SQLite store *)

(** Storage classes that the program can put into a column. *)
Inductive sqlval :=
  | SNull
  | SInt (z : Z)
  | SText (s : string).

(** A row of [dotfiles].  The five [TEXT NOT NULL] columns hold text; the
    [INTEGER] column keeps whatever class was stored. *)
Record dotfile_row := DotfileRow {
  d_id : Z;
  d_name : string;
  d_source_path : string;
  d_target_path : string;
  d_category : string;
  d_description : string;
  d_auto_update : sqlval
}.

Record snapshot_row := SnapshotRow {
  s_id : Z;
  s_entry_id : Z;
  s_content_hash : string;
  s_content_b64 : string;
  s_saved_at : string;
  s_notes : string
}.

(** The two tables, rows in rowid order, each with its [AUTOINCREMENT]
    counter (the [sqlite_sequence] entry). *)
Record database := Database {
  dotfiles : list dotfile_row;
  dotfiles_seq : Z;
  snapshots : list snapshot_row;
  snapshots_seq : Z
}.

(** The names in [dotfiles], which the [UNIQUE] constraint keeps distinct. *)
Definition names (db : database) : list string := map d_name (dotfiles db).


(** [get_db()] on a fresh file. *)
Definition empty_db : database := Database [] 0 [] 0.

(** An integer bound to a statement parameter must fit SQLite's 64 bits. *)
Definition in_int64 (z : Z) : bool :=
  ((- 2 ^ 63 <=? z) && (z <? 2 ^ 63))%Z.

(** The rowid an [AUTOINCREMENT] table gives to its next row. *)
Definition next_rowid (ids : list Z) (seq : Z) : Z :=
  (Z.max seq (foldr Z.max 0 ids) + 1)%Z.

(** [SELECT * FROM dotfiles WHERE id=?] with [fetchone()] *)
Definition select_dotfile (db : database) (id : Z) : option dotfile_row :=
  find (fun r => (d_id r =? id)%Z) (dotfiles db).

(** [SELECT * FROM snapshots WHERE id=?] with [fetchone()] *)
Definition select_snapshot (db : database) (id : Z) : option snapshot_row :=
  find (fun r => (s_id r =? id)%Z) (snapshots db).

(** [ORDER BY saved_at DESC]: a stable sort of the rows in scan order, by
    the binary collation of the text. *)
Fixpoint insert_desc (x : snapshot_row) (l : list snapshot_row) : list snapshot_row :=
  match l with
  | [] => [x]
  | y :: l' =>
      if String.leb (s_saved_at y) (s_saved_at x) then x :: l
      else y :: insert_desc x l'
  end.

Definition order_by_saved_at_desc (l : list snapshot_row) : list snapshot_row :=
  foldr insert_desc [] l.

Definition snapshots_of (db : database) (entry_id : Z) : list snapshot_row :=
  filter (fun r => s_entry_id r = entry_id) (snapshots db).

(** [SELECT * FROM snapshots WHERE entry_id=? ORDER BY saved_at DESC LIMIT 1] *)
Definition latest_snapshot (db : database) (entry_id : Z) : option snapshot_row :=
  head (order_by_saved_at_desc (snapshots_of db entry_id)).

(** [INSERT INTO snapshots(entry_id,content_hash,content_b64,saved_at,notes)] *)
Definition insert_snapshot (db : database)
    (entry_id : Z) (h b64 now notes : string) : database :=
  let id := next_rowid (map s_id (snapshots db)) (snapshots_seq db) in
  Database (dotfiles db) (dotfiles_seq db)
           (snapshots db ++ [SnapshotRow id entry_id h b64 now notes]) id.

(** [ORDER BY category, name] *)
Definition row_leb (a b : dotfile_row) : bool :=
  match String.compare (d_category a) (d_category b) with
  | Lt => true
  | Eq => String.leb (d_name a) (d_name b)
  | Gt => false
  end.

Fixpoint insert_asc (x : dotfile_row) (l : list dotfile_row) : list dotfile_row :=
  match l with
  | [] => [x]
  | y :: l' => if row_leb x y then x :: l else y :: insert_asc x l'
  end.

Definition order_by_category_name (l : list dotfile_row) : list dotfile_row :=
  foldr insert_asc [] l.

(** ** JSON values *)

(** What [json.load] returns.  An object lists its members in order; a key
    is looked up at its first occurrence. *)
#[local] Unset Elimination Schemes.
Inductive json :=
  | JNull
  | JBool (b : bool)
  | JInt (z : Z)
  | JStr (s : string)
  | JArr (items : list json)
  | JObj (members : list (string * json)).
#[local] Set Elimination Schemes.

(** ** The host platform *)

Record platform := Platform {
  (** [str(Path(s))] *)
  path_str : string -> string;
  (** [str(Path(s).expanduser())]; [None] is the [RuntimeError] of a home
      directory that cannot be determined *)
  expanduser : string -> option string;
  (** [str(Path(s).expanduser().resolve())]; [None] is the [RuntimeError]
      of [expanduser] or of a loop of symbolic links *)
  resolve : filesystem -> string -> option string;
  (** what a column of [INTEGER] affinity does to a text: [Some z] when the
      text is stored as the integer [z], [None] when it stays a text *)
  integer_affinity : string -> option Z;
  (** [subprocess.run(["diff", "-u", old, path], capture_output=True,
      text=True).stdout], where [old] holds the given bytes; [None] when the
      call raises (no [diff] program, output that does not decode) *)
  diff_u : list byte -> filesystem -> string -> option string;
  (** the bytes that [json.dump(data, f, indent=2)] writes to a file opened
      in text mode *)
  json_dump : json -> list byte
}.

(** Column affinities of [dotfiles]. *)
Definition text_affinity (v : sqlval) : sqlval :=
  match v with
  | SInt z => SText (pretty z)
  | _ => v
  end.

Definition int_affinity (P : platform) (v : sqlval) : sqlval :=
  match v with
  | SText s => match integer_affinity P s with Some z => SInt z | None => SText s end
  | _ => v
  end.


Definition text_of (v : sqlval) : option string :=
  match text_affinity v with SText s => Some s | _ => None end.

(** [INSERT INTO dotfiles(name,source_path,target_path,category,description,
    auto_update) VALUES(?,?,?,?,?,?)].  [None] is a constraint failure
    ([NOT NULL] or [UNIQUE]): a plain [INSERT] raises
    [sqlite3.IntegrityError], [INSERT OR IGNORE] skips the row. *)
Definition insert_dotfile (P : platform) (db : database)
    (name source target category description auto : sqlval) : option database :=
  n ← text_of name;
  s ← text_of source;
  t ← text_of target;
  c ← text_of category;
  d ← text_of description;
  a ← (match int_affinity P auto with SNull => None | v => Some v end);
  if existsb (String.eqb n) (map d_name (dotfiles db)) then None
  else
    let id := next_rowid (map d_id (dotfiles db)) (dotfiles_seq db) in
    Some (Database (dotfiles db ++ [DotfileRow id n s t c d a]) id
                   (snapshots db) (snapshots_seq db)).

(** ** Records, reports and results *)

Record DotfileEntry := Entry {
  id : Z;
  name : string;
  source_path : string;
  target_path : string;
  category : string;
  description : string;
  auto_update : bool
}.

(** Python's [bool(v)] on a stored value. *)
Definition truthy (v : sqlval) : bool :=
  match v with
  | SNull => false
  | SInt z => negb (z =? 0)%Z
  | SText s => negb (String.eqb s EmptyString)
  end.

Definition row_to_entry (row : dotfile_row) : DotfileEntry :=
  Entry (d_id row) (d_name row) (d_source_path row) (d_target_path row)
        (d_category row) (d_description row) (truthy (d_auto_update row)).

Definition CATEGORIES : list string := ["shell"; "editor"; "git"; "tmux"; "tool"]%string.

(** [s[:n]] *)
Fixpoint string_take (n : nat) (s : string) : string :=
  match n, s with
  | S n', String c r => String c (string_take n' r)
  | _, _ => EmptyString
  end.

(** The lines the commands print, one constructor per message. *)
Inductive report :=
  | ErrBadCategory
  | OkRegistered (name source target : string)
  | ErrAlreadyRegistered (name : string)
  | ErrEntryNotFound (entry_id : Z)
  | ErrSourceMissing (source : string)
  | OkAlreadyLinked (target : string)
  | WarnBackedUp (backup : string)
  | OkLinked (target source : string)
  | ErrSourceFileNotFound (path : string)
  | OkSnapshotSaved (name hash12 : string)
  | WarnNoSnapshots (name : string)
  | OkNoChanges (name : string)
  | WarnChanged (name saved_at : string)
  | Printed (text : string)
  | ErrSnapshotNotFound (snapshot_id : Z)
  | WarnPreRestore (path : string)
  | OkRestored (name : string) (snapshot_id : Z) (saved_at : string)
  | OkExported (fname : string) (entries : nat)
  | OkImported (imported total : nat).

(** Uncaught exceptions. *)
Inductive exn :=
  | OverflowError
  | OSError
  | Base64Error
  | SubprocessError
  | TypeError
  | RuntimeError.

Inductive outcome :=
  | Returned
  | Raised (e : exn)
  | Exited (code : Z).

Record world := World { w_db : database; w_fs : filesystem }.

Record result := Result {
  reports : list report;
  ended : outcome;
  final : world
}.

Definition set_db (w : world) (db : database) : world := World db (w_fs w).
Definition set_fs (w : world) (fs : filesystem) : world := World (w_db w) fs.

Definition returns (rs : list report) (w : world) : result := Result rs Returned w.
Definition raises (rs : list report) (e : exn) (w : world) : result := Result rs (Raised e) w.

(** ** Manifest documents *)

Fixpoint assoc (k : string) (members : list (string * json)) : option json :=
  match members with
  | [] => None
  | (k', v) :: rest => if String.eqb k k' then Some v else assoc k rest
  end.

(** [item[k]]: [None] is the [KeyError] of a dict without [k] or the
    [TypeError] of a value that is not a dict. *)
Definition subscript (item : json) (k : string) : option json :=
  match item with
  | JObj members => assoc k members
  | _ => None
  end.

(** [item.get(k, default)] on a dict. *)
Definition get_or (item : json) (k : string) (default : json) : option json :=
  match item with
  | JObj members => Some (match assoc k members with Some v => v | None => default end)
  | _ => None
  end.

(** How sqlite3 adapts a Python value bound to a parameter; [None] is the
    exception raised for a list, a dict or an integer beyond 64 bits. *)
Definition adapt (v : json) : option sqlval :=
  match v with
  | JNull => Some SNull
  | JBool b => Some (SInt (if b then 1 else 0))
  | JInt z => if in_int64 z then Some (SInt z) else None
  | JStr s => Some (SText s)
  | JArr _ | JObj _ => None
  end.

Definition sql_to_json (v : sqlval) : json :=
  match v with
  | SNull => JNull
  | SInt z => JInt z
  | SText s => JStr s
  end.

(** [dict(r)] for a row of [dotfiles]. *)
Definition row_to_json (r : dotfile_row) : json :=
  JObj [("id", JInt (d_id r)); ("name", JStr (d_name r));
        ("source_path", JStr (d_source_path r)); ("target_path", JStr (d_target_path r));
        ("category", JStr (d_category r)); ("description", JStr (d_description r));
        ("auto_update", sql_to_json (d_auto_update r))]%string.

(** What [for item in data] iterates over: the elements of a list, the keys
    of a dict, the characters of a text; [None] is the [TypeError] of a
    value that cannot be iterated. *)
Definition iter_items (data : json) : option (list json) :=
  match data with
  | JArr items => Some items
  | JObj members => Some (map JStr (remove_dups (map fst members)))
  | JStr s => Some (map (fun c => JStr (String c EmptyString)) (list_ascii_of_string s))
  | _ => None
  end.

(** ** The commands *)

Section Commands.
Variable P : platform.

(** [cmd_register] *)
Definition cmd_register (a_name a_source a_target a_category : string)
    (a_description : option string) (a_auto : bool) (w : world) : result :=
  if negb (existsb (String.eqb a_category) CATEGORIES) then
    Result [ErrBadCategory] (Exited 1) w
  else
    let db := w_db w in
    match resolve P (w_fs w) a_source with
    | None => raises [] RuntimeError w
    | Some source =>
        match expanduser P a_target with
        | None => raises [] RuntimeError w
        | Some target =>
            match insert_dotfile P db (SText a_name) (SText source) (SText target)
                    (SText a_category)
                    (SText (match a_description with Some d => d | None => EmptyString end))
                    (SInt (if a_auto then 1 else 0)) with
            | Some db' => returns [OkRegistered a_name source target] (set_db w db')
            | None => returns [ErrAlreadyRegistered a_name] w
            end
        end
    end.

(** [cmd_link] *)
Definition cmd_link (entry_id : Z) (w : world) : result :=
  if negb (in_int64 entry_id) then raises [] OverflowError w else
  match select_dotfile (w_db w) entry_id with
  | None => returns [ErrEntryNotFound entry_id] w
  | Some row =>
      let e := row_to_entry row in
      let target := path_str P (target_path e) in
      let source := path_str P (source_path e) in
      if negb (path_exists (w_fs w) source) then
        returns [ErrSourceMissing source] w
      else
        match mkdir_parents (w_fs w) (path_parent target) with
        | None => raises [] OSError w
        | Some fs1 =>
            let link (rs : list report) (fs2 : filesystem) : result :=
              match os_symlink fs2 source target with
              | None => raises rs OSError (set_fs w fs2)
              | Some fs3 => returns (rs ++ [OkLinked target source]) (set_fs w fs3)
              end in
            if path_exists fs1 target || is_symlink fs1 target then
              if is_symlink fs1 target && bool_decide (readlink fs1 target = Some source) then
                returns [OkAlreadyLinked target] (set_fs w fs1)
              else
                let backup := (target +:+ ".bak")%string in
                match move fs1 target backup with
                | None => raises [] OSError (set_fs w fs1)
                | Some fs2 => link [WarnBackedUp backup] fs2
                end
            else link [] fs1
        end
  end.

(** [cmd_backup]; [now] is [datetime.now().isoformat()]. *)
Definition cmd_backup (now : string) (entry_id : Z) (a_notes : option string)
    (w : world) : result :=
  if negb (in_int64 entry_id) then raises [] OverflowError w else
  match select_dotfile (w_db w) entry_id with
  | None => returns [ErrEntryNotFound entry_id] w
  | Some row =>
      let e := row_to_entry row in
      let path := path_str P (source_path e) in
      if negb (path_exists (w_fs w) path) then
        returns [ErrSourceFileNotFound path] w
      else
        match read_bytes (w_fs w) path with
        | None => raises [] OSError w
        | Some content =>
            let h := Sha256.hexdigest content in
            let b64 := Base64.b64encode content in
            let db' := insert_snapshot (w_db w) entry_id h b64 now
                         (match a_notes with Some n => n | None => EmptyString end) in
            returns [OkSnapshotSaved (name e) (string_take 12 h)] (set_db w db')
        end
  end.

(** The [else] branch of [cmd_diff]: the warning, then the attempt at a
    unified diff against the snapshot's bytes. *)
Definition diff_changed (e : DotfileEntry) (snap : snapshot_row) (w : world) : result :=
  let rs := [WarnChanged (name e) (string_take 19 (s_saved_at snap))] in
  match Base64.b64decode (s_content_b64 snap) with
  | None => raises rs Base64Error w
  | Some old =>
      match diff_u P old (w_fs w) (source_path e) with
      | None => raises rs SubprocessError w
      | Some stdout =>
          if String.eqb stdout EmptyString then returns rs w
          else returns (rs ++ [Printed (string_take 2000 stdout)]) w
      end
  end.

(** [cmd_diff] *)
Definition cmd_diff (entry_id : Z) (w : world) : result :=
  if negb (in_int64 entry_id) then raises [] OverflowError w else
  match select_dotfile (w_db w) entry_id with
  | None => returns [ErrEntryNotFound entry_id] w
  | Some row =>
      let e := row_to_entry row in
      match latest_snapshot (w_db w) entry_id with
      | None => returns [WarnNoSnapshots (name e)] w
      | Some snap =>
          let current_hash := file_hash (w_fs w) (source_path e) in
          if String.eqb current_hash (s_content_hash snap) then
            returns [OkNoChanges (name e)] w
          else diff_changed e snap w
      end
  end.

(** [cmd_restore] *)
Definition cmd_restore (entry_id snapshot_id : Z) (w : world) : result :=
  if negb (in_int64 entry_id) then raises [] OverflowError w else
  match select_dotfile (w_db w) entry_id with
  | None => returns [ErrEntryNotFound entry_id] w
  | Some row =>
      let e := row_to_entry row in
      if negb (in_int64 snapshot_id) then raises [] OverflowError w else
      match select_snapshot (w_db w) snapshot_id with
      | None => returns [ErrSnapshotNotFound snapshot_id] w
      | Some snap =>
          match Base64.b64decode (s_content_b64 snap) with
          | None => raises [] Base64Error w
          | Some content =>
              let path := path_str P (source_path e) in
              let write (rs : list report) (fs1 : filesystem) : result :=
                match write_bytes fs1 path content with
                | None => raises rs OSError (set_fs w fs1)
                | Some fs2 =>
                    returns (rs ++ [OkRestored (name e) (s_id snap)
                                      (string_take 19 (s_saved_at snap))])
                            (set_fs w fs2)
                end in
              if path_exists (w_fs w) path then
                match copy2 (w_fs w) path (path +:+ ".pre-restore")%string with
                | None => raises [] OSError w
                | Some fs1 => write [WarnPreRestore path] fs1
                end
              else write [] (w_fs w)
          end
      end
  end.

(** [cmd_export_manifest]: the result, and the document handed to
    [json.dump].  [open(fname, "w")] creates or truncates the output file,
    or raises; the file then holds the text of the document. *)
Definition cmd_export_manifest (a_output : option string) (w : world) : result * json :=
  let rows := order_by_category_name (dotfiles (w_db w)) in
  let data := map row_to_json rows in
  let fname := match a_output with
               | Some (String c r) => String c r
               | _ => "dotfiles_manifest.json"%string
               end in
  (match write_bytes (w_fs w) fname (json_dump P (JArr data)) with
   | None => raises [] OSError w
   | Some fs' => returns [OkExported fname (length data)] (set_fs w fs')
   end, JArr data).

(** An [INSERT OR IGNORE] that a constraint stops adds no row, but the
    rowid it had drawn stays recorded in [sqlite_sequence]. *)
Definition ignored_insert (db : database) : database :=
  Database (dotfiles db) (next_rowid (map d_id (dotfiles db)) (dotfiles_seq db))
           (snapshots db) (snapshots_seq db).

(** The body of the [try] in [cmd_import_manifest]: [None] when it raises,
    otherwise the store after [INSERT OR IGNORE]. *)
Definition import_item (db : database) (item : json) : option database :=
  j_name ← subscript item "name";
  j_source ← subscript item "source_path";
  j_target ← subscript item "target_path";
  j_category ← get_or item "category" (JStr "tool");
  j_description ← get_or item "description" (JStr "");
  j_auto ← get_or item "auto_update" (JInt 0);
  v_name ← adapt j_name;
  v_source ← adapt j_source;
  v_target ← adapt j_target;
  v_category ← adapt j_category;
  v_description ← adapt j_description;
  v_auto ← adapt j_auto;
  Some (match insert_dotfile P db v_name v_source v_target v_category v_description v_auto with
        | Some db' => db'
        | None => ignored_insert db
        end).

(** The [for] loop: the store and the counter [imported]. *)
Fixpoint import_loop (db : database) (imported : nat) (items : list json) : database * nat :=
  match items with
  | [] => (db, imported)
  | item :: rest =>
      match import_item db item with
      | Some db' => import_loop db' (S imported) rest
      | None => import_loop db imported rest
      end
  end.

(** [cmd_import_manifest], given the document that [json.load] read. *)
Definition cmd_import_manifest (data : json) (w : world) : result :=
  match iter_items data with
  | None => raises [] TypeError w
  | Some items =>
      let '(db', imported) := import_loop (w_db w) 0 items in
      returns [OkImported imported (length items)] (set_db w db')
  end.

End Commands.

(** ** Sample inputs *)

Module Sample.
Local Open Scope string_scope.

(** What [expanduser] does where no home directory can be determined: a
    text that starts with a tilde raises, any other is left as it is. *)
Definition no_home (s : string) : option string :=
  if String.prefix "~" s then None else Some s.

(** A host where paths are already normalised and absolute, no home
    directory is known, no text in an integer column looks like a number,
    [diff] prints one fixed line and [json.dump] one fixed text. *)
Definition host : platform :=
  Platform (fun s => s) no_home (fun _ s => no_home s)
           (fun _ => None) (fun _ _ _ => Some "--- old")
           (fun _ => list_byte_of_string "[]").

Definition zshrc_v1 : list byte := list_byte_of_string "# zshrc config".
Definition zshrc_v2 : list byte := list_byte_of_string "# modified".
Definition vimrc_v1 : list byte := list_byte_of_string "set nocompatible".

Definition disk : filesystem :=
  <["/tmp/zshrc_source" := File zshrc_v1]>
  (<["/tmp/vimrc_source" := File vimrc_v1]>
  (<["/tmp" := Dir]> (<["/" := Dir]> ∅))).

Definition w0 : world := World empty_db disk.

(** After [register zshrc /tmp/zshrc_source /tmp/.zshrc --category shell]. *)
Definition w1 : world :=
  final (cmd_register host "zshrc" "/tmp/zshrc_source" "/tmp/.zshrc" "shell"
           (Some "zshrc config") false w0).

(** After registering [vimrc] as well. *)
Definition w2 : world :=
  final (cmd_register host "vimrc" "/tmp/vimrc_source" "/tmp/.vimrc" "editor" None true w1).

(** After [backup 1 --notes initial]. *)
Definition w3 : world :=
  final (cmd_backup host "2024-05-01T10:00:00.000001" 1 (Some "initial") w2).

(** A registration whose target is its own source. *)
Definition w_self : world :=
  final (cmd_register host "loop" "/tmp/zshrc_source" "/tmp/zshrc_source" "tool" None false w0).

Definition row_self : dotfile_row :=
  DotfileRow 1 "loop" "/tmp/zshrc_source" "/tmp/zshrc_source" "tool" "" (SInt 0).

(** A registration whose source is not on the disk. *)
Definition w_gone : world :=
  final (cmd_register host "gone" "/tmp/gone" "/tmp/.gone" "tool" None false w0).

Definition row_gone : dotfile_row :=
  DotfileRow 1 "gone" "/tmp/gone" "/tmp/.gone" "tool" "" (SInt 0).

Definition row_zshrc : dotfile_row :=
  DotfileRow 1 "zshrc" "/tmp/zshrc_source" "/tmp/.zshrc" "shell" "zshrc config" (SInt 0).

Definition row_vimrc : dotfile_row :=
  DotfileRow 2 "vimrc" "/tmp/vimrc_source" "/tmp/.vimrc" "editor" "" (SInt 1).

(** The snapshot that [w3] holds, and [w3] after the source file of
    [zshrc] was deleted. *)
Definition snap1 : snapshot_row :=
  SnapshotRow 1 1 (Sha256.hexdigest zshrc_v1) (Base64.b64encode zshrc_v1)
              "2024-05-01T10:00:00.000001" "initial".

Definition w_lost : world := set_fs w3 (delete "/tmp/zshrc_source" (w_fs w3)).

(** A registration whose target lies below a regular file. *)
Definition w_blocked : world :=
  final (cmd_register host "blocked" "/tmp/zshrc_source" "/tmp/vimrc_source/.zshrc" "tool"
           None false w0).

Definition row_blocked : dotfile_row :=
  DotfileRow 1 "blocked" "/tmp/zshrc_source" "/tmp/vimrc_source/.zshrc" "tool" "" (SInt 0).

(** [w2] on a disk where [<source>.pre-restore] of [zshrc] is a link to the
    source itself. *)
Definition w_trap : world :=
  set_fs w2 (<["/tmp/zshrc_source.pre-restore" := Symlink "/tmp/zshrc_source"]> (w_fs w2)).

(** [w_trap] after [backup 1], and then with the source of [zshrc]
    overwritten. *)
Definition w_trap_saved : world := final (cmd_backup host "2024-05-01T10:00:00" 1 None w_trap).

Definition w_trap_changed : world :=
  set_fs w_trap_saved (<["/tmp/zshrc_source" := File zshrc_v2]> (w_fs w_trap_saved)).

(** [w3] after the source of [zshrc] was changed and backed up again at the
    same reading of the clock. *)
Definition w_tie : world :=
  final (cmd_backup host "2024-05-01T10:00:00.000001" 1 (Some "again")
           (set_fs w3 (<["/tmp/zshrc_source" := File zshrc_v2]> (w_fs w3)))).

(** A manifest that names the same dotfile twice. *)
Definition item_zshrc : json :=
  JObj [("name", JStr "zshrc"); ("source_path", JStr "/tmp/zshrc_source");
        ("target_path", JStr "/tmp/.zshrc"); ("category", JStr "shell")].

Definition manifest_twice : json := JArr [item_zshrc; item_zshrc].

End Sample.

(** ** The remaining commands: sync-all, check, list, snapshots *)

(** The lines these commands print. *)
Inductive note :=
  | WarnNoAutoUpdate
  | InfoUseAutoFlag
  | InfoSyncing (count : nat)
  | WarnSyncSourceMissing (name source : string)
  | OkSyncAlreadyLinked (name : string)
  | OkSyncLinked (name : string)
  | ErrBroken (name target : string)
  | OkTarget (name : string)
  | WarnUnlinked (name target : string)
  | InfoNotLinked (name : string)
  | OkNoBroken
  | WarnNoDotfiles
  | Header (category : string)
  | EntryLine (entry_id : Z) (name : string) (auto : bool) (category : string)
  | PathLine (source target : string)
  | DescriptionLine (description : string)
  | StatusLine (status : string)
  | WarnNoSnapshotsFor (entry_id : Z)
  | SnapshotsHeader (entry_id : Z)
  | SnapshotLine (snapshot_id : Z) (saved_at hash12 notes : string).

Record run := Run {
  notes : list note;
  run_ended : outcome;
  run_final : world
}.

(** The category of a header line. *)
Definition header_category (n : note) : option string :=
  match n with
  | Header c => Some c
  | _ => None
  end.



(** [print_entry(e, status)]; the icon is dropped. *)
Definition print_entry (e : DotfileEntry) (status : string) : list note :=
  [EntryLine (id e) (name e) (auto_update e) (category e);
   PathLine (source_path e) (target_path e)]
  ++ (if String.eqb (description e) EmptyString then [] else [DescriptionLine (description e)])
  ++ (if String.eqb status EmptyString then [] else [StatusLine status]).

(** The join of [cmd_snapshots]: every snapshot of the entry, once for each
    row of [dotfiles] that carries the entry's id. *)
Definition joined_snapshots (db : database) (entry_id : Z) : list snapshot_row :=
  flat_map (fun s => map (fun _ => s)
                       (List.filter (fun d => (d_id d =? s_entry_id s)%Z) (dotfiles db)))
           (snapshots_of db entry_id).

Section MoreCommands.
Variable P : platform.

(** [_do_link] *)
Definition _do_link (e : DotfileEntry) (w : world) : run :=
  let target := path_str P (target_path e) in
  let source := path_str P (source_path e) in
  if negb (path_exists (w_fs w) source) then
    Run [WarnSyncSourceMissing (name e) source] Returned w
  else
    match mkdir_parents (w_fs w) (path_parent target) with
    | None => Run [] (Raised OSError) w
    | Some fs1 =>
        let link (fs2 : filesystem) : run :=
          match os_symlink fs2 source target with
          | None => Run [] (Raised OSError) (set_fs w fs2)
          | Some fs3 => Run [OkSyncLinked (name e)] Returned (set_fs w fs3)
          end in
        if path_exists fs1 target || is_symlink fs1 target then
          if is_symlink fs1 target && bool_decide (readlink fs1 target = Some source) then
            Run [OkSyncAlreadyLinked (name e)] Returned (set_fs w fs1)
          else
            match move fs1 target (target +:+ ".bak")%string with
            | None => Run [] (Raised OSError) (set_fs w fs1)
            | Some fs2 => link fs2
            end
        else link fs1
    end.



(** One turn of the loop of [cmd_check_broken]: the line, and whether
    [broken] is raised. *)
Definition check_entry (fs : filesystem) (e : DotfileEntry) : note * bool :=
  let t := path_str P (target_path e) in
  if is_symlink fs t then
    if negb (path_exists fs t) then (ErrBroken (name e) t, true)
    else (OkTarget (name e), false)
  else if path_exists fs t then (WarnUnlinked (name e) t, false)
  else (InfoNotLinked (name e), false).

Fixpoint check_loop (fs : filesystem) (rows : list dotfile_row) (broken : nat)
    : list note * nat :=
  match rows with
  | [] => ([], broken)
  | row :: rest =>
      let '(line, b) := check_entry fs (row_to_entry row) in
      let '(lines, n) := check_loop fs rest (if b then S broken else broken) in
      (line :: lines, n)
  end.

(** [cmd_check_broken] *)
Definition cmd_check_broken (w : world) : list note :=
  let '(lines, broken) := check_loop (w_fs w) (dotfiles (w_db w)) 0 in
  lines ++ (if Nat.eqb broken 0 then [OkNoBroken] else []).

(** The status that [cmd_list] shows. *)
Definition list_status (fs : filesystem) (t : string) : string :=
  if is_symlink fs t && path_exists fs t then "linked"%string
  else if path_exists fs t then "exists (unlinked)"%string
  else "not linked"%string.

(** The loop of [cmd_list], with [cur_cat]. *)
Fixpoint list_loop (fs : filesystem) (rows : list dotfile_row) (cur_cat : option string)
    : list note :=
  match rows with
  | [] => []
  | row :: rest =>
      let e := row_to_entry row in
      (if bool_decide (Some (category e) = cur_cat) then [] else [Header (category e)])
      ++ print_entry e (list_status fs (path_str P (target_path e)))
      ++ list_loop fs rest (Some (category e))
  end.

(** [cmd_list] *)
Definition cmd_list (w : world) : list note :=
  match order_by_category_name (dotfiles (w_db w)) with
  | [] => [WarnNoDotfiles]
  | rows => list_loop (w_fs w) rows None
  end.

End MoreCommands.

(** [cmd_snapshots]: [None] is the [OverflowError] of an id beyond 64 bits. *)
Definition cmd_snapshots (entry_id : Z) (w : world) : option (list note) :=
  if negb (in_int64 entry_id) then None
  else
    match order_by_saved_at_desc (joined_snapshots (w_db w) entry_id) with
    | [] => Some [WarnNoSnapshotsFor entry_id]
    | rows =>
        Some (SnapshotsHeader entry_id ::
              map (fun r => SnapshotLine (s_id r) (string_take 19 (s_saved_at r))
                              (string_take 12 (s_content_hash r)) (s_notes r)) rows)
    end.

(** ** More sample inputs *)

Module Fixture.
Local Open Scope string_scope.
Import Sample.

(** [w2] with the target of [zshrc] already there as a regular file. *)
Definition old_zshrc : list byte := list_byte_of_string "# old".

Definition w_taken : world := set_fs w2 (<["/tmp/.zshrc" := File old_zshrc]> (w_fs w2)).

(** [w2] with the target of [zshrc] already there as a directory that holds
    one file. *)
Definition w_folder : world :=
  set_fs w2 (<["/tmp/.zshrc/init" := File old_zshrc]> (<["/tmp/.zshrc" := Dir]> (w_fs w2))).



(** [w3] after a second backup of the unchanged file, a second later. *)
Definition w4 : world :=
  final (cmd_backup host "2024-05-01T10:00:01.000001" 1 None w3).

(** A store whose only snapshot belongs to an entry that is not there. *)
Definition w_orphan : world := World (Database [] 0 [snap1] 1) disk.

(** A manifest whose one item has only the required keys. *)
Definition item_gitconfig : json :=
  JObj [("name", JStr "gitconfig"); ("source_path", JStr "/tmp/gitconfig");
        ("target_path", JStr "/tmp/.gitconfig")].

Definition row_gitconfig : dotfile_row :=
  DotfileRow 1 "gitconfig" "/tmp/gitconfig" "/tmp/.gitconfig" "tool" "" (SInt 0).

End Fixture.

(* ===================================================================== *)
(** * Part II: properties *)
(* ===================================================================== *)

(** ** SHA-256 digests are 64 hexadecimal characters *)

Lemma hex_length (s : Sha256.state) : String.length (Sha256.hex s) = 64.
Proof. destruct s. reflexivity. Qed.

Lemma hexdigest_length (content : list byte) :
  String.length (Sha256.hexdigest content) = 64.
Proof. apply hex_length. Qed.

Lemma hexdigest_nonempty (content : list byte) :
  Sha256.hexdigest content <> EmptyString.
Proof.
  intros H. pose proof (hexdigest_length content) as L. rewrite H in L. discriminate.
Qed.









(** ** base64: decoding inverts encoding *)

Section Base64Facts.
Import Base64.
Local Open Scope N_scope.

Lemma below_spec (n : nat) (Q : N -> bool) :
  forallb Q (below n) = true -> forall x, x < N.of_nat n -> Q x = true.
Proof.
  intros H x Hx. rewrite forallb_forall in H. apply H.
  unfold below. apply in_map_iff. exists (N.to_nat x). split; [lia|].
  apply in_seq. lia.
Qed.

Lemma below2_spec (n m : nat) (Q : N -> N -> bool) :
  forallb (fun x => forallb (Q x) (below m)) (below n) = true ->
  forall x y, x < N.of_nat n -> y < N.of_nat m -> Q x y = true.
Proof.
  intros H x y Hx Hy.
  apply (below_spec m (Q x)); [|exact Hy].
  apply (below_spec n (fun x => forallb (Q x) (below m))); assumption.
Qed.

Lemma sextet_table v : v < 64 ->
  a2b (b2a v) = Some v /\ Ascii.eqb (b2a v) pad_char = false
  /\ (N_of_ascii (b2a v) <? 128) = true.
Proof.
  intros Hv. assert (H : sextet_ok v = true).
  { apply (below_spec 64); [vm_compute; reflexivity | exact Hv]. }
  unfold sextet_ok in H. apply andb_prop in H as [H H3]. apply andb_prop in H as [H1 H2].
  destruct (a2b (b2a v)) as [w|]; [|discriminate].
  apply N.eqb_eq in H1. subst w. apply negb_true_iff in H2. auto.
Qed.

Lemma pair_table x y : x < 256 -> y < 256 -> pair_ok x y = true.
Proof. apply (below2_spec 256 256). vm_compute. reflexivity. Qed.

Ltac pair_facts x y Hx Hy :=
  let H := fresh "H" in
  pose proof (pair_table x y Hx Hy) as H; unfold pair_ok in H;
  repeat (apply andb_prop in H; destruct H as [H ?]);
  repeat match goal with
         | E : (_ <? _) = true |- _ => apply N.ltb_lt in E
         | E : (_ =? _) = true |- _ => apply N.eqb_eq in E
         end.

Lemma byte_lt_256 (b : byte) : Byte.to_N b < 256.
Proof. pose proof (Byte.to_N_bounded b). lia. Qed.

(** One alphabet character advances the decoder by one position. *)
Lemma step_char v r qp l p : v < 64 ->
  a2b_base64 (String (b2a v) r) qp l p =
    match qp with
    | 0 => a2b_base64 r 1 v 0
    | 1 => cons (out_byte (N.lor (N.shiftl l 2) (N.shiftr v 4)))
             <$> a2b_base64 r 2 (N.land v 15) 0
    | 2 => cons (out_byte (N.lor (N.shiftl l 4) (N.shiftr v 2)))
             <$> a2b_base64 r 3 (N.land v 3) 0
    | _ => cons (out_byte (N.lor (N.shiftl l 6) v)) <$> a2b_base64 r 0 0 0
    end.
Proof.
  intros Hv. destruct (sextet_table v Hv) as (Ha & Hp & _).
  cbn [a2b_base64]. rewrite Hp, Ha. reflexivity.
Qed.

Lemma out_byte_to_N b n : N.land n 255 = Byte.to_N b -> out_byte n = b.
Proof. intros H. unfold out_byte. rewrite H, Byte.of_to_N. reflexivity. Qed.

(** Induction three elements at a time. *)
Lemma triple_ind (A : Type) (Q : list A -> Prop) :
  Q [] -> (forall x, Q [x]) -> (forall x y, Q [x; y]) ->
  (forall x y z r, Q r -> Q (x :: y :: z :: r)) -> forall l, Q l.
Proof.
  intros Q0 Q1 Q2 Q3.
  assert (H : forall l, Q l /\ (forall x, Q (x :: l)) /\ (forall x y, Q (x :: y :: l))).
  { induction l as [|a l (IH0 & IH1 & IH2)]; [auto|].
    split; [apply IH1|]. split; [intros x; apply IH2|]. intros x y. apply Q3, IH0. }
  intros l. apply H.
Qed.

Lemma a2b_b2a_base64 (content : list byte) :
  a2b_base64 (b2a_base64 (map Byte.to_N content)) 0 0 0 = Some content.
Proof.
  induction content as [|x|x y|x y z r IH] using triple_ind.
  - reflexivity.
  - pose proof (byte_lt_256 x) as Hx. assert (H0 : 0 < 256) by lia.
    pair_facts (Byte.to_N x) 0 Hx H0.
    cbn [map b2a_base64].
    rewrite !step_char by assumption.
    cbn -[s0 s1 s2 s3 N.land N.lor N.shiftl N.shiftr out_byte].
    erewrite out_byte_to_N by eassumption. reflexivity.
  - pose proof (byte_lt_256 x) as Hx. pose proof (byte_lt_256 y) as Hy.
    assert (H0 : 0 < 256) by lia.
    pair_facts (Byte.to_N x) (Byte.to_N y) Hx Hy.
    pair_facts (Byte.to_N y) 0 Hy H0.
    cbn [map b2a_base64].
    rewrite !step_char by assumption.
    cbn -[s0 s1 s2 s3 N.land N.lor N.shiftl N.shiftr out_byte].
    erewrite (out_byte_to_N x) by eassumption.
    erewrite (out_byte_to_N y); [reflexivity|].
    match goal with E : N.land (s1 _ _) 15 = _ |- _ => rewrite E end.
    match goal with E : N.shiftr (s2 _ 0) 2 = _ |- _ => rewrite E end. assumption.
  - pose proof (byte_lt_256 x) as Hx. pose proof (byte_lt_256 y) as Hy.
    pose proof (byte_lt_256 z) as Hz.
    pair_facts (Byte.to_N x) (Byte.to_N y) Hx Hy.
    pair_facts (Byte.to_N y) (Byte.to_N z) Hy Hz.
    pair_facts (Byte.to_N z) (Byte.to_N z) Hz Hz.
    cbn [map b2a_base64].
    rewrite !step_char by assumption. rewrite IH.
    cbn -[s0 s1 s2 s3 N.land N.lor N.shiftl N.shiftr out_byte].
    erewrite (out_byte_to_N x) by eassumption.
    erewrite (out_byte_to_N y); [erewrite (out_byte_to_N z); [reflexivity|]|].
    + match goal with E : N.land (s2 _ _) 3 = _ |- _ => rewrite E end. assumption.
    + match goal with E : N.land (s1 _ _) 15 = _ |- _ => rewrite E end.
      match goal with E : N.shiftr (s2 _ _) 2 = _ |- _ => rewrite E end. assumption.
Qed.

Lemma is_ascii_cons c s :
  is_ascii (String c s) = (N_of_ascii c <? 128) && is_ascii s.
Proof. reflexivity. Qed.

Lemma b2a_is_ascii v : v < 64 -> (N_of_ascii (b2a v) <? 128) = true.
Proof. intros Hv. apply (sextet_table v Hv). Qed.

Lemma b2a_base64_is_ascii (content : list byte) :
  is_ascii (b2a_base64 (map Byte.to_N content)) = true.
Proof.
  induction content as [|x|x y|x y z r IH] using triple_ind.
  - reflexivity.
  - pose proof (byte_lt_256 x) as Hx. assert (H0 : 0 < 256) by lia.
    pair_facts (Byte.to_N x) 0 Hx H0.
    cbn [map b2a_base64]. rewrite !is_ascii_cons.
    rewrite !b2a_is_ascii by assumption. reflexivity.
  - pose proof (byte_lt_256 x) as Hx. pose proof (byte_lt_256 y) as Hy.
    assert (H0 : 0 < 256) by lia.
    pair_facts (Byte.to_N x) (Byte.to_N y) Hx Hy.
    pair_facts (Byte.to_N y) 0 Hy H0.
    cbn [map b2a_base64]. rewrite !is_ascii_cons.
    rewrite !b2a_is_ascii by assumption. reflexivity.
  - pose proof (byte_lt_256 x) as Hx. pose proof (byte_lt_256 y) as Hy.
    pose proof (byte_lt_256 z) as Hz.
    pair_facts (Byte.to_N x) (Byte.to_N y) Hx Hy.
    pair_facts (Byte.to_N y) (Byte.to_N z) Hy Hz.
    pair_facts (Byte.to_N z) (Byte.to_N z) Hz Hz.
    cbn [map b2a_base64]. rewrite !is_ascii_cons.
    rewrite !b2a_is_ascii by assumption. exact IH.
Qed.

Lemma b64decode_b64encode (content : list byte) :
  b64decode (b64encode content) = Some content.
Proof.
  unfold b64decode, b64encode.
  rewrite b2a_base64_is_ascii. apply a2b_b2a_base64.
Qed.

End Base64Facts.

(** ** The filesystem primitives *)

Section Filesystem.
Implicit Types (fs : filesystem) (p q k d : string) (c : list byte) (n : node).
#[local] Arguments MAXSYMLINKS : simpl never.

Lemma stat_unfold fs p :
  stat fs p = match fs !! p with
              | Some (Symlink t) => stat_from (pred MAXSYMLINKS) fs t
              | other => other
              end.
Proof. reflexivity. Qed.

Lemma read_bytes_exists fs p c : read_bytes fs p = Some c -> path_exists fs p = true.
Proof.
  unfold read_bytes, path_exists. destruct (stat fs p) as [[]|]; congruence.
Qed.

Lemma is_dir_present fs p : is_dir fs p = true -> is_Some (fs !! p).
Proof.
  unfold is_dir. rewrite stat_unfold. destruct (fs !! p); [eauto|discriminate].
Qed.

(** The key that [open] settles on holds no link and no directory. *)
Lemma open_target_key fuel fs p k :
  open_target fuel fs p = Some k ->
  match fs !! k with Some (File _) | None => True | _ => False end.
Proof.
  revert p. induction fuel as [|fuel IH]; intros p; simpl;
    destruct (fs !! p) as [[| |t]|] eqn:E; intros H; try discriminate.
  - inversion H; subst. rewrite E. exact I.
  - destruct (is_dir fs (path_parent p)); inversion H; subst. rewrite E. exact I.
  - inversion H; subst. rewrite E. exact I.
  - eapply IH, H.
  - destruct (is_dir fs (path_parent p)); inversion H; subst. rewrite E. exact I.
Qed.

(** Reading what was just written, through the same chain of links. *)
Lemma stat_after_open fuel fs p k c :
  open_target fuel fs p = Some k -> stat_from fuel (<[k := File c]> fs) p = Some (File c).
Proof.
  revert p. induction fuel as [|fuel IH]; intros p; simpl.
  - destruct (fs !! p) as [[| |t]|] eqn:E; intros H; try discriminate.
    + inversion H; subst. rewrite lookup_insert_eq. reflexivity.
    + destruct (is_dir fs (path_parent p)); inversion H; subst.
      rewrite lookup_insert_eq. reflexivity.
  - destruct (fs !! p) as [[| |t]|] eqn:E; intros H; try discriminate.
    + inversion H; subst. rewrite lookup_insert_eq. reflexivity.
    + assert (Hne : k <> p).
      { intros ->. pose proof (open_target_key _ _ _ _ H) as G. rewrite E in G. exact G. }
      rewrite lookup_insert_ne by exact Hne. rewrite E. apply IH, H.
    + destruct (is_dir fs (path_parent p)); inversion H; subst.
      rewrite lookup_insert_eq. reflexivity.
Qed.

Lemma read_after_write fs p c fs' :
  write_bytes fs p c = Some fs' -> read_bytes fs' p = Some c.
Proof.
  unfold write_bytes, read_bytes, stat.
  destruct (open_target MAXSYMLINKS fs p) as [k|] eqn:E; [|discriminate].
  intros H. inversion H; subst. rewrite (stat_after_open _ _ _ _ _ E). reflexivity.
Qed.

(** A path that leads to a regular file can be opened for writing, and
    [open] settles on the key of that file. *)
Lemma open_of_stat fuel fs p c :
  stat_from fuel fs p = Some (File c) ->
  exists k, open_target fuel fs p = Some k /\ real_from fuel fs p = Some k /\
            fs !! k = Some (File c).
Proof.
  revert p. induction fuel as [|fuel IH]; intros p; simpl;
    destruct (fs !! p) as [[| |t]|] eqn:E; intros H; try discriminate; eauto.
  inversion H; subst. eauto.
  inversion H; subst. eauto.
Qed.

Lemma write_of_read fs p c c' :
  read_bytes fs p = Some c -> is_Some (write_bytes fs p c').
Proof.
  unfold read_bytes, write_bytes, stat. intros H.
  destruct (stat_from MAXSYMLINKS fs p) as [[x| |]|] eqn:E; try discriminate.
  destruct (open_of_stat _ _ _ _ E) as (k & -> & _). eexists. reflexivity.
Qed.

(** Putting a regular file somewhere never hides a regular file. *)
Lemma stat_file_insert_file fuel fs p q c x :
  stat_from fuel fs p = Some (File c) ->
  exists c', stat_from fuel (<[q := File x]> fs) p = Some (File c').
Proof.
  revert p. induction fuel as [|fuel IH]; intros p; simpl.
  - destruct (decide (q = p)) as [->|Hne].
    + rewrite lookup_insert_eq. eauto.
    + rewrite lookup_insert_ne by exact Hne.
      destruct (fs !! p) as [[| |t]|]; intros H; try discriminate; eauto.
  - destruct (decide (q = p)) as [->|Hne].
    + rewrite lookup_insert_eq. eauto.
    + rewrite lookup_insert_ne by exact Hne.
      destruct (fs !! p) as [[| |t]|]; intros H; try discriminate; eauto.
Qed.

Lemma read_after_insert_file fs p q c x :
  read_bytes fs p = Some c -> exists c', read_bytes (<[q := File x]> fs) p = Some c'.
Proof.
  unfold read_bytes, stat. intros H.
  destruct (stat_from MAXSYMLINKS fs p) as [[y| |]|] eqn:E; try discriminate.
  destruct (stat_file_insert_file _ _ _ q _ x E) as [c' ->]. eauto.
Qed.

(** A path that resolves does not pass through a key that holds nothing:
    entering something there leaves it as it is. *)
Lemma stat_insert_absent fuel fs p k n :
  fs !! k = None -> is_Some (stat_from fuel fs p) ->
  stat_from fuel (<[k := n]> fs) p = stat_from fuel fs p.
Proof.
  intros Hk. revert p. induction fuel as [|fuel IH]; intros p; simpl;
    (destruct (decide (k = p)) as [->|Hne];
     [rewrite Hk; intros [? ?]; discriminate|rewrite lookup_insert_ne by exact Hne]).
  - reflexivity.
  - destruct (fs !! p) as [[| |t]|]; auto.
Qed.

Lemma is_dir_insert_absent fs d k n :
  fs !! k = None -> is_dir fs d = true -> is_dir (<[k := n]> fs) d = true.
Proof.
  unfold is_dir, stat. intros Hk H.
  rewrite stat_insert_absent; [exact H|exact Hk|].
  destruct (stat_from MAXSYMLINKS fs d); [eauto|discriminate].
Qed.

(** What [os.mkdir] and pathlib's [mkdir] leave behind. *)
Lemma os_mkdir_made fs d fs' :
  os_mkdir fs d = Made fs' -> fs !! d = None /\ fs' = <[d := Dir]> fs.
Proof.
  unfold os_mkdir. destruct (fs !! d); [discriminate|].
  destruct (stat fs (path_parent d)) as [[]|]; intros H; inversion H; auto.
Qed.

Lemma is_dir_insert_dir fs d : is_dir (<[d := Dir]> fs) d = true.
Proof. unfold is_dir. rewrite stat_unfold, lookup_insert_eq. reflexivity. Qed.

Lemma mkdir_chain_is_dir ancestors fs d fs' :
  mkdir_chain fs d ancestors = Some fs' -> is_dir fs' d = true.
Proof.
  destruct ancestors as [|a rest]; simpl.
  - destruct (os_mkdir fs d) as [fs1| |] eqn:E; intros H; try discriminate.
    + inversion H; subst. apply os_mkdir_made in E as [_ ->]. apply is_dir_insert_dir.
    + destruct (is_dir fs d) eqn:D; inversion H; subst. exact D.
  - destruct (os_mkdir fs d) as [fs1| |] eqn:E; intros H.
    + inversion H; subst. apply os_mkdir_made in E as [_ ->]. apply is_dir_insert_dir.
    + destruct (mkdir_chain fs a rest) as [fs1|]; [|discriminate]. cbn in H.
      destruct (os_mkdir fs1 d) as [fs2| |] eqn:E2; try discriminate.
      * inversion H; subst. apply os_mkdir_made in E2 as [_ ->]. apply is_dir_insert_dir.
      * destruct (is_dir fs1 d) eqn:D; inversion H; subst. exact D.
    + destruct (is_dir fs d) eqn:D; inversion H; subst. exact D.
Qed.

(** [mkdir] on a directory that is there creates nothing. *)
Lemma mkdir_chain_noop ancestors fs d :
  is_dir fs d = true -> mkdir_chain fs d ancestors = Some fs.
Proof.
  intros D. destruct (is_dir_present _ _ D) as [n Hn].
  destruct ancestors; simpl; unfold os_mkdir; rewrite Hn, D; reflexivity.
Qed.


(** [os.symlink] succeeds exactly on a free name in a directory. *)
Lemma os_symlink_some fs src dst fs' :
  os_symlink fs src dst = Some fs' ->
  fs !! dst = None /\ is_dir fs (path_parent dst) = true /\ fs' = <[dst := Symlink src]> fs.
Proof.
  unfold os_symlink. destruct (fs !! dst); [discriminate|].
  destruct (is_dir fs (path_parent dst)); intros H; inversion H; auto.
Qed.

End Filesystem.

Lemma string_length_append (s t : string) :
  String.length (s +:+ t) = String.length s + String.length t.
Proof. induction s as [|c s IH]; simpl; [reflexivity|]. rewrite IH. reflexivity. Qed.

Lemma append_longer (s t : string) : t <> EmptyString -> s +:+ t <> s.
Proof.
  intros Ht H. apply (f_equal String.length) in H.
  rewrite string_length_append in H. destruct t; [congruence|]. simpl in H. lia.
Qed.

(** ** Linking *)

Section Link.
Variable P : platform.

Lemma set_fs_same (w : world) : set_fs w (w_fs w) = w.
Proof. destruct w; reflexivity. Qed.

(** [cmd_link] on an entry that is already linked: nothing is touched. *)
Lemma link_when_linked (eid : Z) (w : world) (row : dotfile_row) :
  in_int64 eid = true ->
  select_dotfile (w_db w) eid = Some row ->
  path_exists (w_fs w) (path_str P (d_source_path row)) = true ->
  is_dir (w_fs w) (path_parent (path_str P (d_target_path row))) = true ->
  w_fs w !! path_str P (d_target_path row) = Some (Symlink (path_str P (d_source_path row))) ->
  cmd_link P eid w = returns [OkAlreadyLinked (path_str P (d_target_path row))] w.
Proof.
  intros Hid Hrow Hsrc Hdir Hlink. unfold cmd_link.
  rewrite Hid, Hrow. cbn [negb row_to_entry source_path target_path].
  rewrite Hsrc. cbn [negb].
  unfold mkdir_parents. rewrite (mkdir_chain_noop _ _ _ Hdir).
  unfold is_symlink, readlink. rewrite Hlink.
  rewrite orb_true_r, bool_decide_eq_true_2 by reflexivity.
  cbn [andb]. rewrite set_fs_same. reflexivity.
Qed.

(** C7. When the source of an entry is not on the disk, [cmd_link] reports
    it and returns with the world (store and filesystem) exactly as it was:
    no directory is made, nothing is renamed, no link is created. *)
Theorem link_missing_source_no_mutation (eid : Z) (w : world) (row : dotfile_row) :
  in_int64 eid = true ->
  select_dotfile (w_db w) eid = Some row ->
  path_exists (w_fs w) (path_str P (d_source_path row)) = false ->
  cmd_link P eid w = returns [ErrSourceMissing (path_str P (d_source_path row))] w.
Proof.
  intros Hid Hrow Hsrc. unfold cmd_link.
  rewrite Hid, Hrow. cbn [negb row_to_entry source_path target_path].
  rewrite Hsrc. reflexivity.
Qed.

(** A call that finds the source and returns leaves the target a link to
    the source, in a directory. *)
Lemma link_returned (eid : Z) (w : world) (row : dotfile_row) :
  in_int64 eid = true ->
  select_dotfile (w_db w) eid = Some row ->
  path_exists (w_fs w) (path_str P (d_source_path row)) = true ->
  ended (cmd_link P eid w) = Returned ->
  exists rs fs',
    cmd_link P eid w = returns rs (set_fs w fs') /\
    fs' !! path_str P (d_target_path row) = Some (Symlink (path_str P (d_source_path row))) /\
    is_dir fs' (path_parent (path_str P (d_target_path row))) = true.
Proof.
  intros Hid Hrow Hsrc.
  set (source := path_str P (d_source_path row)) in *.
  set (target := path_str P (d_target_path row)) in *.
  unfold cmd_link.
  rewrite Hid, Hrow. cbn [negb row_to_entry source_path target_path].
  fold source target. rewrite Hsrc. cbn [negb].
  destruct (mkdir_parents (w_fs w) (path_parent target)) as [fs1|] eqn:M; [|discriminate].
  pose proof (mkdir_chain_is_dir _ _ _ _ M) as D1.
  destruct (path_exists fs1 target || is_symlink fs1 target) eqn:Ex.
  - destruct (is_symlink fs1 target && bool_decide (readlink fs1 target = Some source)) eqn:Al.
    + apply andb_prop in Al as [Hsym Hrd]. apply bool_decide_eq_true_1 in Hrd.
      assert (Hlink : fs1 !! target = Some (Symlink source)).
      { unfold readlink in Hrd. destruct (fs1 !! target) as [[| |t]|]; congruence. }
      eauto.
    + destruct (move fs1 target (target +:+ ".bak")) as [fs2|]; [|discriminate].
      destruct (os_symlink fs2 source target) as [fs3|] eqn:S; [|discriminate].
      apply os_symlink_some in S as (Hn & D2 & ->). intros _.
      do 2 eexists. split; [reflexivity|]. split; [apply lookup_insert_eq|].
      apply is_dir_insert_absent; assumption.
  - destruct (os_symlink fs1 source target) as [fs3|] eqn:S; [|discriminate].
    apply os_symlink_some in S as (Hn & D2 & ->). intros _.
    do 2 eexists. split; [reflexivity|]. split; [apply lookup_insert_eq|].
    apply is_dir_insert_absent; assumption.
Qed.

(** C4, as the program has it.  Take an entry whose source exists, and a
    first [cmd_link] that returns normally (it raises when the directory of
    the target cannot be made, or when what is at the target cannot be moved
    aside).  The target is then a link to the source.  If the source still
    exists after that call, a second call prints "Already linked" and leaves
    the world as the first call left it: no directory made, no rename, no
    new link, no new [.bak]. *)
Theorem link_twice_already_linked (eid : Z) (w : world) (row : dotfile_row) :
  in_int64 eid = true ->
  select_dotfile (w_db w) eid = Some row ->
  path_exists (w_fs w) (path_str P (d_source_path row)) = true ->
  ended (cmd_link P eid w) = Returned ->
  path_exists (w_fs (final (cmd_link P eid w))) (path_str P (d_source_path row)) = true ->
  w_fs (final (cmd_link P eid w)) !! path_str P (d_target_path row)
    = Some (Symlink (path_str P (d_source_path row))) /\
  cmd_link P eid (final (cmd_link P eid w))
    = returns [OkAlreadyLinked (path_str P (d_target_path row))] (final (cmd_link P eid w)).
Proof.
  intros Hid Hrow Hsrc Hret.
  destruct (link_returned eid w row Hid Hrow Hsrc Hret) as (rs & fs' & -> & Hlink & Hdir).
  cbn [final ended returns w_fs set_fs]. intros Hsrc'.
  split; [exact Hlink|].
  apply link_when_linked; assumption.
Qed.

End Link.

(** ** Rowids *)

Lemma foldr_max_ge (ids : list Z) (x : Z) : In x ids -> (x <= foldr Z.max 0 ids)%Z.
Proof.
  induction ids as [|y ids IH]; simpl; [tauto|].
  intros [->|Hin]; [lia|]. specialize (IH Hin). lia.
Qed.

Lemma next_rowid_fresh (ids : list Z) (seq x : Z) : In x ids -> (x < next_rowid ids seq)%Z.
Proof. intros Hin. pose proof (foldr_max_ge ids x Hin). unfold next_rowid. lia. Qed.

Lemma find_app_last {A : Type} (f : A -> bool) (l : list A) (x : A) :
  (forall y, In y l -> f y = false) -> f x = true -> find f (l ++ [x]) = Some x.
Proof.
  induction l as [|y l IH]; simpl; intros Hl Hx.
  - rewrite Hx. reflexivity.
  - rewrite (Hl y (or_introl eq_refl)). apply IH; auto.
Qed.

(** The row that [INSERT INTO snapshots] adds is the one its rowid selects. *)
Lemma select_inserted_snapshot (db : database) (eid : Z) (h b64 now notes : string) :
  let db' := insert_snapshot db eid h b64 now notes in
  select_snapshot db' (snapshots_seq db')
    = Some (SnapshotRow (snapshots_seq db') eid h b64 now notes).
Proof.
  cbn [insert_snapshot snapshots snapshots_seq]. unfold select_snapshot.
  cbn [insert_snapshot snapshots snapshots_seq].
  apply find_app_last.
  - intros y Hy. cbn [s_id]. apply Z.eqb_neq.
    assert (s_id y < next_rowid (map s_id (snapshots db)) (snapshots_seq db))%Z; [|lia].
    apply next_rowid_fresh, in_map, Hy.
  - cbn [s_id]. apply Z.eqb_refl.
Qed.

(** ** Backup and restore *)

Section Snapshots.
Variable P : platform.

(** [cmd_backup] on a readable source: one snapshot row is appended, with
    the digest and the base64 text of the bytes read; the disk is not
    touched. *)
Lemma backup_readable (now : string) (eid : Z) (notes : option string)
    (w : world) (row : dotfile_row) (content : list byte) :
  in_int64 eid = true ->
  select_dotfile (w_db w) eid = Some row ->
  read_bytes (w_fs w) (path_str P (d_source_path row)) = Some content ->
  cmd_backup P now eid notes w =
    returns [OkSnapshotSaved (d_name row) (string_take 12 (Sha256.hexdigest content))]
      (set_db w (insert_snapshot (w_db w) eid (Sha256.hexdigest content)
                   (Base64.b64encode content) now
                   (match notes with Some n => n | None => EmptyString end))).
Proof.
  intros Hid Hrow Hread. unfold cmd_backup.
  rewrite Hid, Hrow. cbn [negb row_to_entry source_path name].
  rewrite (read_bytes_exists _ _ _ Hread), Hread. reflexivity.
Qed.

(** A copy that succeeds has read the source and entered a regular file
    with its bytes. *)
Lemma copy2_some (fs : filesystem) (src dst : string) (fs' : filesystem) :
  copy2 fs src dst = Some fs' ->
  exists k c, read_bytes fs src = Some c /\ fs' = <[k := File c]> fs.
Proof.
  unfold copy2.
  set (dst' := if is_dir fs dst then _ else _).
  destruct (samefile fs src dst'); [discriminate|].
  destruct (read_bytes fs src) as [c|]; cbn [mbind option_bind]; [|discriminate].
  unfold write_bytes.
  destruct (open_target MAXSYMLINKS fs dst') as [k|];
    cbn [fmap option_fmap option_map]; [|discriminate].
  intros H. inversion H. eauto.
Qed.

(** [cmd_restore] with a snapshot whose text decodes, on a source that is a
    regular file, once the current version has been copied aside: the file
    ends up holding the decoded bytes. *)
Lemma restore_readable (eid sid : Z) (w : world) (row : dotfile_row)
    (snap : snapshot_row) (content current : list byte) (fs1 : filesystem) :
  in_int64 eid = true ->
  in_int64 sid = true ->
  select_dotfile (w_db w) eid = Some row ->
  select_snapshot (w_db w) sid = Some snap ->
  Base64.b64decode (s_content_b64 snap) = Some content ->
  read_bytes (w_fs w) (path_str P (d_source_path row)) = Some current ->
  copy2 (w_fs w) (path_str P (d_source_path row))
        (path_str P (d_source_path row) +:+ ".pre-restore") = Some fs1 ->
  exists fs',
    cmd_restore P eid sid w =
      returns [WarnPreRestore (path_str P (d_source_path row));
               OkRestored (d_name row) (s_id snap) (string_take 19 (s_saved_at snap))]
              (set_fs w fs') /\
    write_bytes fs1 (path_str P (d_source_path row)) content = Some fs' /\
    read_bytes fs' (path_str P (d_source_path row)) = Some content.
Proof.
  intros Hid Hsid Hrow Hsnap Hdec Hread Hcopy. unfold cmd_restore.
  rewrite Hid, Hrow. cbn [negb row_to_entry source_path name].
  rewrite Hsid, Hsnap, Hdec. cbn [negb].
  set (path := path_str P (d_source_path row)) in *.
  rewrite (read_bytes_exists _ _ _ Hread), Hcopy.
  destruct (copy2_some _ _ _ _ Hcopy) as (k & c & _ & ->).
  destruct (read_after_insert_file (w_fs w) path k _ c Hread) as [c' Hc'].
  destruct (write_of_read _ path c' content Hc') as [fs2 Hw].
  rewrite Hw. exists fs2. split; [reflexivity|]. split; [reflexivity|].
  apply (read_after_write _ _ _ _ Hw).
Qed.

(** When the copy raises, [cmd_restore] raises with it, before anything is
    written. *)
Lemma restore_copy_raises (eid sid : Z) (w : world) (row : dotfile_row)
    (snap : snapshot_row) (content : list byte) :
  in_int64 eid = true ->
  in_int64 sid = true ->
  select_dotfile (w_db w) eid = Some row ->
  select_snapshot (w_db w) sid = Some snap ->
  Base64.b64decode (s_content_b64 snap) = Some content ->
  path_exists (w_fs w) (path_str P (d_source_path row)) = true ->
  copy2 (w_fs w) (path_str P (d_source_path row))
        (path_str P (d_source_path row) +:+ ".pre-restore") = None ->
  cmd_restore P eid sid w = raises [] OSError w.
Proof.
  intros Hid Hsid Hrow Hsnap Hdec Hex Hcopy. unfold cmd_restore.
  rewrite Hid, Hrow. cbn [negb row_to_entry source_path name].
  rewrite Hsid, Hsnap, Hdec. cbn [negb]. rewrite Hex, Hcopy. reflexivity.
Qed.

(** C2, as the program has it.  Take an entry whose source file holds the
    bytes [C].  [cmd_backup] returns normally, leaves the disk alone and
    appends one snapshot, of this entry.  The source file can then be
    overwritten with any bytes [other], and reads as [other].  What
    [cmd_restore] with the id of that snapshot does next depends on its copy
    of the current version to [<source>.pre-restore]: when [shutil.copy2]
    succeeds, the command returns normally and the source file holds exactly
    [C] again; when it raises, the command raises with it and the source
    file still holds [other]. *)
Theorem backup_overwrite_restore (now : string) (notes : option string) (eid : Z)
    (w : world) (row : dotfile_row) (C other : list byte) :
  in_int64 eid = true ->
  select_dotfile (w_db w) eid = Some row ->
  read_bytes (w_fs w) (path_str P (d_source_path row)) = Some C ->
  in_int64 (snapshots_seq (w_db (final (cmd_backup P now eid notes w)))) = true ->
  exists snap fs2,
    ended (cmd_backup P now eid notes w) = Returned /\
    w_fs (final (cmd_backup P now eid notes w)) = w_fs w /\
    snapshots (w_db (final (cmd_backup P now eid notes w))) = snapshots (w_db w) ++ [snap] /\
    s_entry_id snap = eid /\
    write_bytes (w_fs w) (path_str P (d_source_path row)) other = Some fs2 /\
    read_bytes fs2 (path_str P (d_source_path row)) = Some other /\
    let r := cmd_restore P eid (s_id snap)
               (set_fs (final (cmd_backup P now eid notes w)) fs2) in
    match copy2 fs2 (path_str P (d_source_path row))
                (path_str P (d_source_path row) +:+ ".pre-restore") with
    | Some _ =>
        ended r = Returned /\
        read_bytes (w_fs (final r)) (path_str P (d_source_path row)) = Some C
    | None =>
        ended r = Raised OSError /\
        read_bytes (w_fs (final r)) (path_str P (d_source_path row)) = Some other
    end.
Proof.
  intros Hid Hrow Hread.
  rewrite (backup_readable now eid notes w row C Hid Hrow Hread).
  cbn [final ended returns w_fs w_db set_db set_fs].
  set (nt := match notes with Some n => n | None => EmptyString end).
  set (db' := insert_snapshot (w_db w) eid (Sha256.hexdigest C) (Base64.b64encode C) now nt).
  intros Hsid.
  pose proof (select_inserted_snapshot (w_db w) eid (Sha256.hexdigest C)
                (Base64.b64encode C) now nt) as Hsel.
  cbv zeta in Hsel. fold db' in Hsel.
  set (snap := SnapshotRow (snapshots_seq db') eid (Sha256.hexdigest C)
                 (Base64.b64encode C) now nt) in *.
  destruct (write_of_read (w_fs w) _ C other Hread) as [fs2 Hw].
  pose proof (read_after_write _ _ _ _ Hw) as Hother.
  exists snap, fs2.
  change (set_fs (set_db w db') fs2) with (World db' fs2).
  do 6 (split; [first [reflexivity | assumption]|]).
  cbv zeta.
  destruct (copy2 fs2 _ _) as [fs3|] eqn:Hcopy.
  - destruct (restore_readable eid (s_id snap) (World db' fs2) row snap C other fs3)
      as (fs' & Hr & _ & Hc); try assumption.
    + cbn [w_db w_fs snap s_content_b64]. apply b64decode_b64encode.
    + rewrite Hr. cbn [final ended returns w_fs set_fs]. split; [reflexivity|exact Hc].
  - rewrite (restore_copy_raises eid (s_id snap) (World db' fs2) row snap C); try assumption.
    + cbn [final ended raises w_fs]. split; [reflexivity|exact Hother].
    + cbn [w_db w_fs snap s_content_b64]. apply b64decode_b64encode.
    + cbn [w_fs]. apply (read_bytes_exists _ _ _ Hother).
Qed.

End Snapshots.

Section Restore.
Variable P : platform.

(** The two "not found" answers of [cmd_restore]: an unknown entry, and a
    snapshot id that no row carries.  Neither touches the world. *)
Lemma restore_entry_not_found (eid sid : Z) (w : world) :
  in_int64 eid = true ->
  select_dotfile (w_db w) eid = None ->
  cmd_restore P eid sid w = returns [ErrEntryNotFound eid] w.
Proof. intros Hid Hrow. unfold cmd_restore. rewrite Hid, Hrow. reflexivity. Qed.

Lemma restore_snapshot_not_found (eid sid : Z) (w : world) (row : dotfile_row) :
  in_int64 eid = true ->
  in_int64 sid = true ->
  select_dotfile (w_db w) eid = Some row ->
  select_snapshot (w_db w) sid = None ->
  cmd_restore P eid sid w = returns [ErrSnapshotNotFound sid] w.
Proof.
  intros Hid Hsid Hrow Hsnap. unfold cmd_restore.
  rewrite Hid, Hrow, Hsid, Hsnap. reflexivity.
Qed.

End Restore.

(** C1, at a failing input.  The store holds the entries [zshrc] (id 1) and
    [vimrc] (id 2) and one snapshot, id 1, taken of [zshrc]; entry 2 has no
    snapshot.  [restore 2 1] does not answer "Snapshot #1 not found": it
    reports a restore of [vimrc] and writes the bytes of [zshrc] into the
    source file of [vimrc]. *)
Theorem restore_takes_foreign_snapshot :
  select_dotfile (w_db Sample.w3) 2 = Some Sample.row_vimrc /\
  (exists snap, select_snapshot (w_db Sample.w3) 1 = Some snap /\ s_entry_id snap = 1%Z) /\
  snapshots_of (w_db Sample.w3) 2 = [] /\
  reports (cmd_restore Sample.host 2 1 Sample.w3)
    = [WarnPreRestore "/tmp/vimrc_source";
       OkRestored "vimrc" 1 "2024-05-01T10:00:00"] /\
  read_bytes (w_fs Sample.w3) "/tmp/vimrc_source" = Some Sample.vimrc_v1 /\
  read_bytes (w_fs (final (cmd_restore Sample.host 2 1 Sample.w3))) "/tmp/vimrc_source"
    = Some Sample.zshrc_v1.
Proof.
  split; [vm_compute; reflexivity|].
  split; [eexists; split; vm_compute; reflexivity|].
  repeat split; vm_compute; reflexivity.
Qed.

(** ** Registration and the uniqueness of names *)

Lemma existsb_eqb_In (n : string) (l : list string) :
  existsb (String.eqb n) l = true <-> In n l.
Proof.
  rewrite existsb_exists. split.
  - intros (x & Hx & He). apply String.eqb_eq in He. subst. exact Hx.
  - intros H. exists n. split; [exact H|apply String.eqb_refl].
Qed.

Lemma existsb_eqb_not_In (n : string) (l : list string) :
  existsb (String.eqb n) l = false <-> ~ In n l.
Proof.
  rewrite <- existsb_eqb_In. destruct (existsb (String.eqb n) l); split; congruence.
Qed.

Section Store.
Variable P : platform.

(** A successful insert appends one row and leaves the others alone; a
    refused one is refused for a [NULL] or for a name already there. *)
Lemma insert_dotfile_names (db db' : database) (vn vs vt vc vd va : sqlval) :
  insert_dotfile P db vn vs vt vc vd va = Some db' ->
  exists row, dotfiles db' = dotfiles db ++ [row] /\ ~ In (d_name row) (names db) /\
              text_of vn = Some (d_name row) /\ snapshots db' = snapshots db.
Proof.
  unfold insert_dotfile. intros H.
  destruct (text_of vn) as [n|]; [|discriminate].
  destruct (text_of vs) as [s|]; [|discriminate].
  destruct (text_of vt) as [t|]; [|discriminate].
  destruct (text_of vc) as [c|]; [|discriminate].
  destruct (text_of vd) as [d|]; [|discriminate].
  cbn [mbind option_bind] in H.
  destruct (match int_affinity P va with SNull => None | v => Some v end) as [a|];
    [|discriminate].
  cbn [mbind option_bind] in H.
  destruct (existsb (String.eqb n) (map d_name (dotfiles db))) eqn:E; [discriminate|].
  inversion H; subst. eexists. cbn [dotfiles snapshots d_name].
  split; [reflexivity|]. split; [|auto].
  apply existsb_eqb_not_In. exact E.
Qed.

Lemma insert_dotfile_unique (db db' : database) (vn vs vt vc vd va : sqlval) :
  NoDup (names db) ->
  insert_dotfile P db vn vs vt vc vd va = Some db' ->
  NoDup (names db').
Proof.
  intros Hnd H. destruct (insert_dotfile_names _ _ _ _ _ _ _ _ H) as (row & Hrows & Hfresh & _).
  unfold names in *. rewrite Hrows, map_app. cbn [map].
  apply NoDup_app. split; [exact Hnd|]. split.
  - intros x Hx Hx'. apply list_elem_of_In in Hx. apply list_elem_of_In in Hx'.
    destruct Hx' as [<-|[]]. exact (Hfresh Hx).
  - apply NoDup_singleton.
Qed.

Lemma insert_dotfile_taken (db : database) (n : string) (vs vt vc vd va : sqlval) :
  In n (names db) -> insert_dotfile P db (SText n) vs vt vc vd va = None.
Proof.
  intros Hin. unfold insert_dotfile. cbn [text_of text_affinity mbind option_bind].
  destruct (text_of vs) as [s|]; [|reflexivity].
  destruct (text_of vt) as [t|]; [|reflexivity].
  destruct (text_of vc) as [c|]; [|reflexivity].
  destruct (text_of vd) as [d|]; [|reflexivity].
  cbn [mbind option_bind].
  destruct (match int_affinity P va with SNull => None | v => Some v end) as [a|];
    [|reflexivity].
  cbn [mbind option_bind].
  rewrite (proj2 (existsb_eqb_In n (map d_name (dotfiles db))) Hin). reflexivity.
Qed.

(** C5, as the program has it.  Names stay unique across [cmd_register],
    whatever its arguments.  When the name is already in the store (and the
    category is one of [CATEGORIES]), the store still holds exactly one
    entry of that name afterwards.  If the source and the target expand and
    resolve, the command prints the "already registered" error, returns
    normally and leaves the world as it was.  If one of them does not (the
    [RuntimeError] of [expanduser] or [resolve], which is raised before the
    [try]), the command ends with that exception and prints nothing. *)
Theorem register_duplicate_name (a_name a_source a_target a_category : string)
    (a_description : option string) (a_auto : bool) (w : world) :
  NoDup (names (w_db w)) ->
  NoDup (names (w_db (final (cmd_register P a_name a_source a_target a_category
                               a_description a_auto w)))) /\
  (In a_name (names (w_db w)) -> In a_category CATEGORIES ->
   count_occ string_dec
     (names (w_db (final (cmd_register P a_name a_source a_target a_category
                            a_description a_auto w)))) a_name = 1 /\
   cmd_register P a_name a_source a_target a_category a_description a_auto w
     = match resolve P (w_fs w) a_source, expanduser P a_target with
       | Some _, Some _ => returns [ErrAlreadyRegistered a_name] w
       | _, _ => raises [] RuntimeError w
       end).
Proof.
  intros Hnd. split.
  - unfold cmd_register.
    destruct (negb (existsb (String.eqb a_category) CATEGORIES)); [exact Hnd|].
    destruct (resolve P (w_fs w) a_source) as [source|]; [|exact Hnd].
    destruct (expanduser P a_target) as [target|]; [|exact Hnd].
    destruct (insert_dotfile P (w_db w) (SText a_name) (SText source) (SText target)
                (SText a_category)
                (SText (match a_description with Some d => d | None => EmptyString end))
                (SInt (if a_auto then 1 else 0))) as [db'|] eqn:E; [|exact Hnd].
    cbn [final returns w_db set_db]. eapply insert_dotfile_unique; eassumption.
  - intros Hin Hcat.
    assert (Hcmd : cmd_register P a_name a_source a_target a_category a_description a_auto w
              = match resolve P (w_fs w) a_source, expanduser P a_target with
                | Some _, Some _ => returns [ErrAlreadyRegistered a_name] w
                | _, _ => raises [] RuntimeError w
                end).
    { unfold cmd_register.
      rewrite (proj2 (existsb_eqb_In a_category CATEGORIES) Hcat). cbn [negb].
      destruct (resolve P (w_fs w) a_source) as [source|]; [|reflexivity].
      destruct (expanduser P a_target) as [target|]; [|reflexivity].
      rewrite insert_dotfile_taken by exact Hin. reflexivity. }
    split; [|exact Hcmd].
    assert (Hw : final (cmd_register P a_name a_source a_target a_category
                          a_description a_auto w) = w).
    { rewrite Hcmd. destruct (resolve P (w_fs w) a_source); [|reflexivity].
      destruct (expanduser P a_target); reflexivity. }
    rewrite Hw. apply NoDup_count_occ'; [|exact Hin].
    apply NoDup_ListNoDup. exact Hnd.
Qed.

End Store.

(** ** The content hasher *)


(** ** The binary collation of texts *)

Lemma ascii_compare_refl (a : ascii) : Ascii.compare a a = Eq.
Proof. unfold Ascii.compare. apply N.compare_refl. Qed.

Lemma string_compare_refl (s : string) : String.compare s s = Eq.
Proof. induction s as [|a s IH]; simpl; [reflexivity|]. rewrite ascii_compare_refl. exact IH. Qed.

Lemma string_leb_refl (s : string) : String.leb s s = true.
Proof. unfold String.leb. rewrite string_compare_refl. reflexivity. Qed.

Lemma string_leb_trans (a b c : string) :
  String.leb a b = true -> String.leb b c = true -> String.leb a c = true.
Proof.
  unfold String.leb. revert b c.
  induction a as [|x a IH]; intros [|y b] [|z c]; simpl; try congruence.
  unfold Ascii.compare.
  destruct (N.compare_spec (N_of_ascii x) (N_of_ascii y)) as [Exy|Lxy|Gxy];
    destruct (N.compare_spec (N_of_ascii y) (N_of_ascii z)) as [Eyz|Lyz|Gyz];
    try congruence.
  - rewrite Exy, Eyz, N.compare_refl. apply IH.
  - rewrite Exy. rewrite (proj2 (N.compare_lt_iff _ _) Lyz). reflexivity.
  - rewrite <- Eyz. rewrite (proj2 (N.compare_lt_iff _ _) Lxy). reflexivity.
  - assert (L : (N_of_ascii x < N_of_ascii z)%N) by lia.
    rewrite (proj2 (N.compare_lt_iff _ _) L). reflexivity.
Qed.

Lemma string_leb_false (a b : string) : String.leb a b = false -> String.leb b a = true.
Proof. intros H. destruct (String.leb_total a b) as [E|E]; congruence. Qed.

(** ** The latest snapshot *)

(** The row that [ORDER BY saved_at DESC LIMIT 1] returns: its [saved_at] is
    the greatest, and no row scanned before it carries the same one. *)
Lemma head_insert_desc (x : snapshot_row) (l : list snapshot_row) :
  head (insert_desc x l) =
    Some (match head l with
          | None => x
          | Some y => if String.leb (s_saved_at y) (s_saved_at x) then x else y
          end).
Proof.
  destruct l as [|y l]; simpl; [reflexivity|].
  destruct (String.leb (s_saved_at y) (s_saved_at x)); reflexivity.
Qed.

Lemma latest_of_rows (l : list snapshot_row) :
  l <> [] ->
  exists before snap after,
    l = before ++ snap :: after /\
    head (order_by_saved_at_desc l) = Some snap /\
    (forall s, In s l -> String.leb (s_saved_at s) (s_saved_at snap) = true) /\
    (forall s, In s before -> s_saved_at s <> s_saved_at snap).
Proof.
  induction l as [|x l IH]; [congruence|]. intros _.
  cbn [order_by_saved_at_desc foldr]. rewrite head_insert_desc.
  destruct l as [|x' l'].
  - exists [], x, []. cbn. repeat split.
    + intros s [<-|[]]. apply string_leb_refl.
    + intros s [].
  - destruct IH as (before & m & after & Hl & Hhead & Hmax & Hbefore); [discriminate|].
    fold (order_by_saved_at_desc (x' :: l')). rewrite Hhead.
    destruct (String.leb (s_saved_at m) (s_saved_at x)) eqn:E.
    + exists [], x, (x' :: l'). repeat split.
      * intros s [<-|Hin]; [apply string_leb_refl|].
        eapply string_leb_trans; [apply Hmax, Hin|exact E].
      * intros s [].
    + exists (x :: before), m, after. rewrite Hl. repeat split.
      * intros s [<-|Hin]; [apply string_leb_false, E|].
        apply Hmax. rewrite Hl. exact Hin.
      * intros s [<-|Hin]; [|apply Hbefore, Hin].
        intros Heq. rewrite Heq, string_leb_refl in E. discriminate.
Qed.

(** A row of a filtered table, found back in the table itself. *)
Lemma filter_split {A : Type} (Q : A -> Prop) `{Hdec : !forall x, Decision (Q x)}
    (l before' after' : list A) (x : A) :
  filter Q l = before' ++ x :: after' ->
  exists before after,
    l = before ++ x :: after /\ filter Q before = before' /\ Q x.
Proof.
  revert before'. induction l as [|y l IH]; intros before' Hl.
  - destruct before'; discriminate.
  - rewrite filter_cons in Hl. destruct (decide (Q y)) as [Hy|Hy].
    + destruct before' as [|b before'].
      * injection Hl as -> Hl. exists [], l. auto.
      * injection Hl as -> Hl. destruct (IH _ Hl) as (before & after & -> & Hf & Hx).
        exists (b :: before), after. rewrite filter_cons, decide_True by exact Hy.
        rewrite Hf. auto.
    + destruct (IH _ Hl) as (before & after & -> & Hf & Hx).
      exists (y :: before), after. rewrite filter_cons, decide_False by exact Hy. auto.
Qed.

(** In a table whose rowids grow with the scan, the rows after a row carry
    larger rowids. *)
Lemma sorted_after (before after : list snapshot_row) (snap s : snapshot_row) :
  StronglySorted (fun a b => (s_id a < s_id b)%Z) (before ++ snap :: after) ->
  In s after -> (s_id snap < s_id s)%Z.
Proof.
  induction before as [|b before IH]; simpl; intros Hsorted Hin.
  - apply StronglySorted_inv in Hsorted as [_ Hall].
    rewrite List.Forall_forall in Hall. exact (Hall s Hin).
  - apply StronglySorted_inv in Hsorted as [Hs _]. exact (IH Hs Hin).
Qed.

(** ** Diff *)

Lemma string_take_length (n : nat) (s : string) :
  String.length (string_take n s) = Nat.min n (String.length s).
Proof.
  revert s. induction n as [|n IH]; intros [|c s]; simpl; try reflexivity.
  rewrite IH. reflexivity.
Qed.

Lemma string_take_prefix (n : nat) (s : string) :
  String.prefix (string_take n s) s = true.
Proof.
  revert s. induction n as [|n IH]; intros [|c s]; simpl; try reflexivity.
  destruct (ascii_dec c c) as [_|Hne]; [apply IH|congruence].
Qed.

Section Diff.
Variable P : platform.

Lemma cmd_diff_with_snapshot (eid : Z) (w : world) (row : dotfile_row) (snap : snapshot_row) :
  in_int64 eid = true ->
  select_dotfile (w_db w) eid = Some row ->
  latest_snapshot (w_db w) eid = Some snap ->
  cmd_diff P eid w =
    if String.eqb (file_hash (w_fs w) (d_source_path row)) (s_content_hash snap)
    then returns [OkNoChanges (d_name row)] w
    else diff_changed P (row_to_entry row) snap w.
Proof.
  intros Hid Hrow Hsnap. unfold cmd_diff. rewrite Hid, Hrow, Hsnap. reflexivity.
Qed.

(** The changed branch always prints its warning first and never touches
    the world; what follows depends on the snapshot text and on [diff]. *)
Lemma diff_changed_cases (e : DotfileEntry) (snap : snapshot_row) (w : world) :
  let changed := WarnChanged (name e) (string_take 19 (s_saved_at snap)) in
  match Base64.b64decode (s_content_b64 snap) with
  | Some old =>
      match diff_u P old (w_fs w) (source_path e) with
      | Some stdout =>
          diff_changed P e snap w =
            returns (changed :: if String.eqb stdout EmptyString then []
                                else [Printed (string_take 2000 stdout)]) w
      | None => diff_changed P e snap w = raises [changed] SubprocessError w
      end
  | None => diff_changed P e snap w = raises [changed] Base64Error w
  end.
Proof.
  unfold diff_changed.
  destruct (Base64.b64decode (s_content_b64 snap)) as [old|]; [|reflexivity].
  destruct (diff_u P old (w_fs w) (source_path e)) as [stdout|]; [|reflexivity].
  destruct (String.eqb stdout EmptyString); reflexivity.
Qed.

Lemma diff_changed_warns (e : DotfileEntry) (snap : snapshot_row) (w : world) :
  exists rest,
    reports (diff_changed P e snap w)
      = WarnChanged (name e) (string_take 19 (s_saved_at snap)) :: rest /\
    final (diff_changed P e snap w) = w.
Proof.
  pose proof (diff_changed_cases e snap w) as H. cbv zeta in H.
  destruct (Base64.b64decode (s_content_b64 snap)) as [old|].
  - destruct (diff_u P old (w_fs w) (source_path e)) as [stdout|];
      rewrite H; eexists; split; reflexivity.
  - rewrite H. eexists. split; reflexivity.
Qed.

(** C6, as the program has it.  For an entry with at least one snapshot,
    [cmd_diff] looks at one snapshot of that entry: one whose [saved_at] is
    greatest among the snapshots of the entry and, among those of the entry
    with that same [saved_at], the first row of the table in scan order (the
    lowest rowid when rowids grow with the scan: the one inserted first, not
    the one inserted last).  It prints "no changes" exactly when the hash of
    the current file equals the stored one.  Otherwise it prints the
    "changed" warning first, whatever happens next: when the stored text
    decodes and [diff] answers, the output, cut to its first 2000
    characters, is printed if it is not empty; when [diff] is not available
    the warning stands alone and the exception goes up. *)
Theorem diff_against_latest (eid : Z) (w : world) (row : dotfile_row) :
  in_int64 eid = true ->
  select_dotfile (w_db w) eid = Some row ->
  (exists s, In s (snapshots (w_db w)) /\ s_entry_id s = eid) ->
  exists before snap after,
    snapshots (w_db w) = before ++ snap :: after /\
    s_entry_id snap = eid /\
    latest_snapshot (w_db w) eid = Some snap /\
    (forall s, In s (snapshots (w_db w)) -> s_entry_id s = eid ->
               String.leb (s_saved_at s) (s_saved_at snap) = true) /\
    (forall s, In s before -> s_entry_id s = eid -> s_saved_at s <> s_saved_at snap) /\
    (StronglySorted (fun a b => (s_id a < s_id b)%Z) (snapshots (w_db w)) ->
     forall s, In s (snapshots (w_db w)) -> s_entry_id s = eid ->
               s_saved_at s = s_saved_at snap -> (s_id snap <= s_id s)%Z) /\
    let h := file_hash (w_fs w) (d_source_path row) in
    let changed := WarnChanged (d_name row) (string_take 19 (s_saved_at snap)) in
    (reports (cmd_diff P eid w) = [OkNoChanges (d_name row)] <-> h = s_content_hash snap) /\
    (h = s_content_hash snap -> cmd_diff P eid w = returns [OkNoChanges (d_name row)] w) /\
    (h <> s_content_hash snap ->
     final (cmd_diff P eid w) = w /\
     match Base64.b64decode (s_content_b64 snap) with
     | Some old =>
         match diff_u P old (w_fs w) (d_source_path row) with
         | Some stdout =>
             cmd_diff P eid w =
               returns (changed :: if String.eqb stdout EmptyString then []
                                   else [Printed (string_take 2000 stdout)]) w /\
             String.length (string_take 2000 stdout) <= 2000 /\
             String.prefix (string_take 2000 stdout) stdout = true
         | None => cmd_diff P eid w = raises [changed] SubprocessError w
         end
     | None => cmd_diff P eid w = raises [changed] Base64Error w
     end).
Proof.
  intros Hid Hrow (s0 & Hs0 & He0).
  assert (Hne : snapshots_of (w_db w) eid <> []).
  { intros Hnil. assert (Hin : s0 ∈ snapshots_of (w_db w) eid).
    { apply list_elem_of_filter. split; [exact He0|apply list_elem_of_In, Hs0]. }
    rewrite Hnil in Hin. inversion Hin. }
  destruct (latest_of_rows _ Hne) as (before' & snap & after' & Hl & Hhead & Hmax & Hbefore).
  destruct (filter_split _ _ _ _ _ Hl) as (before & after & Htable & Hfb & Hsnap).
  exists before, snap, after.
  assert (Hlatest : latest_snapshot (w_db w) eid = Some snap) by exact Hhead.
  assert (Hof : forall s, In s (snapshots (w_db w)) -> s_entry_id s = eid ->
                          In s (snapshots_of (w_db w) eid)).
  { intros s Hs He. apply list_elem_of_In, list_elem_of_filter.
    split; [exact He|apply list_elem_of_In, Hs]. }
  assert (Hties : forall s, In s before -> s_entry_id s = eid ->
                            s_saved_at s <> s_saved_at snap).
  { intros s Hs He. apply Hbefore. rewrite <- Hfb.
    apply list_elem_of_In, list_elem_of_filter. split; [exact He|apply list_elem_of_In, Hs]. }
  split; [exact Htable|]. split; [exact Hsnap|]. split; [exact Hlatest|].
  split; [intros s Hs He; apply Hmax, Hof; assumption|].
  split; [exact Hties|]. split.
  { intros Hsorted s Hs He Heq. rewrite Htable in Hs, Hsorted.
    apply in_app_or in Hs as [Hs|[<-|Hs]].
    - exfalso. exact (Hties s Hs He Heq).
    - lia.
    - pose proof (sorted_after _ _ _ _ Hsorted Hs). lia. }
  cbv zeta. rewrite (cmd_diff_with_snapshot eid w row snap Hid Hrow Hlatest).
  destruct (String.eqb (file_hash (w_fs w) (d_source_path row)) (s_content_hash snap)) eqn:E.
  - apply String.eqb_eq in E. split; [tauto|]. split; [reflexivity|]. congruence.
  - apply String.eqb_neq in E.
    destruct (diff_changed_warns (row_to_entry row) snap w) as (rest & Hrep & Hfin).
    split; [|split].
    + split; [|congruence]. rewrite Hrep. discriminate.
    + congruence.
    + intros _. split; [exact Hfin|].
      pose proof (diff_changed_cases (row_to_entry row) snap w) as H. cbv zeta in H.
      cbn [row_to_entry source_path name] in H.
      destruct (Base64.b64decode (s_content_b64 snap)) as [old|]; [|exact H].
      destruct (diff_u P old (w_fs w) (d_source_path row)) as [stdout|]; [|exact H].
      split; [exact H|]. split; [|apply string_take_prefix].
      rewrite string_take_length. lia.
Qed.

(** C10. When the source of an entry cannot be read and the latest
    snapshot carries a SHA-256 digest, [cmd_diff] answers neither "not
    found" nor "no changes": the empty hash differs from the digest, so the
    command takes the changed branch, prints the warning and hands the
    missing path to [diff].  With a snapshot text that decodes, the command
    returns normally exactly when [diff] answers. *)
Theorem diff_unreadable_source (eid : Z) (w : world) (row : dotfile_row)
    (snap : snapshot_row) (content : list byte) :
  in_int64 eid = true ->
  select_dotfile (w_db w) eid = Some row ->
  latest_snapshot (w_db w) eid = Some snap ->
  s_content_hash snap = Sha256.hexdigest content ->
  read_bytes (w_fs w) (d_source_path row) = None ->
  file_hash (w_fs w) (d_source_path row) = EmptyString /\
  cmd_diff P eid w = diff_changed P (row_to_entry row) snap w /\
  final (cmd_diff P eid w) = w /\
  (exists rest, reports (cmd_diff P eid w)
                  = WarnChanged (d_name row) (string_take 19 (s_saved_at snap)) :: rest) /\
  (forall old, Base64.b64decode (s_content_b64 snap) = Some old ->
     ended (cmd_diff P eid w) =
       match diff_u P old (w_fs w) (d_source_path row) with
       | Some _ => Returned
       | None => Raised SubprocessError
       end).
Proof.
  intros Hid Hrow Hlatest Hhash Hread.
  assert (Hempty : file_hash (w_fs w) (d_source_path row) = EmptyString).
  { unfold file_hash. rewrite Hread. reflexivity. }
  assert (Hdiff : cmd_diff P eid w = diff_changed P (row_to_entry row) snap w).
  { rewrite (cmd_diff_with_snapshot eid w row snap Hid Hrow Hlatest).
    rewrite Hempty, Hhash.
    destruct (String.eqb EmptyString (Sha256.hexdigest content)) eqn:E; [|reflexivity].
    apply String.eqb_eq in E. symmetry in E. destruct (hexdigest_nonempty _ E). }
  split; [exact Hempty|]. split; [exact Hdiff|]. rewrite Hdiff.
  destruct (diff_changed_warns (row_to_entry row) snap w) as (rest & Hrep & Hfin).
  split; [exact Hfin|]. split; [exists rest; exact Hrep|].
  intros old Hold.
  pose proof (diff_changed_cases (row_to_entry row) snap w) as H. cbv zeta in H.
  rewrite Hold in H. cbn [row_to_entry source_path name] in H.
  destruct (diff_u P old (w_fs w) (d_source_path row)) as [stdout|]; rewrite H; reflexivity.
Qed.

End Diff.

(** ** Export and import *)

Lemma insert_asc_perm (x : dotfile_row) (l : list dotfile_row) :
  Permutation (insert_asc x l) (x :: l).
Proof.
  induction l as [|y l IH]; simpl; [reflexivity|].
  destruct (row_leb x y); [reflexivity|].
  rewrite IH. apply perm_swap.
Qed.

Lemma order_by_category_name_perm (l : list dotfile_row) :
  Permutation (order_by_category_name l) l.
Proof.
  induction l as [|x l IH]; simpl; [reflexivity|].
  fold (order_by_category_name l). rewrite insert_asc_perm, IH. reflexivity.
Qed.

Section Manifest.
Variable P : platform.

(** The loop never stops early: it visits every item and counts at most
    one per item. *)
Lemma import_loop_counts (items : list json) (db : database) (n : nat) :
  exists db' k, import_loop P db n items = (db', n + k) /\ k <= length items.
Proof.
  revert db n. induction items as [|item items IH]; intros db n; simpl.
  - exists db, 0. split; [f_equal; lia|lia].
  - destruct (import_item P db item) as [db1|].
    + destruct (IH db1 (S n)) as (db' & k & -> & Hk). exists db', (S k).
      split; [f_equal; lia|lia].
    + destruct (IH db n) as (db' & k & -> & Hk). exists db', k. split; [reflexivity|lia].
Qed.

(** An item without one of the three required keys raises inside the [try]:
    it is skipped and the store is not touched by it. *)
Lemma import_item_missing_key (db : database) (item : json) :
  subscript item "name" = None \/ subscript item "source_path" = None
  \/ subscript item "target_path" = None ->
  import_item P db item = None.
Proof.
  unfold import_item. intros [H|[H|H]].
  - rewrite H. reflexivity.
  - destruct (subscript item "name"); [|reflexivity]. cbn [mbind option_bind].
    rewrite H. reflexivity.
  - destruct (subscript item "name"); [|reflexivity]. cbn [mbind option_bind].
    destruct (subscript item "source_path"); [|reflexivity]. cbn [mbind option_bind].
    rewrite H. reflexivity.
Qed.

(** The uniqueness of names holds in the fresh store and survives an
    import, whatever the document. *)
Lemma names_unique_empty : NoDup (names empty_db).
Proof. apply NoDup_nil_2. Qed.

Lemma import_item_unique (db db' : database) (item : json) :
  NoDup (names db) -> import_item P db item = Some db' -> NoDup (names db').
Proof.
  intros Hnd. unfold import_item. intros H.
  repeat match type of H with
         | (mbind _ ?o) = Some _ =>
             destruct o; cbn [mbind option_bind] in H; [|discriminate H]
         end.
  match type of H with
  | Some (match ?ins with _ => _ end) = Some _ => destruct ins eqn:E
  end; inversion H; subst; [|exact Hnd].
  eapply insert_dotfile_unique; eassumption.
Qed.

Lemma import_loop_unique (items : list json) (db : database) (n : nat) :
  NoDup (names db) -> NoDup (names (fst (import_loop P db n items))).
Proof.
  revert db n. induction items as [|item items IH]; intros db n Hnd; simpl; [exact Hnd|].
  destruct (import_item P db item) as [db1|] eqn:E.
  - apply IH. eapply import_item_unique; eassumption.
  - apply IH, Hnd.
Qed.

(** A manifest that is a list is always imported to the end. *)
Lemma import_list_returns (items : list json) (w : world) :
  exists k, k <= length items /\
    ended (cmd_import_manifest P (JArr items) w) = Returned /\
    reports (cmd_import_manifest P (JArr items) w) = [OkImported k (length items)].
Proof.
  unfold cmd_import_manifest. cbn [iter_items].
  destruct (import_loop_counts items (w_db w) 0) as (db' & k & -> & Hk).
  exists k. auto.
Qed.




End Manifest.

(** C3, at a failing input.  The manifest lists the same dotfile twice and
    the store is empty.  The loop runs to the end and the second item is
    ignored by [INSERT OR IGNORE], yet the counter is raised for it as
    well: the command prints "Imported 2/2" while one entry was inserted. *)
Theorem import_counts_ignored_duplicate :
  ended (cmd_import_manifest Sample.host Sample.manifest_twice Sample.w0) = Returned /\
  reports (cmd_import_manifest Sample.host Sample.manifest_twice Sample.w0)
    = [OkImported 2 2] /\
  length (dotfiles (w_db Sample.w0)) = 0 /\
  length (dotfiles (w_db (final (cmd_import_manifest Sample.host Sample.manifest_twice
                                   Sample.w0)))) = 1.
Proof. repeat split; vm_compute; reflexivity. Qed.

(** ** The properties at sample inputs *)

Section Instances.
Import Sample.
Local Open Scope string_scope.

(** C4 as the specification words it, for every entry whose source exists
    at the first call, fails: an entry registered with its own source as
    target is linked to itself by the first call, after which the source no
    longer resolves and the second call reports a missing source.  It also
    fails when the source is there before and after the first call: with a
    target below a regular file [mkdir] raises, at the first call and at
    the second, and nothing is printed. *)
Lemma link_twice_self_target :
  ~ (forall (P : platform) (eid : Z) (w : world) (row : dotfile_row),
       in_int64 eid = true ->
       select_dotfile (w_db w) eid = Some row ->
       path_exists (w_fs w) (path_str P (d_source_path row)) = true ->
       reports (cmd_link P eid (final (cmd_link P eid w)))
         = [OkAlreadyLinked (path_str P (d_target_path row))]) /\
  ~ (forall (P : platform) (eid : Z) (w : world) (row : dotfile_row),
       in_int64 eid = true ->
       select_dotfile (w_db w) eid = Some row ->
       path_exists (w_fs w) (path_str P (d_source_path row)) = true ->
       path_exists (w_fs (final (cmd_link P eid w))) (path_str P (d_source_path row)) = true ->
       reports (cmd_link P eid (final (cmd_link P eid w)))
         = [OkAlreadyLinked (path_str P (d_target_path row))]).
Proof.
  split.
  - intros H. specialize (H host 1%Z w_self row_self).
    assert (E : reports (cmd_link host 1 (final (cmd_link host 1 w_self)))
                = [ErrSourceMissing "/tmp/zshrc_source"]) by (vm_compute; reflexivity).
    rewrite E in H.
    assert (A : [ErrSourceMissing "/tmp/zshrc_source"]
                = [OkAlreadyLinked (path_str host (d_target_path row_self))]).
    { apply H; vm_compute; reflexivity. }
    discriminate A.
  - intros H. specialize (H host 1%Z w_blocked row_blocked).
    assert (E : cmd_link host 1 w_blocked = raises [] OSError w_blocked)
      by (vm_compute; reflexivity).
    rewrite E in H. cbn [final raises] in H. rewrite E in H. cbn [reports raises] in H.
    assert (A : [] = [OkAlreadyLinked (path_str host (d_target_path row_blocked))]).
    { apply H; vm_compute; reflexivity. }
    discriminate A.
Qed.

Lemma link_twice_already_linked_witness :
  path_exists (w_fs w1) "/tmp/zshrc_source" = true /\
  ended (cmd_link host 1 w1) = Returned /\
  path_exists (w_fs (final (cmd_link host 1 w1))) "/tmp/zshrc_source" = true /\
  w_fs (final (cmd_link host 1 w1)) !! "/tmp/.zshrc" = Some (Symlink "/tmp/zshrc_source") /\
  cmd_link host 1 (final (cmd_link host 1 w1))
    = returns [OkAlreadyLinked "/tmp/.zshrc"] (final (cmd_link host 1 w1)).
Proof.
  assert (H1 : path_exists (w_fs w1) "/tmp/zshrc_source" = true) by (vm_compute; reflexivity).
  assert (H2 : ended (cmd_link host 1 w1) = Returned) by (vm_compute; reflexivity).
  assert (H3 : path_exists (w_fs (final (cmd_link host 1 w1))) "/tmp/zshrc_source" = true)
    by (vm_compute; reflexivity).
  split; [exact H1|]. split; [exact H2|]. split; [exact H3|].
  apply (link_twice_already_linked host 1 w1 row_zshrc);
    [vm_compute; reflexivity | vm_compute; reflexivity | exact H1 | exact H2 | exact H3].
Defined.


Lemma link_missing_source_witness :
  path_exists (w_fs w_gone) "/tmp/gone" = false /\
  cmd_link host 1 w_gone = returns [ErrSourceMissing "/tmp/gone"] w_gone.
Proof.
  split; [vm_compute; reflexivity|].
  apply (link_missing_source_no_mutation host 1 w_gone row_gone); vm_compute; reflexivity.
Defined.

(** C2 as the specification words it fails on a disk where
    [<source>.pre-restore] is a link to the source: [shutil.copy2] raises
    [SameFileError], [cmd_restore] ends with it before it writes, and the
    source keeps the bytes it was overwritten with. *)
Lemma restore_stopped_by_linked_copy :
  read_bytes (w_fs w_trap) "/tmp/zshrc_source" = Some zshrc_v1 /\
  map s_id (snapshots (w_db w_trap_saved)) = [1%Z] /\
  write_bytes (w_fs w_trap_saved) "/tmp/zshrc_source" zshrc_v2 = Some (w_fs w_trap_changed) /\
  ended (cmd_restore host 1 1 w_trap_changed) = Raised OSError /\
  read_bytes (w_fs (final (cmd_restore host 1 1 w_trap_changed))) "/tmp/zshrc_source"
    = Some zshrc_v2 /\
  zshrc_v2 <> zshrc_v1.
Proof.
  repeat split; try (vm_compute; reflexivity). discriminate.
Qed.

Lemma backup_overwrite_restore_witness :
  exists snap fs2,
    snapshots (w_db (final (cmd_backup host "2024-05-01T10:00:00" 1 None w2))) = [snap] /\
    write_bytes (w_fs w2) "/tmp/zshrc_source" zshrc_v2 = Some fs2 /\
    read_bytes fs2 "/tmp/zshrc_source" = Some zshrc_v2 /\
    copy2 fs2 "/tmp/zshrc_source" "/tmp/zshrc_source.pre-restore"
      = Some (<["/tmp/zshrc_source.pre-restore" := File zshrc_v2]> fs2) /\
    read_bytes
      (w_fs (final (cmd_restore host 1 (s_id snap)
                      (set_fs (final (cmd_backup host "2024-05-01T10:00:00" 1 None w2)) fs2))))
      "/tmp/zshrc_source" = Some zshrc_v1.
Proof.
  destruct (backup_overwrite_restore host "2024-05-01T10:00:00" None 1 w2 row_zshrc
              zshrc_v1 zshrc_v2)
    as (snap & fs2 & _ & _ & Hs & _ & Hw & Ho & Hr);
    [vm_compute; reflexivity | vm_compute; reflexivity | vm_compute; reflexivity
    | vm_compute; reflexivity |].
  exists snap, fs2. split; [exact Hs|]. split; [exact Hw|]. split; [exact Ho|].
  assert (Hc : copy2 fs2 "/tmp/zshrc_source" "/tmp/zshrc_source.pre-restore"
               = Some (<["/tmp/zshrc_source.pre-restore" := File zshrc_v2]> fs2)).
  { assert (E : Some fs2 = Some (<["/tmp/zshrc_source" := File zshrc_v2]> (w_fs w2)))
      by (rewrite <- Hw; vm_compute; reflexivity).
    injection E as ->. vm_compute. reflexivity. }
  split; [exact Hc|].
  cbv zeta in Hr.
  change (path_str host (d_source_path row_zshrc)) with "/tmp/zshrc_source" in Hr.
  change ("/tmp/zshrc_source" +:+ ".pre-restore") with "/tmp/zshrc_source.pre-restore" in Hr.
  rewrite Hc in Hr. exact (proj2 Hr).
Defined.

(** C5 as the specification words it fails for a source that does not
    expand: the name is taken and the category is a valid one, yet the
    command ends with [RuntimeError] and prints no "already registered". *)
Lemma register_duplicate_unexpanded :
  In "zshrc" (names (w_db w1)) /\
  In "shell" CATEGORIES /\
  cmd_register host "zshrc" "~nosuchuser/zshrc" "/tmp/.zshrc" "shell" None false w1
    = raises [] RuntimeError w1.
Proof.
  split; [vm_compute; auto|]. split; [vm_compute; auto|]. vm_compute. reflexivity.
Qed.

Lemma register_duplicate_name_witness :
  In "zshrc" (names (w_db w1)) /\
  count_occ string_dec
    (names (w_db (final (cmd_register host "zshrc" "/tmp/other" "/tmp/.other" "tool"
                           None false w1)))) "zshrc" = 1 /\
  cmd_register host "zshrc" "/tmp/other" "/tmp/.other" "tool" None false w1
    = returns [ErrAlreadyRegistered "zshrc"] w1.
Proof.
  assert (Hin : In "zshrc" (names (w_db w1))) by (vm_compute; auto).
  split; [exact Hin|].
  apply (register_duplicate_name host "zshrc" "/tmp/other" "/tmp/.other" "tool" None false w1).
  - vm_compute. apply NoDup_singleton.
  - exact Hin.
  - vm_compute. auto 10.
Defined.

(** C6 as the specification words it fails at a tie: entry 1 has two
    snapshots with the same [saved_at], the second one, inserted last, taken
    of the file as it is now.  [cmd_diff] compares with the first one and
    reports a change. *)
Lemma diff_tie_takes_first_inserted :
  map s_id (snapshots_of (w_db w_tie) 1) = [1%Z; 2%Z] /\
  map s_saved_at (snapshots_of (w_db w_tie) 1)
    = ["2024-05-01T10:00:00.000001"; "2024-05-01T10:00:00.000001"] /\
  (exists snap, select_snapshot (w_db w_tie) 2 = Some snap /\
                file_hash (w_fs w_tie) "/tmp/zshrc_source" = s_content_hash snap) /\
  reports (cmd_diff host 1 w_tie)
    = [WarnChanged "zshrc" "2024-05-01T10:00:00"; Printed "--- old"].
Proof.
  split; [vm_compute; reflexivity|]. split; [vm_compute; reflexivity|].
  split; [eexists; split; vm_compute; reflexivity|].
  vm_compute. reflexivity.
Qed.

Lemma diff_against_latest_witness :
  exists snap,
    s_entry_id snap = 1%Z /\
    latest_snapshot (w_db w3) 1 = Some snap /\
    (reports (cmd_diff host 1 w3) = [OkNoChanges "zshrc"]
     <-> file_hash (w_fs w3) "/tmp/zshrc_source" = s_content_hash snap).
Proof.
  destruct (diff_against_latest host 1 w3 row_zshrc)
    as (before & snap & after & _ & He & Hl & _ & _ & _ & Hiff & _);
    [vm_compute; reflexivity | vm_compute; reflexivity
    | exists snap1; split; [vm_compute; auto|reflexivity] |].
  exists snap. split; [exact He|]. split; [exact Hl|exact Hiff].
Defined.

Lemma diff_unreadable_source_witness :
  read_bytes (w_fs w_lost) "/tmp/zshrc_source" = None /\
  latest_snapshot (w_db w_lost) 1 = Some snap1 /\
  cmd_diff host 1 w_lost = diff_changed host (row_to_entry row_zshrc) snap1 w_lost /\
  (exists rest, reports (cmd_diff host 1 w_lost)
                  = WarnChanged "zshrc" "2024-05-01T10:00:00" :: rest).
Proof.
  assert (H1 : read_bytes (w_fs w_lost) "/tmp/zshrc_source" = None)
    by (vm_compute; reflexivity).
  assert (H2 : latest_snapshot (w_db w_lost) 1 = Some snap1) by (vm_compute; reflexivity).
  split; [exact H1|]. split; [exact H2|].
  destruct (diff_unreadable_source host 1 w_lost row_zshrc snap1 zshrc_v1)
    as (_ & Hd & _ & Hw & _);
    [vm_compute; reflexivity | vm_compute; reflexivity | exact H2 | reflexivity | exact H1 |].
  split; [exact Hd|exact Hw].
Defined.


End Instances.

(* ===================================================================== *)
(** * Part III: further properties of the commands *)
(* ===================================================================== *)

(** ** Path texts *)

Lemma string_append_cons (c : ascii) (s t : string) :
  String c s +:+ t = String c (s +:+ t).
Proof. reflexivity. Qed.

Lemma string_append_nil (s : string) : s +:+ EmptyString = s.
Proof.
  induction s as [|c s IH]; [reflexivity|]. rewrite string_append_cons, IH. reflexivity.
Qed.

Lemma string_append_assoc (a b c : string) : (a +:+ b) +:+ c = a +:+ (b +:+ c).
Proof.
  induction a as [|x a IH]; [reflexivity|]. rewrite !string_append_cons, IH. reflexivity.
Qed.

Lemma string_append_inj (a r r' : string) : a +:+ r = a +:+ r' -> r = r'.
Proof.
  induction a as [|x a IH]; [auto|]. rewrite !string_append_cons. intros H.
  inversion H. auto.
Qed.

Lemma prefix_append (a r : string) : String.prefix a (a +:+ r) = true.
Proof.
  induction a as [|x a IH]; [destruct r; reflexivity|]. rewrite string_append_cons.
  cbn [String.prefix]. destruct (ascii_dec x x); [exact IH|congruence].
Qed.

Lemma prefix_inv (a k : string) : String.prefix a k = true -> exists r, k = a +:+ r.
Proof.
  revert k. induction a as [|x a IH]; intros k.
  - intros _. exists k. reflexivity.
  - destruct k as [|y k]; [discriminate|]. cbn [String.prefix].
    destruct (ascii_dec x y) as [<-|]; [|discriminate].
    intros H. destruct (IH _ H) as [r ->]. exists r. reflexivity.
Qed.

Lemma string_drop_append (a r : string) : string_drop (String.length a) (a +:+ r) = r.
Proof.
  induction a as [|x a IH]; [destruct r; reflexivity|].
  rewrite string_append_cons. exact IH.
Qed.

Lemma ends_with_sep_append (a : string) (c : ascii) (r : string) :
  ends_with_sep (a +:+ String c r) = ends_with_sep (String c r).
Proof.
  induction a as [|x a IH]; [reflexivity|].
  change (String x a +:+ String c r) with (String x (a +:+ String c r)).
  cbn [ends_with_sep]. destruct (a +:+ String c r) eqn:E; [|exact IH].
  destruct a; discriminate.
Qed.

(** What lies at or inside a directory, once the directory is renamed, lies
    at or inside the new name. *)
Lemma inside_slash (d r : string) :
  ends_with_sep d = false -> inside d (d +:+ "/" +:+ r) = true.
Proof.
  intros Hd. unfold inside. rewrite Hd.
  rewrite <- string_append_assoc, prefix_append, andb_true_r.
  apply negb_true_iff, String.eqb_neq. rewrite string_append_assoc.
  apply append_longer. discriminate.
Qed.

Lemma at_or_inside_cases (d k : string) :
  ends_with_sep d = false -> at_or_inside d k = true ->
  k = d \/ exists r, k = d +:+ "/" +:+ r.
Proof.
  intros Hd. unfold at_or_inside, inside. rewrite Hd.
  destruct (String.eqb k d) eqn:E; [apply String.eqb_eq in E; auto|].
  cbn [orb negb andb]. intros H. right.
  destruct (prefix_inv _ _ H) as [r ->]. exists r. apply string_append_assoc.
Qed.

Lemma at_or_inside_renamed (src dst k : string) :
  ends_with_sep src = false -> at_or_inside src k = true ->
  at_or_inside dst (dst +:+ string_drop (String.length src) k) = true.
Proof.
  intros Hs Hk. destruct (at_or_inside_cases _ _ Hs Hk) as [->|[r ->]].
  - replace (string_drop (String.length src) src) with EmptyString.
    + rewrite string_append_nil. unfold at_or_inside. rewrite String.eqb_refl. reflexivity.
    + rewrite <- (string_append_nil src) at 2. rewrite string_drop_append. reflexivity.
  - rewrite string_drop_append. unfold at_or_inside, inside.
    assert (Hne : (dst +:+ "/" +:+ r =? dst)%string = false).
    { apply String.eqb_neq, append_longer. discriminate. }
    rewrite Hne. cbn [orb negb andb].
    destruct (ends_with_sep dst).
    + apply prefix_append.
    + rewrite <- string_append_assoc. apply prefix_append.
Qed.

Lemma string_drop_renamed (src k : string) :
  ends_with_sep src = false -> at_or_inside src k = true ->
  k = src +:+ string_drop (String.length src) k.
Proof.
  intros Hs Hk. destruct (at_or_inside_cases _ _ Hs Hk) as [->|[r ->]].
  - replace (string_drop (String.length src) src) with EmptyString.
    + symmetry. apply string_append_nil.
    + rewrite <- (string_append_nil src) at 2. rewrite string_drop_append. reflexivity.
  - rewrite string_drop_append. reflexivity.
Qed.

(** ** The directory of a path *)

Lemma slash_prefixes_shorter (rest seen x : string) :
  In x (slash_prefixes seen rest) -> String.length x < String.length seen + String.length rest.
Proof.
  revert seen. induction rest as [|c r IH]; intros seen; simpl; [tauto|].
  intros Hin. apply in_app_or in Hin as [Hin|Hin].
  - destruct (Ascii.eqb c "/"); [|destruct Hin].
    destruct r as [|c' r']; [destruct Hin|].
    destruct Hin as [<-|[]]. destruct seen; simpl; lia.
  - apply IH in Hin. rewrite string_length_append in Hin. simpl in Hin. lia.
Qed.

Lemma inside_longer (d k : string) : inside d k = true -> String.length d < String.length k.
Proof.
  unfold inside. intros H. apply andb_prop in H as [Hne Hp].
  apply negb_true_iff, String.eqb_neq in Hne.
  destruct (prefix_inv _ _ Hp) as [r ->]. rewrite string_length_append.
  destruct (ends_with_sep d).
  - destruct r; [rewrite string_append_nil in Hne; congruence|simpl; lia].
  - rewrite string_length_append. simpl. lia.
Qed.

(** The parent of a path that is not an anchor is another, shorter path. *)
Lemma path_parent_proper (t : string) :
  t <> EmptyString -> ends_with_sep t = false -> dot_name t = false ->
  path_parent t <> t /\ String.length (path_parent t) <= String.length t.
Proof.
  intros Ht Hsep Hdot. unfold path_parent, path_parents.
  destruct (rev (slash_prefixes EmptyString t)) as [|x l] eqn:E.
  - cbn [app]. destruct (is_absolute t || String.eqb t ".") eqn:A.
    + exfalso. apply orb_prop in A as [A|A].
      * destruct t as [|c r]; [discriminate|]. cbn in A.
        destruct r as [|c' r'].
        { cbn in Hsep. congruence. }
        { apply (f_equal (@rev string)) in E. rewrite rev_involutive in E.
          cbn in E. rewrite A in E. discriminate. }
      * apply String.eqb_eq in A. subst. discriminate.
    + split; [|destruct t; [congruence|simpl; lia]].
      intros <-. discriminate.
  - cbn [app].
    assert (Hin : In x (slash_prefixes EmptyString t)).
    { apply in_rev. rewrite E. left. reflexivity. }
    apply slash_prefixes_shorter in Hin. simpl in Hin.
    split; [intros ->; lia|lia].
Qed.

Lemma path_parent_outside (t : string) :
  ends_with_sep t = false -> dot_name t = false ->
  at_or_inside t (path_parent t) = false /\
  at_or_inside (t +:+ ".bak") (path_parent t) = false.
Proof.
  intros Hsep Hdot. destruct (String.eqb t EmptyString) eqn:E.
  - apply String.eqb_eq in E. subst. split; reflexivity.
  - apply String.eqb_neq in E.
    destruct (path_parent_proper t E Hsep Hdot) as [Hne Hlen].
    assert (Hbak : String.length (t +:+ ".bak") = String.length t + 4)
      by (rewrite string_length_append; reflexivity).
    unfold at_or_inside. split; apply orb_false_intro.
    + apply String.eqb_neq, Hne.
    + destruct (inside t (path_parent t)) eqn:I; [|reflexivity].
      apply inside_longer in I. lia.
    + apply String.eqb_neq. intros H. rewrite H in Hlen. lia.
    + destruct (inside (t +:+ ".bak") (path_parent t)) eqn:I; [|reflexivity].
      apply inside_longer in I. lia.
Qed.

(** ** Renaming a directory *)

Section Carry.
Implicit Types (fs : filesystem) (src dst k : string) (n : node).

Lemma carry_entries fs src dst k n :
  (k, n) ∈ omap (fun kv : string * node =>
                   if at_or_inside src kv.1
                   then Some (dst +:+ string_drop (String.length src) kv.1, kv.2)
                   else None) (map_to_list fs) <->
  exists k', fs !! k' = Some n /\ at_or_inside src k' = true /\
             k = dst +:+ string_drop (String.length src) k'.
Proof.
  rewrite list_elem_of_omap. split.
  - intros ([k' n'] & Hin & Hf). cbn [fst snd] in Hf.
    destruct (at_or_inside src k') eqn:E; [|discriminate].
    inversion Hf; subst. exists k'. apply elem_of_map_to_list in Hin. auto.
  - intros (k' & Hk' & E & ->). exists (k', n). split; [apply elem_of_map_to_list, Hk'|].
    cbn [fst snd]. rewrite E. reflexivity.
Qed.

(** What is neither at or inside the old name nor at or inside the new one
    stays as it is. *)
Lemma carry_frame fs src dst k :
  ends_with_sep src = false ->
  at_or_inside src k = false -> at_or_inside dst k = false ->
  carry fs src dst !! k = fs !! k.
Proof.
  intros Hs Hk1 Hk2. unfold carry.
  rewrite lookup_union_r.
  - destruct (fs !! k) as [n|] eqn:E.
    + apply map_lookup_filter_Some. split; [exact E|]. cbn [fst]. auto.
    + apply map_lookup_filter_None. left. exact E.
  - apply not_elem_of_list_to_map_1. intros Hin.
    apply list_elem_of_fmap in Hin as ([k0 n] & -> & Hin). cbn [fst] in Hk2.
    apply carry_entries in Hin as (k' & _ & E & ->).
    rewrite (at_or_inside_renamed _ dst _ Hs E) in Hk2. discriminate.
Qed.

(** The new name holds what the old name held, and so does every path
    inside it. *)
Lemma carry_moved fs src dst (r : string) :
  ends_with_sep src = false ->
  at_or_inside src (src +:+ r) = true ->
  carry fs src dst !! (dst +:+ r) = fs !! (src +:+ r).
Proof.
  intros Hs Hr. unfold carry.
  assert (Hkey : forall n, (dst +:+ r, n) ∈
                   omap (fun kv : string * node =>
                           if at_or_inside src kv.1
                           then Some (dst +:+ string_drop (String.length src) kv.1, kv.2)
                           else None) (map_to_list fs) <-> fs !! (src +:+ r) = Some n).
  { intros n. rewrite carry_entries. split.
    - intros (k' & Hk' & E & Heq). apply string_append_inj in Heq.
      rewrite (string_drop_renamed _ _ Hs E), <- Heq in Hk'. exact Hk'.
    - intros H. exists (src +:+ r). split; [exact H|]. split; [exact Hr|].
      rewrite string_drop_append. reflexivity. }
  destruct (fs !! (src +:+ r)) as [n|] eqn:E.
  - apply lookup_union_Some_l. apply elem_of_list_to_map_1'.
    + intros n' Hn'. apply Hkey in Hn'. congruence.
    + apply Hkey. reflexivity.
  - apply lookup_union_None. split.
    + apply not_elem_of_list_to_map_1. intros Hin.
      apply list_elem_of_fmap in Hin as ([k0 n] & Hk0 & Hin). cbn [fst] in Hk0. subst k0.
      apply Hkey in Hin. discriminate.
    + apply map_lookup_filter_None. right. intros n _ [_ H]. cbn [fst] in H.
      assert (T : at_or_inside dst (dst +:+ r) = true).
      { replace r with (string_drop (String.length src) (src +:+ r))
          by apply string_drop_append.
        apply at_or_inside_renamed; assumption. }
      congruence.
Qed.

(** Nothing is left at or inside the old name. *)
Lemma carry_gone fs src dst k :
  ends_with_sep src = false ->
  at_or_inside src k = true -> at_or_inside dst k = false ->
  carry fs src dst !! k = None.
Proof.
  intros Hs Hk1 Hk2. unfold carry. apply lookup_union_None. split.
  - apply not_elem_of_list_to_map_1. intros Hin.
    apply list_elem_of_fmap in Hin as ([k0 n] & -> & Hin). cbn [fst] in Hk2.
    apply carry_entries in Hin as (k' & _ & E & ->).
    rewrite (at_or_inside_renamed _ dst _ Hs E) in Hk2. discriminate.
  - apply map_lookup_filter_None. right. intros n _ [H _]. cbn [fst] in H. congruence.
Qed.

End Carry.

(** ** Linking: what [cmd_link] does and what it leaves alone *)

Section LinkMore.
Variable P : platform.
Implicit Types (w : world) (row : dotfile_row) (fs : filesystem) (k : string) (n : node).

Lemma open_target_unfold fs (p : string) :
  open_target MAXSYMLINKS fs p =
    match fs !! p with
    | Some (Symlink t) => open_target (pred MAXSYMLINKS) fs t
    | Some Dir => None
    | Some (File _) => Some p
    | None => if is_dir fs (path_parent p) then Some p else None
    end.
Proof. reflexivity. Qed.

Lemma present_exists_or_symlink fs (p : string) n :
  fs !! p = Some n -> path_exists fs p || is_symlink fs p = true.
Proof.
  intros H. unfold path_exists, is_symlink. rewrite stat_unfold, H.
  destruct n; [reflexivity|reflexivity|apply orb_true_r].
Qed.

Lemma not_linked_test fs (p source : string) n :
  fs !! p = Some n -> n <> Symlink source ->
  is_symlink fs p && bool_decide (readlink fs p = Some source) = false.
Proof.
  intros H Hn. unfold is_symlink, readlink. rewrite H.
  destruct n as [c| |t]; try reflexivity.
  rewrite bool_decide_eq_false_2; [reflexivity|]. intros E. inversion E. congruence.
Qed.

Lemma is_dir_node fs (p : string) : fs !! p = Some Dir -> is_dir fs p = true.
Proof. intros H. unfold is_dir. rewrite stat_unfold, H. reflexivity. Qed.








Lemma bak_no_sep (t : string) : ends_with_sep (t +:+ ".bak") = false.
Proof. rewrite ends_with_sep_append. reflexivity. Qed.

(** X1. Whatever its arguments, [cmd_link] leaves the store as it was, and
    it ends in one of three ways: it returns, or it raises [OSError] (from
    [mkdir], [shutil.move] or [os.symlink]), or it raises [OverflowError]
    (an id beyond 64 bits), and then nothing was done. *)
Theorem link_keeps_store (eid : Z) w :
  w_db (final (cmd_link P eid w)) = w_db w /\
  (ended (cmd_link P eid w) = Returned \/
   ended (cmd_link P eid w) = Raised OSError \/
   cmd_link P eid w = raises [] OverflowError w /\ in_int64 eid = false).
Proof.
  unfold cmd_link.
  destruct (in_int64 eid); cbn [negb]; [|cbn; auto].
  destruct (select_dotfile (w_db w) eid) as [row|]; [|cbn; auto].
  destruct (negb (path_exists (w_fs w) _)); [cbn; auto|].
  destruct (mkdir_parents (w_fs w) _) as [fs1|]; [|cbn; auto].
  destruct (path_exists fs1 _ || is_symlink fs1 _).
  - destruct (is_symlink fs1 _ && _); [cbn; auto|].
    destruct (move fs1 _ _) as [fs2|]; [|cbn; auto].
    destruct (os_symlink fs2 _ _); cbn; auto.
  - destruct (os_symlink fs1 _ _); cbn; auto.
Qed.



(** X3. When a regular file or a link other than the wanted one is at the
    target, in a directory, and [<target>.bak] is not a directory,
    [cmd_link] renames what is there to [<target>.bak], over whatever was
    there, puts the link in place and prints the backup warning before the
    success line; nothing else changes. *)
Theorem link_displaces_target (eid : Z) w row n :
  in_int64 eid = true ->
  select_dotfile (w_db w) eid = Some row ->
  path_exists (w_fs w) (path_str P (d_source_path row)) = true ->
  w_fs w !! path_parent (path_str P (d_target_path row)) = Some Dir ->
  w_fs w !! path_str P (d_target_path row) = Some n ->
  n <> Dir ->
  n <> Symlink (path_str P (d_source_path row)) ->
  dot_name (path_str P (d_target_path row)) = false ->
  is_dir (w_fs w) (path_str P (d_target_path row) +:+ ".bak") = false ->
  cmd_link P eid w =
    returns [WarnBackedUp (path_str P (d_target_path row) +:+ ".bak");
             OkLinked (path_str P (d_target_path row)) (path_str P (d_source_path row))]
      (set_fs w (<[path_str P (d_target_path row) := Symlink (path_str P (d_source_path row))]>
                   (<[path_str P (d_target_path row) +:+ ".bak" := n]>
                      (delete (path_str P (d_target_path row)) (w_fs w))))).
Proof.
  intros Hid Hrow Hsrc Hpar Hn Hnd Hne Hdot Hbak. unfold cmd_link.
  rewrite Hid, Hrow. cbn [negb row_to_entry source_path target_path].
  set (source := path_str P (d_source_path row)) in *.
  set (target := path_str P (d_target_path row)) in *.
  rewrite Hsrc. cbn [negb].
  unfold mkdir_parents. rewrite (mkdir_chain_noop _ _ _ (is_dir_node _ _ Hpar)).
  rewrite (present_exists_or_symlink _ _ _ Hn), (not_linked_test _ _ _ _ Hn Hne).
  assert (Hne1 : target +:+ ".bak" <> target) by (apply append_longer; discriminate).
  assert (Hpt : path_parent target <> target) by congruence.
  assert (Hpb : path_parent target <> target +:+ ".bak").
  { intros E. rewrite E in Hpar. rewrite (is_dir_node _ _ Hpar) in Hbak. discriminate. }
  assert (Hmv : move (w_fs w) target (target +:+ ".bak")
                = Some (<[target +:+ ".bak" := n]> (delete target (w_fs w)))).
  { unfold move. rewrite Hbak. unfold os_rename. rewrite Hn, Hdot.
    rewrite (proj2 (String.eqb_neq _ _)) by congruence.
    assert (Hb : w_fs w !! (target +:+ ".bak") <> Some Dir).
    { intros E. rewrite (is_dir_node _ _ E) in Hbak. discriminate. }
    destruct n as [c| |t]; [|congruence|];
      destruct (w_fs w !! (target +:+ ".bak")) as [[c'| |t']|]; congruence. }
  rewrite Hmv. unfold os_symlink.
  rewrite lookup_insert_ne by exact Hne1. rewrite lookup_delete_eq.
  rewrite is_dir_node; [reflexivity|].
  rewrite lookup_insert_ne by congruence. rewrite lookup_delete_ne by congruence. exact Hpar.
Qed.


(** X25. With an existing source, a target path that holds nothing and a
    directory to put it in, [cmd_link] creates the link and nothing else,
    prints the success line and returns. *)
Theorem link_fresh_target (eid : Z) w row :
  in_int64 eid = true ->
  select_dotfile (w_db w) eid = Some row ->
  path_exists (w_fs w) (path_str P (d_source_path row)) = true ->
  is_dir (w_fs w) (path_parent (path_str P (d_target_path row))) = true ->
  w_fs w !! path_str P (d_target_path row) = None ->
  cmd_link P eid w =
    returns [OkLinked (path_str P (d_target_path row)) (path_str P (d_source_path row))]
      (set_fs w (<[path_str P (d_target_path row) := Symlink (path_str P (d_source_path row))]>
                   (w_fs w))).
Proof.
  intros Hid Hrow Hsrc Hdir Hn. unfold cmd_link.
  rewrite Hid, Hrow. cbn [negb row_to_entry source_path target_path].
  rewrite Hsrc. cbn [negb].
  unfold mkdir_parents. rewrite (mkdir_chain_noop _ _ _ Hdir).
  unfold path_exists, is_symlink. rewrite stat_unfold, Hn. cbn [orb].
  unfold os_symlink. rewrite Hn, Hdir. reflexivity.
Qed.

End LinkMore.

Section LinkDirectory.
Variable P : platform.
Implicit Types (w : world) (row : dotfile_row) (fs : filesystem).

(** X26. When the target is a directory (not an anchor), in a directory,
    and [<target>.bak] is a free name, [cmd_link] renames the directory to
    [<target>.bak] with everything inside it, puts the link in place and
    prints the backup warning before the success line: what was at
    [<target>/r] is at [<target>.bak/r], and the target is the link. *)
Theorem link_displaces_directory (eid : Z) w row :
  in_int64 eid = true ->
  select_dotfile (w_db w) eid = Some row ->
  path_exists (w_fs w) (path_str P (d_source_path row)) = true ->
  w_fs w !! path_parent (path_str P (d_target_path row)) = Some Dir ->
  w_fs w !! path_str P (d_target_path row) = Some Dir ->
  ends_with_sep (path_str P (d_target_path row)) = false ->
  dot_name (path_str P (d_target_path row)) = false ->
  w_fs w !! (path_str P (d_target_path row) +:+ ".bak") = None ->
  reports (cmd_link P eid w)
    = [WarnBackedUp (path_str P (d_target_path row) +:+ ".bak");
       OkLinked (path_str P (d_target_path row)) (path_str P (d_source_path row))] /\
  ended (cmd_link P eid w) = Returned /\
  w_fs (final (cmd_link P eid w)) !! path_str P (d_target_path row)
    = Some (Symlink (path_str P (d_source_path row))) /\
  w_fs (final (cmd_link P eid w)) !! (path_str P (d_target_path row) +:+ ".bak") = Some Dir /\
  (forall r,
     w_fs (final (cmd_link P eid w)) !! (path_str P (d_target_path row) +:+ ".bak/" +:+ r)
       = w_fs w !! (path_str P (d_target_path row) +:+ "/" +:+ r)).
Proof.
  intros Hid Hrow Hsrc Hpar Hn Hsep Hdot Hbak. unfold cmd_link.
  rewrite Hid, Hrow. cbn [negb row_to_entry source_path target_path].
  set (source := path_str P (d_source_path row)) in *.
  set (target := path_str P (d_target_path row)) in *.
  rewrite Hsrc. cbn [negb].
  unfold mkdir_parents. rewrite (mkdir_chain_noop _ _ _ (is_dir_node _ _ Hpar)).
  rewrite (present_exists_or_symlink _ _ _ Hn).
  rewrite (not_linked_test _ _ source _ Hn) by discriminate.
  destruct (path_parent_outside target Hsep Hdot) as [Ho1 Ho2].
  assert (Hne1 : target +:+ ".bak" <> target) by (apply append_longer; discriminate).
  assert (Hin : inside target (target +:+ ".bak") = false).
  { destruct (inside target (target +:+ ".bak")) eqn:I; [|reflexivity].
    unfold inside in I. rewrite Hsep in I. apply andb_prop in I as [_ I].
    destruct (prefix_inv _ _ I) as [r Hr]. rewrite string_append_assoc in Hr.
    apply string_append_inj in Hr. discriminate. }
  assert (Hmv : move (w_fs w) target (target +:+ ".bak")
                = Some (carry (w_fs w) target (target +:+ ".bak"))).
  { unfold move, is_dir. rewrite stat_unfold, Hbak. unfold os_rename. rewrite Hn, Hdot, Hbak.
    rewrite (proj2 (String.eqb_neq _ _)) by congruence. rewrite Hin. reflexivity. }
  rewrite Hmv.
  set (fs2 := carry (w_fs w) target (target +:+ ".bak")).
  assert (Hat : forall r, at_or_inside target (target +:+ "/" +:+ r) = true).
  { intros r. unfold at_or_inside. rewrite inside_slash by exact Hsep. apply orb_true_r. }
  assert (Hgone : forall k, at_or_inside target k = true -> fs2 !! k = None).
  { intros k Hk. apply carry_gone; [exact Hsep|exact Hk|].
    destruct (at_or_inside (target +:+ ".bak") k) eqn:B; [|reflexivity]. exfalso.
    destruct (at_or_inside_cases _ _ (bak_no_sep target) B) as [E|[r' E]];
      destruct (at_or_inside_cases _ _ Hsep Hk) as [->|[r ->]].
    - congruence.
    - apply string_append_inj in E. discriminate.
    - apply (f_equal String.length) in E. rewrite !string_length_append in E.
      simpl in E. lia.
    - rewrite string_append_assoc in E. apply string_append_inj in E. discriminate. }
  assert (Ht2 : fs2 !! target = None).
  { apply Hgone. unfold at_or_inside. rewrite String.eqb_refl. reflexivity. }
  assert (Hp2 : fs2 !! path_parent target = Some Dir).
  { unfold fs2. rewrite carry_frame by assumption. exact Hpar. }
  unfold os_symlink. rewrite Ht2, (is_dir_node _ _ Hp2).
  cbn [reports ended final returns w_fs set_fs app].
  split; [reflexivity|]. split; [reflexivity|]. split; [apply lookup_insert_eq|].
  split.
  - rewrite lookup_insert_ne by congruence. unfold fs2.
    pose proof (carry_moved (w_fs w) target (target +:+ ".bak") EmptyString Hsep) as Hc.
    rewrite !string_append_nil in Hc. rewrite Hc; [exact Hn|].
    unfold at_or_inside. rewrite String.eqb_refl. reflexivity.
  - intros r. rewrite lookup_insert_ne.
    + unfold fs2.
      replace (target +:+ ".bak/" +:+ r) with ((target +:+ ".bak") +:+ "/" +:+ r)
        by (rewrite !string_append_assoc; reflexivity).
      apply carry_moved; [exact Hsep|apply Hat].
    + intros E. rewrite <- (string_append_nil target) in E at 1.
      apply string_append_inj in E. discriminate.
Qed.

End LinkDirectory.

(** ** Backups *)

Section BackupMore.
Variable P : platform.
Implicit Types (w : world) (row : dotfile_row).

(** X5. Whatever its arguments, [cmd_backup] leaves the disk and the
    [dotfiles] table alone and never changes or drops a snapshot: the
    [snapshots] table is as before, or it has one more row at its end, for
    the given entry, stamped with the given time, under a rowid above all the
    others, whose text decodes to bytes that hash to its digest. *)
Theorem backup_appends_at_most_one (now : string) (eid : Z) (a_notes : option string) w :
  w_fs (final (cmd_backup P now eid a_notes w)) = w_fs w /\
  dotfiles (w_db (final (cmd_backup P now eid a_notes w))) = dotfiles (w_db w) /\
  (snapshots (w_db (final (cmd_backup P now eid a_notes w))) = snapshots (w_db w) \/
   exists s content,
     snapshots (w_db (final (cmd_backup P now eid a_notes w))) = snapshots (w_db w) ++ [s] /\
     s_entry_id s = eid /\ s_saved_at s = now /\
     (forall old, In old (snapshots (w_db w)) -> (s_id old < s_id s)%Z) /\
     Base64.b64decode (s_content_b64 s) = Some content /\
     s_content_hash s = Sha256.hexdigest content).
Proof.
  unfold cmd_backup.
  destruct (negb (in_int64 eid)); [cbn; auto|].
  destruct (select_dotfile (w_db w) eid) as [row|]; [|cbn; auto].
  destruct (negb (path_exists (w_fs w) (path_str P (source_path (row_to_entry row)))));
    [cbn; auto|].
  destruct (read_bytes (w_fs w) (path_str P (source_path (row_to_entry row))))
    as [content|]; [|cbn; auto].
  cbn [final returns w_fs w_db set_db insert_snapshot dotfiles snapshots].
  split; [reflexivity|]. split; [reflexivity|]. right.
  eexists. exists content. split; [reflexivity|]. cbn [s_entry_id s_saved_at s_id
    s_content_b64 s_content_hash].
  split; [reflexivity|]. split; [reflexivity|]. split.
  - intros old Hold. apply next_rowid_fresh, in_map, Hold.
  - split; [apply b64decode_b64encode|reflexivity].
Qed.

(** X6. Two backups of an unchanged file are two snapshots: same digest,
    same text, decoding to the bytes of the file, under two rowids of which
    the second is the greater.  Nothing is deduplicated. *)
Theorem backup_twice_no_dedup (now1 now2 : string) (notes1 notes2 : option string)
    (eid : Z) w row (C : list byte) :
  in_int64 eid = true ->
  select_dotfile (w_db w) eid = Some row ->
  read_bytes (w_fs w) (path_str P (d_source_path row)) = Some C ->
  exists s1 s2,
    snapshots (w_db (final (cmd_backup P now2 eid notes2
                              (final (cmd_backup P now1 eid notes1 w)))))
      = snapshots (w_db w) ++ [s1; s2] /\
    s_content_hash s1 = Sha256.hexdigest C /\
    s_content_hash s2 = Sha256.hexdigest C /\
    s_content_b64 s1 = s_content_b64 s2 /\
    Base64.b64decode (s_content_b64 s2) = Some C /\
    s_saved_at s1 = now1 /\ s_saved_at s2 = now2 /\
    (s_id s1 < s_id s2)%Z.
Proof.
  intros Hid Hrow Hread.
  rewrite (backup_readable P now1 eid notes1 w row C Hid Hrow Hread).
  cbn [final returns].
  match goal with
  | |- context [cmd_backup P now2 eid notes2 ?w1] =>
      rewrite (backup_readable P now2 eid notes2 w1 row C Hid Hrow Hread)
  end.
  cbn [final returns w_db set_db insert_snapshot snapshots snapshots_seq].
  do 2 eexists. split; [rewrite <- app_assoc; reflexivity|].
  cbn [s_content_hash s_content_b64 s_saved_at s_id].
  repeat (split; [reflexivity|]). split; [apply b64decode_b64encode|].
  repeat (split; [reflexivity|]).
  apply next_rowid_fresh. rewrite map_app. apply in_or_app. right. left. reflexivity.
Qed.

Lemma snapshots_of_insert (db : database) (eid : Z) (h b64 now notes : string) :
  snapshots_of (insert_snapshot db eid h b64 now notes) eid
    = snapshots_of db eid
      ++ [SnapshotRow (next_rowid (map s_id (snapshots db)) (snapshots_seq db))
            eid h b64 now notes].
Proof.
  unfold snapshots_of. cbn [insert_snapshot snapshots].
  rewrite filter_app. f_equal. rewrite filter_cons. cbn [s_entry_id].
  destruct (decide (eid = eid)); [reflexivity|congruence].
Qed.

(** X7. A backup followed by a diff, with the file untouched in between,
    prints "no changes", provided the clock reading of the backup is later
    than the [saved_at] of every earlier snapshot of the entry (on a tie the
    earlier snapshot is the one compared) and the stored source path is in
    pathlib's normal form. *)
Theorem backup_then_diff_no_changes (now : string) (a_notes : option string)
    (eid : Z) w row (C : list byte) :
  in_int64 eid = true ->
  select_dotfile (w_db w) eid = Some row ->
  path_str P (d_source_path row) = d_source_path row ->
  read_bytes (w_fs w) (d_source_path row) = Some C ->
  (forall s, In s (snapshots_of (w_db w) eid) -> String.leb now (s_saved_at s) = false) ->
  cmd_diff P eid (final (cmd_backup P now eid a_notes w))
    = returns [OkNoChanges (d_name row)] (final (cmd_backup P now eid a_notes w)).
Proof.
  intros Hid Hrow Hnorm Hread Hclock.
  assert (Hread' : read_bytes (w_fs w) (path_str P (d_source_path row)) = Some C)
    by (rewrite Hnorm; exact Hread).
  rewrite (backup_readable P now eid a_notes w row C Hid Hrow Hread').
  cbn [final returns].
  set (nt := match a_notes with Some n => n | None => EmptyString end).
  set (new := SnapshotRow (next_rowid (map s_id (snapshots (w_db w))) (snapshots_seq (w_db w)))
                eid (Sha256.hexdigest C) (Base64.b64encode C) now nt).
  assert (Hlatest : latest_snapshot
                      (insert_snapshot (w_db w) eid (Sha256.hexdigest C)
                         (Base64.b64encode C) now nt) eid = Some new).
  { unfold latest_snapshot. rewrite snapshots_of_insert. fold new.
    destruct (latest_of_rows (snapshots_of (w_db w) eid ++ [new]))
      as (before & snap & after & Hl & Hhead & Hmax & _).
    { destruct (snapshots_of (w_db w) eid); discriminate. }
    rewrite Hhead. f_equal.
    assert (Hin : In snap (snapshots_of (w_db w) eid ++ [new])).
    { rewrite Hl. apply in_or_app. right. left. reflexivity. }
    apply in_app_or in Hin as [Hold|[<-|[]]]; [|reflexivity].
    exfalso. specialize (Hclock _ Hold).
    assert (Hm : String.leb (s_saved_at new) (s_saved_at snap) = true).
    { apply Hmax. apply in_or_app. right. left. reflexivity. }
    cbn [new s_saved_at] in Hm. congruence. }
  match goal with
  | |- cmd_diff P eid ?w1 = _ =>
      rewrite (cmd_diff_with_snapshot P eid w1 row new Hid Hrow Hlatest)
  end.
  cbn [w_fs set_db]. unfold file_hash. rewrite Hread.
  cbn [new s_content_hash]. rewrite String.eqb_refl. reflexivity.
Qed.

End BackupMore.

(** ** Restoring *)

Section RestoreMore.
Variable P : platform.
Implicit Types (w : world) (row : dotfile_row) (fs : filesystem).

Lemma real_from_unfold fs (p : string) :
  real_from MAXSYMLINKS fs p =
    match fs !! p with
    | Some (Symlink t) => real_from (pred MAXSYMLINKS) fs t
    | Some _ => Some p
    | None => None
    end.
Proof. reflexivity. Qed.

(** Copying a regular file to a path that is free, in a directory, or that
    holds a regular file. *)
Lemma copy2_plain fs (src dst : string) (c : list byte) :
  fs !! src = Some (File c) ->
  src <> dst ->
  (fs !! dst = None /\ is_dir fs (path_parent dst) = true) \/
  (exists x, fs !! dst = Some (File x)) ->
  copy2 fs src dst = Some (<[dst := File c]> fs).
Proof.
  intros Hsrc Hne Hdst.
  assert (Hd : is_dir fs dst = false).
  { unfold is_dir. rewrite stat_unfold. destruct Hdst as [[-> _]|[x ->]]; reflexivity. }
  assert (Hs : samefile fs src dst = false).
  { unfold samefile. rewrite !real_from_unfold, Hsrc.
    destruct Hdst as [[-> _]|[x ->]]; [reflexivity|]. apply String.eqb_neq, Hne. }
  assert (Hr : read_bytes fs src = Some c).
  { unfold read_bytes. rewrite stat_unfold, Hsrc. reflexivity. }
  assert (Hw : write_bytes fs dst c = Some (<[dst := File c]> fs)).
  { unfold write_bytes. rewrite open_target_unfold.
    destruct Hdst as [[-> ->]|[x ->]]; reflexivity. }
  unfold copy2. rewrite Hd, Hs, Hr. exact Hw.
Qed.

(** X8. When the source is a regular file and [<source>.pre-restore] is a
    free name in a directory, or a regular file, [cmd_restore] keeps the
    version it replaces: afterwards [<source>.pre-restore] holds the bytes
    the source held, the source holds the bytes of the snapshot, and no
    other path has changed. *)
Theorem restore_keeps_previous_version (eid sid : Z) w row (snap : snapshot_row)
    (content current : list byte) :
  in_int64 eid = true ->
  in_int64 sid = true ->
  select_dotfile (w_db w) eid = Some row ->
  select_snapshot (w_db w) sid = Some snap ->
  Base64.b64decode (s_content_b64 snap) = Some content ->
  w_fs w !! path_str P (d_source_path row) = Some (File current) ->
  (w_fs w !! (path_str P (d_source_path row) +:+ ".pre-restore") = None /\
   is_dir (w_fs w) (path_parent (path_str P (d_source_path row) +:+ ".pre-restore")) = true) \/
  (exists x, w_fs w !! (path_str P (d_source_path row) +:+ ".pre-restore") = Some (File x)) ->
  cmd_restore P eid sid w =
    returns [WarnPreRestore (path_str P (d_source_path row));
             OkRestored (d_name row) (s_id snap) (string_take 19 (s_saved_at snap))]
      (set_fs w (<[path_str P (d_source_path row) := File content]>
                   (<[path_str P (d_source_path row) +:+ ".pre-restore" := File current]>
                      (w_fs w)))).
Proof.
  intros Hid Hsid Hrow Hsnap Hdec Hfile Hpre. unfold cmd_restore.
  rewrite Hid, Hrow. cbn [negb row_to_entry source_path name].
  rewrite Hsid, Hsnap, Hdec. cbn [negb].
  set (path := path_str P (d_source_path row)) in *.
  assert (Hne : path <> path +:+ ".pre-restore").
  { intros E. symmetry in E. revert E. apply append_longer. discriminate. }
  rewrite (copy2_plain _ _ _ _ Hfile Hne Hpre).
  unfold path_exists. rewrite stat_unfold, Hfile.
  unfold write_bytes. rewrite open_target_unfold.
  rewrite lookup_insert_ne by congruence. rewrite Hfile. reflexivity.
Qed.

(** X9. When nothing is at the source path and its directory is there,
    [cmd_restore] creates the file with the bytes of the snapshot, makes no
    [.pre-restore] copy and prints the success line alone. *)
Theorem restore_creates_missing_source (eid sid : Z) w row (snap : snapshot_row)
    (content : list byte) :
  in_int64 eid = true ->
  in_int64 sid = true ->
  select_dotfile (w_db w) eid = Some row ->
  select_snapshot (w_db w) sid = Some snap ->
  Base64.b64decode (s_content_b64 snap) = Some content ->
  w_fs w !! path_str P (d_source_path row) = None ->
  is_dir (w_fs w) (path_parent (path_str P (d_source_path row))) = true ->
  cmd_restore P eid sid w =
    returns [OkRestored (d_name row) (s_id snap) (string_take 19 (s_saved_at snap))]
      (set_fs w (<[path_str P (d_source_path row) := File content]> (w_fs w))).
Proof.
  intros Hid Hsid Hrow Hsnap Hdec Hnone Hdir. unfold cmd_restore.
  rewrite Hid, Hrow. cbn [negb row_to_entry source_path name].
  rewrite Hsid, Hsnap, Hdec. cbn [negb].
  unfold path_exists. rewrite stat_unfold, Hnone.
  unfold write_bytes. rewrite open_target_unfold, Hnone, Hdir. reflexivity.
Qed.

End RestoreMore.

(** ** Registering *)

Section RegisterMore.
Variable P : platform.

(** X10. Registering a new name under one of the five categories, with a
    source and a target that expand and resolve, appends one row: its rowid
    is above all the others, it holds the name, the resolved source, the
    user-expanded target, the category, the description (empty when none is
    given) and 1 or 0 for [--auto]; looking the rowid up gives that row
    back, and the older rows are untouched. *)
Theorem register_then_select (a_name a_source a_target a_category : string)
    (a_description : option string) (a_auto : bool) (w : world) (source target : string) :
  In a_category CATEGORIES ->
  ~ In a_name (names (w_db w)) ->
  resolve P (w_fs w) a_source = Some source ->
  expanduser P a_target = Some target ->
  exists row,
    row = DotfileRow (next_rowid (map d_id (dotfiles (w_db w))) (dotfiles_seq (w_db w)))
            a_name source target a_category
            (match a_description with Some d => d | None => EmptyString end)
            (SInt (if a_auto then 1 else 0)) /\
    reports (cmd_register P a_name a_source a_target a_category a_description a_auto w)
      = [OkRegistered a_name source target] /\
    ended (cmd_register P a_name a_source a_target a_category a_description a_auto w)
      = Returned /\
    dotfiles (w_db (final (cmd_register P a_name a_source a_target a_category
                             a_description a_auto w)))
      = dotfiles (w_db w) ++ [row] /\
    (forall old, In old (dotfiles (w_db w)) -> (d_id old < d_id row)%Z) /\
    select_dotfile (w_db (final (cmd_register P a_name a_source a_target a_category
                                   a_description a_auto w))) (d_id row) = Some row.
Proof.
  intros Hcat Hfresh Hres Hexp. eexists. split; [reflexivity|].
  unfold cmd_register.
  rewrite (proj2 (existsb_eqb_In a_category CATEGORIES) Hcat). cbn [negb].
  rewrite Hres, Hexp.
  unfold insert_dotfile. cbn [text_of text_affinity int_affinity mbind option_bind].
  pose proof (proj2 (existsb_eqb_not_In _ _) Hfresh) as Hex. unfold names in Hex.
  rewrite Hex. cbn [reports ended final returns w_db set_db dotfiles d_id].
  assert (Hlt : forall old, In old (dotfiles (w_db w)) ->
                  (d_id old < next_rowid (map d_id (dotfiles (w_db w)))
                                (dotfiles_seq (w_db w)))%Z).
  { intros old Hold. apply next_rowid_fresh, in_map, Hold. }
  repeat (split; [reflexivity|]). split; [exact Hlt|].
  unfold select_dotfile. cbn [dotfiles]. apply find_app_last.
  - intros y Hy. apply Z.eqb_neq. specialize (Hlt y Hy). lia.
  - cbn [d_id]. apply Z.eqb_refl.
Qed.

End RegisterMore.

(** ** Importing *)

Section ImportMore.
Variable P : platform.

Lemma insert_dotfile_refused (db db2 : database) (vn vs vt vc vd va : sqlval) :
  insert_dotfile P db vn vs vt vc vd va = None ->
  (forall n, In n (names db) -> In n (names db2)) ->
  insert_dotfile P db2 vn vs vt vc vd va = None.
Proof.
  unfold insert_dotfile. intros H Hsub.
  destruct (text_of vn) as [n|]; [|reflexivity].
  destruct (text_of vs) as [s|]; [|reflexivity].
  destruct (text_of vt) as [t|]; [|reflexivity].
  destruct (text_of vc) as [c|]; [|reflexivity].
  destruct (text_of vd) as [d|]; [|reflexivity].
  cbn [mbind option_bind] in *.
  destruct (match int_affinity P va with SNull => None | v => Some v end) as [a|];
    [|reflexivity].
  cbn [mbind option_bind] in *.
  destruct (existsb (String.eqb n) (map d_name (dotfiles db))) eqn:E; [|discriminate].
  apply existsb_eqb_In in E.
  rewrite (proj2 (existsb_eqb_In n (map d_name (dotfiles db2))) (Hsub n E)). reflexivity.
Qed.

Lemma insert_dotfile_once (db db1 db2 : database) (vn vs vt vc vd va : sqlval) :
  insert_dotfile P db vn vs vt vc vd va = Some db1 ->
  (forall n, In n (names db1) -> In n (names db2)) ->
  insert_dotfile P db2 vn vs vt vc vd va = None.
Proof.
  intros H Hsub.
  destruct (insert_dotfile_names P _ _ _ _ _ _ _ _ H) as (row & Hrows & _ & Hn & _).
  assert (Hin : In (d_name row) (names db2)).
  { apply Hsub. unfold names. rewrite Hrows, map_app. apply in_or_app. right. left.
    reflexivity. }
  revert H. unfold insert_dotfile. rewrite Hn. intros H.
  destruct (text_of vs) as [s|]; [|reflexivity].
  destruct (text_of vt) as [t|]; [|reflexivity].
  destruct (text_of vc) as [c|]; [|reflexivity].
  destruct (text_of vd) as [d|]; [|reflexivity].
  cbn [mbind option_bind] in *.
  destruct (match int_affinity P va with SNull => None | v => Some v end) as [a|];
    [|reflexivity].
  cbn [mbind option_bind] in *.
  rewrite (proj2 (existsb_eqb_In _ (map d_name (dotfiles db2))) Hin). reflexivity.
Qed.

(** What one item does to the store: nothing, or one row more. *)
Lemma import_item_appends (db db' : database) (item : json) :
  import_item P db item = Some db' ->
  exists added, dotfiles db' = dotfiles db ++ added /\ length added <= 1 /\
                snapshots db' = snapshots db.
Proof.
  unfold import_item. intros H.
  repeat match type of H with
         | (mbind _ ?o) = Some _ =>
             destruct o; cbn [mbind option_bind] in H; [|discriminate H]
         end.
  match type of H with
  | Some (match ?ins with _ => _ end) = Some _ => destruct ins eqn:E
  end; inversion H; subst.
  - destruct (insert_dotfile_names P _ _ _ _ _ _ _ _ E) as (row & Hrows & _ & _ & Hs).
    exists [row]. auto.
  - exists []. cbn [ignored_insert dotfiles snapshots]. rewrite app_nil_r. auto.
Qed.

(** Whether the [try] raises does not depend on the store; and an item that
    went through once is ignored in any store that holds the names of the
    store it left: no row is added, the rowid counter moves on. *)
Lemma import_item_raises_again (db db2 : database) (item : json) :
  import_item P db item = None -> import_item P db2 item = None.
Proof.
  unfold import_item. intros H.
  repeat match type of H with
         | (mbind _ ?o) = None =>
             destruct o; cbn [mbind option_bind] in *; [|reflexivity]
         end.
  discriminate H.
Qed.

Lemma import_item_settled (db db1 db2 : database) (item : json) :
  import_item P db item = Some db1 ->
  (forall n, In n (names db1) -> In n (names db2)) ->
  import_item P db2 item = Some (ignored_insert db2).
Proof.
  unfold import_item. intros H Hsub.
  repeat match type of H with
         | (mbind _ ?o) = Some _ =>
             destruct o; cbn [mbind option_bind] in *; [|discriminate H]
         end.
  match type of H with
  | Some (match ?ins with _ => _ end) = Some _ => destruct ins eqn:E
  end; inversion H; subst.
  - rewrite (insert_dotfile_once _ _ _ _ _ _ _ _ _ E Hsub). reflexivity.
  - rewrite (insert_dotfile_refused _ _ _ _ _ _ _ _ E Hsub). reflexivity.
Qed.

Lemma import_loop_appends (items : list json) (db : database) (n : nat) :
  exists db' k added,
    import_loop P db n items = (db', n + k) /\ k <= length items /\
    dotfiles db' = dotfiles db ++ added /\ length added <= k /\
    snapshots db' = snapshots db.
Proof.
  revert db n. induction items as [|item items IH]; intros db n; simpl.
  - exists db, 0, []. rewrite app_nil_r. repeat split; auto; try (f_equal; lia).
  - destruct (import_item P db item) as [db1|] eqn:E.
    + destruct (import_item_appends _ _ _ E) as (a1 & Hd1 & Hl1 & Hs1).
      destruct (IH db1 (S n)) as (db' & k & added & -> & Hk & Hd & Hl & Hs).
      exists db', (S k), (a1 ++ added). repeat split.
      * f_equal. lia.
      * lia.
      * rewrite Hd, Hd1, app_assoc. reflexivity.
      * rewrite length_app. lia.
      * congruence.
    + destruct (IH db n) as (db' & k & added & -> & Hk & Hd & Hl & Hs).
      exists db', k, added. repeat split; auto.
Qed.

(** X11. Importing a list never aborts and only ever appends: the command
    returns normally, the counter does not exceed the number of items, the
    rows that were in [dotfiles] are still there, unchanged and in place, at
    most one row is added per counted item, and neither the snapshots nor
    the disk are touched. *)
Theorem import_only_appends (items : list json) (w : world) :
  exists k added,
    ended (cmd_import_manifest P (JArr items) w) = Returned /\
    reports (cmd_import_manifest P (JArr items) w) = [OkImported k (length items)] /\
    k <= length items /\
    dotfiles (w_db (final (cmd_import_manifest P (JArr items) w)))
      = dotfiles (w_db w) ++ added /\
    length added <= k /\
    snapshots (w_db (final (cmd_import_manifest P (JArr items) w))) = snapshots (w_db w) /\
    w_fs (final (cmd_import_manifest P (JArr items) w)) = w_fs w.
Proof.
  unfold cmd_import_manifest. cbn [iter_items].
  destruct (import_loop_appends items (w_db w) 0) as (db' & k & added & -> & Hk & Hd & Hl & Hs).
  exists k, added. cbn [ended reports final returns w_db w_fs set_db]. auto 10.
Qed.

Lemma import_loop_names (items : list json) (db : database) (n : nat) (x : string) :
  In x (names db) -> In x (names (fst (import_loop P db n items))).
Proof.
  intros Hx. destruct (import_loop_appends items db n) as (db' & k & added & -> & _ & Hd & _).
  cbn [fst]. unfold names in *. rewrite Hd, map_app. apply in_or_app. left. exact Hx.
Qed.

Lemma import_loop_again (items : list json) :
  forall (db : database) (n : nat) (db2 : database) (m : nat),
    (forall x, In x (names (fst (import_loop P db n items))) -> In x (names db2)) ->
    exists db3,
      import_loop P db2 m items = (db3, m + (snd (import_loop P db n items) - n)) /\
      dotfiles db3 = dotfiles db2 /\ snapshots db3 = snapshots db2.
Proof.
  induction items as [|item items IH]; intros db n db2 m Hsub; simpl.
  - exists db2. split; [f_equal; lia|auto].
  - simpl in Hsub. destruct (import_item P db item) as [db1|] eqn:E.
    + rewrite (import_item_settled db db1 db2 item E).
      * destruct (IH db1 (S n) (ignored_insert db2) (S m) Hsub) as (db3 & -> & Hd & Hs).
        exists db3. split; [|auto].
        destruct (import_loop_appends items db1 (S n)) as (db' & k & added & -> & _).
        cbn [snd]. f_equal. lia.
      * intros x Hx. apply Hsub. apply import_loop_names, Hx.
    + rewrite (import_item_raises_again db db2 item E). apply (IH db n db2 m Hsub).
Qed.

(** X12. Importing the same document a second time adds no row and changes
    none, leaves the snapshots and the disk alone, and prints the same
    count again: every item that was counted the first time is ignored by
    [INSERT OR IGNORE] and counted once more. *)
Theorem import_twice_same (data : json) (w : world) :
  dotfiles (w_db (final (cmd_import_manifest P data (final (cmd_import_manifest P data w)))))
    = dotfiles (w_db (final (cmd_import_manifest P data w))) /\
  snapshots (w_db (final (cmd_import_manifest P data (final (cmd_import_manifest P data w)))))
    = snapshots (w_db (final (cmd_import_manifest P data w))) /\
  w_fs (final (cmd_import_manifest P data (final (cmd_import_manifest P data w))))
    = w_fs (final (cmd_import_manifest P data w)) /\
  reports (cmd_import_manifest P data (final (cmd_import_manifest P data w)))
    = reports (cmd_import_manifest P data w) /\
  ended (cmd_import_manifest P data (final (cmd_import_manifest P data w)))
    = ended (cmd_import_manifest P data w).
Proof.
  unfold cmd_import_manifest.
  destruct (iter_items data) as [items|] eqn:Hit; [|cbn; auto].
  destruct (import_loop P (w_db w) 0 items) as [db1 k] eqn:E1.
  cbn [final returns w_db set_db].
  destruct (import_loop_again items (w_db w) 0 db1 0) as (db3 & -> & Hd & Hs).
  - rewrite E1. auto.
  - rewrite E1. cbn [snd final reports ended returns set_db w_db w_fs].
    rewrite Nat.sub_0_r. auto.
Qed.

Lemma import_loop_texts (items : list json) (db : database) (n : nat) :
  Forall (fun i => exists s, i = JStr s) items -> import_loop P db n items = (db, n).
Proof.
  revert n. induction items as [|item items IH]; intros n Hall; simpl; [reflexivity|].
  apply Forall_cons in Hall as [[s ->] Hall]. cbn. apply IH, Hall.
Qed.

(** X13. A document that is not a list imports nothing.  For an object the
    loop runs over its keys and for a text over its characters: each of
    them raises inside the [try], so the command prints a count of 0 out of
    their number and leaves the world as it was.  For null, a boolean or a
    number the [for] statement itself raises [TypeError]. *)
Theorem import_not_a_list (data : json) (w : world) :
  (forall items, data <> JArr items) ->
  match iter_items data with
  | Some items => cmd_import_manifest P data w = returns [OkImported 0 (length items)] w
  | None => cmd_import_manifest P data w = raises [] TypeError w
  end.
Proof.
  intros Hnl. unfold cmd_import_manifest.
  destruct data as [|b|z|s|items|members]; cbn [iter_items]; try reflexivity.
  - rewrite import_loop_texts; [destruct w; reflexivity|].
    apply List.Forall_forall. intros i Hi. apply in_map_iff in Hi as (c & <- & _). eauto.
  - destruct (Hnl items eq_refl).
  - rewrite import_loop_texts; [destruct w; reflexivity|].
    apply List.Forall_forall. intros i Hi. apply in_map_iff in Hi as (c & <- & _). eauto.
Qed.

(** X14. An item that gives only the three required keys, as texts, under a
    name that is free, is stored with the defaults of the program:
    category [tool], an empty description and auto_update 0. *)
Theorem import_item_defaults (db : database) (members : list (string * json))
    (n s t : string) :
  assoc "name" members = Some (JStr n) ->
  assoc "source_path" members = Some (JStr s) ->
  assoc "target_path" members = Some (JStr t) ->
  assoc "category" members = None ->
  assoc "description" members = None ->
  assoc "auto_update" members = None ->
  ~ In n (names db) ->
  exists db',
    import_item P db (JObj members) = Some db' /\
    dotfiles db' = dotfiles db ++
      [DotfileRow (next_rowid (map d_id (dotfiles db)) (dotfiles_seq db))
                  n s t "tool" "" (SInt 0)].
Proof.
  intros Hn Hs Ht Hc Hd Ha Hfresh. unfold import_item.
  cbn [subscript get_or]. rewrite Hn, Hs, Ht, Hc, Hd, Ha.
  cbn [mbind option_bind adapt in_int64]. 
  unfold insert_dotfile. cbn [text_of text_affinity int_affinity mbind option_bind].
  pose proof (proj2 (existsb_eqb_not_In _ _) Hfresh) as Hex. unfold names in Hex.
  rewrite Hex. eexists. split; reflexivity.
Qed.

End ImportMore.

(** ** Exporting *)

Lemma string_compare_lt_trans (a b c : string) :
  String.compare a b = Lt -> String.compare b c = Lt -> String.compare a c = Lt.
Proof.
  revert b c. induction a as [|x a IH]; intros [|y b] [|z c]; simpl; try congruence.
  unfold Ascii.compare.
  destruct (N.compare_spec (N_of_ascii x) (N_of_ascii y)) as [Exy|Lxy|Gxy];
    destruct (N.compare_spec (N_of_ascii y) (N_of_ascii z)) as [Eyz|Lyz|Gyz];
    try congruence.
  - rewrite Exy, Eyz, N.compare_refl. apply IH.
  - rewrite Exy. rewrite (proj2 (N.compare_lt_iff _ _) Lyz). reflexivity.
  - rewrite <- Eyz. rewrite (proj2 (N.compare_lt_iff _ _) Lxy). reflexivity.
  - assert (L : (N_of_ascii x < N_of_ascii z)%N) by lia.
    rewrite (proj2 (N.compare_lt_iff _ _) L). reflexivity.
Qed.

(** The order of [ORDER BY category, name], spelled out. *)
Lemma row_leb_spec (a b : dotfile_row) :
  row_leb a b = true <->
  String.compare (d_category a) (d_category b) = Lt \/
  (d_category a = d_category b /\ String.leb (d_name a) (d_name b) = true).
Proof.
  unfold row_leb. destruct (String.compare (d_category a) (d_category b)) eqn:E.
  - apply String.compare_eq_iff in E. split; [auto|]. intros [H|[_ H]]; [discriminate|exact H].
  - split; auto.
  - split; [discriminate|]. intros [H|[H _]]; [discriminate|].
    rewrite H, string_compare_refl in E. discriminate.
Qed.

Lemma row_leb_trans (a b c : dotfile_row) :
  row_leb a b = true -> row_leb b c = true -> row_leb a c = true.
Proof.
  rewrite !row_leb_spec. intros [H1|[E1 H1]] [H2|[E2 H2]].
  - left. eapply string_compare_lt_trans; eassumption.
  - left. rewrite <- E2. exact H1.
  - left. rewrite E1. exact H2.
  - right. split; [congruence|]. eapply string_leb_trans; eassumption.
Qed.

Lemma row_leb_false (a b : dotfile_row) : row_leb a b = false -> row_leb b a = true.
Proof.
  unfold row_leb. rewrite (String.compare_antisym (d_category b) (d_category a)).
  destruct (String.compare (d_category a) (d_category b)); cbn; try congruence.
  apply string_leb_false.
Qed.

Lemma insert_asc_sorted (x : dotfile_row) (l : list dotfile_row) :
  StronglySorted (fun a b => row_leb a b = true) l ->
  StronglySorted (fun a b => row_leb a b = true) (insert_asc x l).
Proof.
  induction 1 as [|y l Hs IH Hall]; simpl.
  - constructor; constructor.
  - destruct (row_leb x y) eqn:E.
    + constructor; [constructor; assumption|].
      constructor; [exact E|].
      rewrite List.Forall_forall in *. intros z Hz.
      eapply row_leb_trans; [exact E|apply Hall, Hz].
    + constructor; [exact IH|].
      rewrite List.Forall_forall in *. intros z Hz.
      eapply Permutation_in in Hz; [|apply insert_asc_perm].
      destruct Hz as [<-|Hz]; [apply row_leb_false, E|apply Hall, Hz].
Qed.

Lemma order_by_category_name_sorted (l : list dotfile_row) :
  StronglySorted (fun a b => row_leb a b = true) (order_by_category_name l).
Proof.
  induction l as [|x l IH]; simpl; [constructor|].
  apply insert_asc_sorted, IH.
Qed.

Lemma strongly_sorted_weaken {A : Type} (R S : A -> A -> Prop) (l : list A) :
  (forall a b, R a b -> S a b) -> StronglySorted R l -> StronglySorted S l.
Proof.
  intros HRS. induction 1 as [|x l Hs IH Hall]; constructor; [exact IH|].
  rewrite List.Forall_forall in *. auto.
Qed.

(** X15. The exported document has one object per entry, each entry once,
    in the order of [ORDER BY category, name]: of two objects the earlier
    one has the smaller category, or the same category and a name that is
    not greater.  The output file is the one given with [--output], or
    [dotfiles_manifest.json] without it or with an empty one.  When the
    file can be opened for writing the command counts all entries, returns
    normally, and the file then holds the text of the document; when it
    cannot, the command raises and prints nothing.  The store is never
    changed. *)
Theorem export_sorted_complete (P : platform) (a_output : option string) (w : world) :
  exists rows fname,
    snd (cmd_export_manifest P a_output w) = JArr (map row_to_json rows) /\
    fst (cmd_export_manifest P a_output w)
      = match write_bytes (w_fs w) fname (json_dump P (JArr (map row_to_json rows))) with
        | Some fs' => returns [OkExported fname (length (dotfiles (w_db w)))] (set_fs w fs')
        | None => raises [] OSError w
        end /\
    (a_output = None \/ a_output = Some EmptyString ->
     fname = "dotfiles_manifest.json"%string) /\
    (forall s, a_output = Some s -> s <> EmptyString -> fname = s) /\
    Permutation rows (dotfiles (w_db w)) /\
    StronglySorted
      (fun a b => String.compare (d_category a) (d_category b) = Lt \/
                  (d_category a = d_category b /\
                   String.leb (d_name a) (d_name b) = true)) rows /\
    w_db (final (fst (cmd_export_manifest P a_output w))) = w_db w /\
    (ended (fst (cmd_export_manifest P a_output w)) = Returned ->
     read_bytes (w_fs (final (fst (cmd_export_manifest P a_output w)))) fname
       = Some (json_dump P (JArr (map row_to_json rows)))).
Proof.
  exists (order_by_category_name (dotfiles (w_db w))). eexists.
  pose proof (order_by_category_name_perm (dotfiles (w_db w))) as Hperm.
  unfold cmd_export_manifest. cbn [fst snd].
  rewrite length_map, (Permutation_length Hperm).
  split; [reflexivity|]. split; [reflexivity|].
  split; [intros [->| ->]; reflexivity|].
  split; [intros s -> Hs; destruct s; [congruence|reflexivity]|].
  split; [exact Hperm|]. split.
  { eapply strongly_sorted_weaken; [|apply order_by_category_name_sorted].
    intros a b H. apply row_leb_spec, H. }
  match goal with
  | |- context [write_bytes ?fs ?f ?c] => destruct (write_bytes fs f c) as [fs'|] eqn:Hw
  end; cbn [final ended returns raises w_db w_fs set_fs].
  - split; [reflexivity|]. intros _. apply (read_after_write _ _ _ _ Hw).
  - split; [reflexivity|]. discriminate.
Qed.

(** ** Syncing *)

Section SyncMore.
Variable P : platform.
Implicit Types (w : world) (row : dotfile_row) (e : DotfileEntry).


(** X16. On the disk, [_do_link] is [cmd_link]: for a stored entry both
    leave the same world and end the same way.  The bulk variant prints
    exactly one line when it returns (it has no line of its own for the
    backup it makes) and none when it raises. *)
Theorem do_link_same_world (eid : Z) w row :
  in_int64 eid = true ->
  select_dotfile (w_db w) eid = Some row ->
  run_final (_do_link P (row_to_entry row) w) = final (cmd_link P eid w) /\
  run_ended (_do_link P (row_to_entry row) w) = ended (cmd_link P eid w) /\
  length (notes (_do_link P (row_to_entry row) w))
    = match ended (cmd_link P eid w) with Returned => 1 | _ => 0 end.
Proof.
  intros Hid Hrow. unfold _do_link, cmd_link. rewrite Hid, Hrow.
  cbn [negb row_to_entry source_path target_path name].
  destruct (negb (path_exists (w_fs w) _)); [cbn; auto|].
  destruct (mkdir_parents (w_fs w) _) as [fs1|]; [|cbn; auto].
  destruct (path_exists fs1 _ || is_symlink fs1 _).
  - destruct (is_symlink fs1 _ && _); [cbn; auto|].
    destruct (move fs1 _ _) as [fs2|]; [|cbn; auto].
    destruct (os_symlink fs2 _ _); cbn; auto.
  - destruct (os_symlink fs1 _ _); cbn; auto.
Qed.



End SyncMore.

(** ** Checking and listing *)

Section CheckMore.
Variable P : platform.
Implicit Types (w : world) (row : dotfile_row) (e : DotfileEntry) (fs : filesystem).





Lemma check_loop_counts fs (rows : list dotfile_row) (broken : nat) :
  let dangling := fun row =>
    is_symlink fs (path_str P (d_target_path row))
    && negb (path_exists fs (path_str P (d_target_path row))) in
  snd (check_loop P fs rows broken) = broken + length (List.filter dangling rows) /\
  length (fst (check_loop P fs rows broken)) = length rows /\
  ~ In OkNoBroken (fst (check_loop P fs rows broken)).
Proof.
  intros dangling. revert broken.
  induction rows as [|row rows IH]; intros broken; simpl; [split; [lia|auto]|].
  unfold check_entry. cbn [row_to_entry target_path name]. unfold dangling at 1.
  destruct (is_symlink fs (path_str P (d_target_path row)));
    destruct (path_exists fs (path_str P (d_target_path row))); cbn [negb andb];
    match goal with
    | |- context [check_loop P fs rows ?b] =>
        destruct (IH b) as (Hc & Hl & Hn); destruct (check_loop P fs rows b) as [lines k]
    end;
    cbn [fst snd length] in *; (split; [lia|]); (split; [lia|]);
    intros [Hd|Hd]; try discriminate; auto.
Qed.

(** X20. [cmd_check_broken] prints one line per entry, in table order, and
    then "No broken symlinks" exactly when no entry's target is a link that
    does not resolve. *)
Theorem check_summary w :
  let dangling := fun row =>
    is_symlink (w_fs w) (path_str P (d_target_path row))
    && negb (path_exists (w_fs w) (path_str P (d_target_path row))) in
  (In OkNoBroken (cmd_check_broken P w)
   <-> forallb (fun row => negb (dangling row)) (dotfiles (w_db w)) = true) /\
  length (cmd_check_broken P w)
    = length (dotfiles (w_db w))
      + (if forallb (fun row => negb (dangling row)) (dotfiles (w_db w)) then 1 else 0).
Proof.
  intros dangling. unfold cmd_check_broken.
  destruct (check_loop_counts (w_fs w) (dotfiles (w_db w)) 0) as (Hc & Hl & Hn).
  cbv zeta in Hc. fold dangling in Hc.
  destruct (check_loop P (w_fs w) (dotfiles (w_db w)) 0) as [lines k].
  cbn [fst snd] in *.
  assert (Hall : forallb (fun row => negb (dangling row)) (dotfiles (w_db w))
                 = Nat.eqb k 0).
  { rewrite Hc. cbn [Nat.add]. clear.
    induction (dotfiles (w_db w)) as [|row rows IH]; [reflexivity|].
    cbn [forallb List.filter]. destruct (dangling row); cbn [negb andb length]; auto. }
  rewrite Hall. destruct (Nat.eqb k 0).
  - split; [|rewrite length_app; cbn; lia].
    split; [reflexivity|]. intros _. apply in_or_app. right. left. reflexivity.
  - split; [|rewrite length_app; cbn; lia].
    split; [|discriminate]. intros Hin. apply in_app_or in Hin as [Hin|[]].
    destruct (Hn Hin).
Qed.

(** X21. The two status displays agree on this: the list shows "linked"
    exactly when the check says "OK", and "exists (unlinked)" exactly when
    the check says "UNLINKED"; what the check calls "BROKEN" the list shows
    as "not linked". *)
Theorem list_agrees_with_check fs e :
  (list_status fs (path_str P (target_path e)) = "linked"%string
   <-> fst (check_entry P fs e) = OkTarget (name e)) /\
  (list_status fs (path_str P (target_path e)) = "exists (unlinked)"%string
   <-> fst (check_entry P fs e) = WarnUnlinked (name e) (path_str P (target_path e))) /\
  (snd (check_entry P fs e) = true ->
   list_status fs (path_str P (target_path e)) = "not linked"%string).
Proof.
  unfold list_status, check_entry.
  destruct (is_symlink fs (path_str P (target_path e)));
    destruct (path_exists fs (path_str P (target_path e)));
    cbn [andb negb fst snd]; repeat split; intros; try discriminate; reflexivity.
Qed.

End CheckMore.

Section ListMore.
Variable P : platform.
Implicit Types (fs : filesystem) (rows : list dotfile_row).

Lemma print_entry_no_header (e : DotfileEntry) (status : string) :
  omap header_category (print_entry e status) = [].
Proof.
  unfold print_entry.
  destruct (String.eqb (description e) EmptyString);
    destruct (String.eqb status EmptyString); reflexivity.
Qed.

Lemma list_loop_headers fs (row : dotfile_row) rows (cur : option string) :
  omap header_category (list_loop P fs (row :: rows) cur)
    = (if bool_decide (Some (d_category row) = cur) then [] else [d_category row])
      ++ omap header_category (list_loop P fs rows (Some (d_category row))).
Proof.
  cbn [list_loop row_to_entry category]. rewrite !omap_app, print_entry_no_header.
  destruct (bool_decide (Some (d_category row) = cur)); reflexivity.
Qed.

Lemma row_leb_category (a b : dotfile_row) :
  row_leb a b = true -> String.leb (d_category a) (d_category b) = true.
Proof.
  intros H. apply row_leb_spec in H as [H|[-> _]].
  - unfold String.leb. rewrite H. reflexivity.
  - apply string_leb_refl.
Qed.

(** The headers of a sorted run: every category of the run except the
    current one, each once. *)
Lemma list_loop_groups fs rows :
  StronglySorted (fun a b => row_leb a b = true) rows ->
  forall cur : option string,
    (forall c0, cur = Some c0 ->
       forall r, In r rows -> String.leb c0 (d_category r) = true) ->
    let hs := omap header_category (list_loop P fs rows cur) in
    NoDup hs /\
    (forall c, In c hs -> In c (map d_category rows) /\ Some c <> cur) /\
    (forall c, In c (map d_category rows) -> In c hs \/ Some c = cur).
Proof.
  induction 1 as [|row rows Hs IH Hall]; intros cur Hcur; cbv zeta.
  - cbn. split; [apply NoDup_nil_2|]. split; intros c [].
  - rewrite list_loop_headers.
    rewrite List.Forall_forall in Hall.
    destruct (IH (Some (d_category row))) as (Hnd & Hin & Hcov).
    { intros c0 E r Hr. inversion E; subst. apply row_leb_category, Hall, Hr. }
    cbv zeta in Hnd, Hin, Hcov.
    set (hs := omap header_category (list_loop P fs rows (Some (d_category row)))) in *.
    assert (Hrest : forall c, In c hs -> Some c <> cur).
    { intros c Hc E. destruct (Hin c Hc) as (Hmem & Hne).
      apply in_map_iff in Hmem as (r & <- & Hr).
      apply Hne. f_equal.
      apply String.leb_antisym.
      - apply (Hcur _ (eq_sym E) row). left. reflexivity.
      - apply row_leb_category, Hall, Hr. }
    destruct (bool_decide (Some (d_category row) = cur)) eqn:B.
    + apply bool_decide_eq_true_1 in B. cbn [app]. split; [exact Hnd|]. split.
      * intros c Hc. split; [right; apply (Hin c Hc)|apply Hrest, Hc].
      * intros c [<-|Hc]; [right; exact B|].
        destruct (Hcov c Hc) as [H|H]; [left; exact H|right; congruence].
    + apply bool_decide_eq_false_1 in B. cbn [app]. split; [|split].
      * apply NoDup_cons. split; [|exact Hnd].
        intros Hc. apply list_elem_of_In in Hc. destruct (Hin _ Hc) as (_ & Hne).
        apply Hne. reflexivity.
      * intros c [<-|Hc]; [split; [left; reflexivity|exact B]|].
        split; [right; apply (Hin c Hc)|apply Hrest, Hc].
      * intros c [<-|Hc]; [left; left; reflexivity|].
        destruct (Hcov c Hc) as [H|H]; [left; right; exact H|].
        inversion H. left. left. reflexivity.
Qed.

(** X22. The category headers of [cmd_list]: every category that has an
    entry gets a header, and gets it once, so the entries of one category
    are shown together under it.  (The loop opens a header whenever the
    category changes; it is the [ORDER BY] of the query that keeps a
    category from coming back.) *)
Theorem list_one_header_per_category (w : world) :
  NoDup (omap header_category (cmd_list P w)) /\
  (forall c, In c (omap header_category (cmd_list P w))
             <-> In c (map d_category (dotfiles (w_db w)))).
Proof.
  unfold cmd_list.
  pose proof (order_by_category_name_sorted (dotfiles (w_db w))) as Hs.
  pose proof (order_by_category_name_perm (dotfiles (w_db w))) as Hp.
  destruct (order_by_category_name (dotfiles (w_db w))) as [|row rows] eqn:E.
  - apply Permutation_nil in Hp. rewrite Hp. cbn. split; [apply NoDup_nil_2|tauto].
  - destruct (list_loop_groups (w_fs w) (row :: rows) Hs None) as (Hnd & Hin & Hcov).
    { intros c0 E0. discriminate E0. }
    cbv zeta in *. split; [exact Hnd|]. intros c. split.
    + intros Hc. destruct (Hin c Hc) as (Hm & _).
      eapply Permutation_in; [apply Permutation_map, Hp|exact Hm].
    + intros Hc. destruct (Hcov c) as [H|H]; [|exact H|discriminate H].
      eapply Permutation_in; [apply Permutation_map; symmetry; exact Hp|exact Hc].
Qed.

End ListMore.

(** ** Listing snapshots *)

Lemma insert_desc_perm (x : snapshot_row) (l : list snapshot_row) :
  Permutation (insert_desc x l) (x :: l).
Proof.
  induction l as [|y l IH]; simpl; [reflexivity|].
  destruct (String.leb (s_saved_at y) (s_saved_at x)); [reflexivity|].
  rewrite IH. apply perm_swap.
Qed.

Lemma order_by_saved_at_desc_perm (l : list snapshot_row) :
  Permutation (order_by_saved_at_desc l) l.
Proof.
  induction l as [|x l IH]; simpl; [reflexivity|].
  fold (order_by_saved_at_desc l). rewrite insert_desc_perm, IH. reflexivity.
Qed.

Lemma insert_desc_sorted (x : snapshot_row) (l : list snapshot_row) :
  StronglySorted (fun a b => String.leb (s_saved_at b) (s_saved_at a) = true) l ->
  StronglySorted (fun a b => String.leb (s_saved_at b) (s_saved_at a) = true)
                 (insert_desc x l).
Proof.
  induction 1 as [|y l Hs IH Hall]; simpl.
  - constructor; constructor.
  - destruct (String.leb (s_saved_at y) (s_saved_at x)) eqn:E.
    + constructor; [constructor; assumption|].
      constructor; [exact E|].
      rewrite List.Forall_forall in *. intros z Hz.
      eapply string_leb_trans; [apply Hall, Hz|exact E].
    + constructor; [exact IH|].
      rewrite List.Forall_forall in *. intros z Hz.
      eapply Permutation_in in Hz; [|apply insert_desc_perm].
      destruct Hz as [<-|Hz]; [apply string_leb_false, E|apply Hall, Hz].
Qed.

Lemma order_by_saved_at_desc_sorted (l : list snapshot_row) :
  StronglySorted (fun a b => String.leb (s_saved_at b) (s_saved_at a) = true)
                 (order_by_saved_at_desc l).
Proof.
  induction l as [|x l IH]; simpl; [constructor|].
  apply insert_desc_sorted, IH.
Qed.

Lemma joined_snapshots_unique (db : database) (eid : Z) (row : dotfile_row) :
  List.filter (fun d => (d_id d =? eid)%Z) (dotfiles db) = [row] ->
  joined_snapshots db eid = snapshots_of db eid.
Proof.
  intros Huniq. unfold joined_snapshots.
  assert (Hall : forall s, In s (snapshots_of db eid) -> s_entry_id s = eid).
  { intros s Hs. unfold snapshots_of in Hs. apply list_elem_of_In in Hs.
    apply list_elem_of_filter in Hs. tauto. }
  induction (snapshots_of db eid) as [|s l IH]; [reflexivity|].
  cbn [flat_map]. rewrite (Hall s (or_introl eq_refl)), Huniq. cbn [map app].
  f_equal. apply IH. intros s' Hs'. apply Hall. right. exact Hs'.
Qed.

(** X23. For an entry that is in the store, once, and has snapshots,
    [cmd_snapshots] prints a header and one line for every snapshot of the
    entry, each once, from the latest [saved_at] to the earliest; the first
    line carries the [saved_at] of the snapshot that [cmd_diff] compares
    with. *)
Theorem snapshots_listing (eid : Z) (w : world) (row : dotfile_row) :
  in_int64 eid = true ->
  List.filter (fun d => (d_id d =? eid)%Z) (dotfiles (w_db w)) = [row] ->
  snapshots_of (w_db w) eid <> [] ->
  exists first rest snap,
    cmd_snapshots eid w =
      Some (SnapshotsHeader eid ::
            map (fun r => SnapshotLine (s_id r) (string_take 19 (s_saved_at r))
                            (string_take 12 (s_content_hash r)) (s_notes r))
                (first :: rest)) /\
    Permutation (first :: rest) (snapshots_of (w_db w) eid) /\
    StronglySorted (fun a b => String.leb (s_saved_at b) (s_saved_at a) = true)
                   (first :: rest) /\
    latest_snapshot (w_db w) eid = Some snap /\
    s_saved_at first = s_saved_at snap.
Proof.
  intros Hid Huniq Hne. unfold cmd_snapshots. rewrite Hid. cbn [negb].
  rewrite (joined_snapshots_unique _ _ _ Huniq).
  pose proof (order_by_saved_at_desc_perm (snapshots_of (w_db w) eid)) as Hp.
  pose proof (order_by_saved_at_desc_sorted (snapshots_of (w_db w) eid)) as Hs.
  unfold latest_snapshot.
  destruct (order_by_saved_at_desc (snapshots_of (w_db w) eid)) as [|first rest] eqn:E.
  - apply Permutation_nil in Hp. congruence.
  - exists first, rest, first. cbn [head]. auto.
Qed.

(** X24. For an id that no entry carries, [cmd_snapshots] prints "No
    snapshots", even when the [snapshots] table holds rows under that id:
    the join with [dotfiles] drops them. *)
Theorem snapshots_of_unknown_entry (eid : Z) (w : world) :
  in_int64 eid = true ->
  (forall d, In d (dotfiles (w_db w)) -> d_id d <> eid) ->
  cmd_snapshots eid w = Some [WarnNoSnapshotsFor eid].
Proof.
  intros Hid Hnone. unfold cmd_snapshots. rewrite Hid. cbn [negb].
  assert (Hj : joined_snapshots (w_db w) eid = []).
  { unfold joined_snapshots.
    assert (Hall : forall s, In s (snapshots_of (w_db w) eid) -> s_entry_id s = eid).
    { intros s Hs. unfold snapshots_of in Hs. apply list_elem_of_In in Hs.
      apply list_elem_of_filter in Hs. tauto. }
    induction (snapshots_of (w_db w) eid) as [|s l IH]; [reflexivity|].
    cbn [flat_map]. rewrite IH by (intros s' Hs'; apply Hall; right; exact Hs').
    rewrite app_nil_r, (Hall s (or_introl eq_refl)).
    assert (Hf : List.filter (fun d => (d_id d =? eid)%Z) (dotfiles (w_db w)) = []).
    { clear -Hnone. induction (dotfiles (w_db w)) as [|d ds IHd]; [reflexivity|].
      cbn [List.filter].
      rewrite (proj2 (Z.eqb_neq _ _) (Hnone d (or_introl eq_refl))).
      apply IHd. intros d' Hd'. apply Hnone. right. exact Hd'. }
    rewrite Hf. reflexivity. }
  rewrite Hj. reflexivity.
Qed.

(** ** The further properties at sample inputs *)

Section MoreInstances.
Import Sample Fixture.
Local Open Scope string_scope.


Lemma link_displaces_target_witness :
  reports (cmd_link host 1 w_taken)
    = [WarnBackedUp "/tmp/.zshrc.bak"; OkLinked "/tmp/.zshrc" "/tmp/zshrc_source"] /\
  w_fs (final (cmd_link host 1 w_taken)) !! "/tmp/.zshrc" = Some (Symlink "/tmp/zshrc_source") /\
  w_fs (final (cmd_link host 1 w_taken)) !! "/tmp/.zshrc.bak" = Some (File old_zshrc).
Proof.
  rewrite (link_displaces_target host 1 w_taken row_zshrc (File old_zshrc)).
  - cbn [reports final returns w_fs set_fs]. split; [reflexivity|].
    split; [apply lookup_insert_eq|].
    rewrite lookup_insert_ne by discriminate. apply lookup_insert_eq.
  - vm_compute. reflexivity.
  - vm_compute. reflexivity.
  - vm_compute. reflexivity.
  - vm_compute. reflexivity.
  - vm_compute. reflexivity.
  - discriminate.
  - discriminate.
  - vm_compute. reflexivity.
  - vm_compute. reflexivity.
Defined.


Lemma link_fresh_target_witness :
  cmd_link host 1 w3
    = returns [OkLinked "/tmp/.zshrc" "/tmp/zshrc_source"]
        (set_fs w3 (<["/tmp/.zshrc" := Symlink "/tmp/zshrc_source"]> (w_fs w3))).
Proof.
  apply (link_fresh_target host 1 w3 row_zshrc); vm_compute; reflexivity.
Defined.

Lemma link_displaces_directory_witness :
  w_fs w_folder !! "/tmp/.zshrc/init" = Some (File old_zshrc) /\
  w_fs (final (cmd_link host 1 w_folder)) !! "/tmp/.zshrc" = Some (Symlink "/tmp/zshrc_source") /\
  w_fs (final (cmd_link host 1 w_folder)) !! "/tmp/.zshrc.bak/init" = Some (File old_zshrc).
Proof.
  split; [vm_compute; reflexivity|].
  destruct (link_displaces_directory host 1 w_folder row_zshrc)
    as (_ & _ & Ht & _ & Hin); try (vm_compute; reflexivity).
  split; [exact Ht|].
  etransitivity; [exact (Hin "init")|]. vm_compute. reflexivity.
Defined.

Lemma backup_twice_no_dedup_witness :
  exists s1 s2,
    snapshots (w_db w4) = (snapshots (w_db w2) ++ [s1; s2])%list /\
    s_content_hash s1 = s_content_hash s2 /\ (s_id s1 < s_id s2)%Z.
Proof.
  destruct (backup_twice_no_dedup host "2024-05-01T10:00:00.000001"
              "2024-05-01T10:00:01.000001" (Some "initial") None 1 w2 row_zshrc zshrc_v1)
    as (s1 & s2 & Hs & H1 & H2 & _ & _ & _ & _ & Hlt);
    [vm_compute; reflexivity | vm_compute; reflexivity | vm_compute; reflexivity |].
  exists s1, s2. split; [exact Hs|]. split; [congruence|exact Hlt].
Defined.

Lemma backup_then_diff_no_changes_witness :
  reports (cmd_diff host 1 (final (cmd_backup host "2024-05-02T09:00:00" 1 None w3)))
    = [OkNoChanges "zshrc"].
Proof.
  rewrite (backup_then_diff_no_changes host "2024-05-02T09:00:00" None 1 w3 row_zshrc
             zshrc_v1).
  - reflexivity.
  - vm_compute. reflexivity.
  - vm_compute. reflexivity.
  - reflexivity.
  - vm_compute. reflexivity.
  - assert (E : snapshots_of (w_db w3) 1 = [snap1]) by (vm_compute; reflexivity).
    rewrite E. intros s [<-|[]]. vm_compute. reflexivity.
Defined.

Lemma restore_keeps_previous_version_witness :
  w_fs (final (cmd_restore host 2 1 w3)) !! "/tmp/vimrc_source.pre-restore"
    = Some (File vimrc_v1).
Proof.
  rewrite (restore_keeps_previous_version host 2 1 w3 row_vimrc snap1 zshrc_v1 vimrc_v1).
  - cbn [final returns w_fs set_fs]. rewrite lookup_insert_ne by discriminate.
    apply lookup_insert_eq.
  - vm_compute. reflexivity.
  - vm_compute. reflexivity.
  - vm_compute. reflexivity.
  - vm_compute. reflexivity.
  - vm_compute. reflexivity.
  - vm_compute. reflexivity.
  - left. split; vm_compute; reflexivity.
Defined.

Lemma restore_creates_missing_source_witness :
  reports (cmd_restore host 1 1 w_lost) = [OkRestored "zshrc" 1 "2024-05-01T10:00:00"] /\
  w_fs (final (cmd_restore host 1 1 w_lost)) !! "/tmp/zshrc_source" = Some (File zshrc_v1).
Proof.
  rewrite (restore_creates_missing_source host 1 1 w_lost row_zshrc snap1 zshrc_v1).
  - cbn [reports final returns w_fs set_fs]. split; [reflexivity|apply lookup_insert_eq].
  - vm_compute. reflexivity.
  - vm_compute. reflexivity.
  - vm_compute. reflexivity.
  - vm_compute. reflexivity.
  - vm_compute. reflexivity.
  - vm_compute. reflexivity.
  - vm_compute. reflexivity.
Defined.

Lemma register_then_select_witness :
  select_dotfile
    (w_db (final (cmd_register host "vimrc" "/tmp/vimrc_source" "/tmp/.vimrc" "editor"
                    None true w1))) 2 = Some row_vimrc.
Proof.
  destruct (register_then_select host "vimrc" "/tmp/vimrc_source" "/tmp/.vimrc" "editor"
              None true w1 "/tmp/vimrc_source" "/tmp/.vimrc")
    as (row & -> & _ & _ & _ & _ & Hsel).
  - vm_compute. auto 10.
  - vm_compute. intros [H|[]]. discriminate H.
  - reflexivity.
  - reflexivity.
  - exact Hsel.
Defined.

Lemma import_not_a_list_witness :
  cmd_import_manifest host (JStr "ab") w1 = returns [OkImported 0 2] w1.
Proof.
  apply (import_not_a_list host (JStr "ab") w1). intros items H. discriminate H.
Defined.

Lemma import_item_defaults_witness :
  exists db', import_item host empty_db item_gitconfig = Some db' /\
              dotfiles db' = [row_gitconfig].
Proof.
  apply (import_item_defaults host empty_db _ "gitconfig" "/tmp/gitconfig" "/tmp/.gitconfig");
    try reflexivity.
  intros [].
Defined.

Lemma do_link_same_world_witness :
  run_final (_do_link host (row_to_entry row_zshrc) w_taken) = final (cmd_link host 1 w_taken).
Proof.
  apply (do_link_same_world host 1 w_taken row_zshrc); vm_compute; reflexivity.
Defined.



Lemma snapshots_listing_witness :
  exists first rest,
    Permutation (first :: rest) (snapshots_of (w_db w4) 1) /\
    cmd_snapshots 1 w4 =
      Some (SnapshotsHeader 1 ::
            map (fun r => SnapshotLine (s_id r) (string_take 19 (s_saved_at r))
                            (string_take 12 (s_content_hash r)) (s_notes r))
                (first :: rest)).
Proof.
  destruct (snapshots_listing 1 w4 row_zshrc) as (first & rest & snap & Hc & Hp & _).
  - vm_compute. reflexivity.
  - vm_compute. reflexivity.
  - vm_compute. discriminate.
  - exists first, rest. split; [exact Hp|exact Hc].
Defined.

Lemma snapshots_of_unknown_entry_witness :
  snapshots_of (w_db w_orphan) 1 = [snap1] /\
  cmd_snapshots 1 w_orphan = Some [WarnNoSnapshotsFor 1].
Proof.
  split; [vm_compute; reflexivity|].
  apply (snapshots_of_unknown_entry 1 w_orphan); [vm_compute; reflexivity|].
  intros d [].
Defined.

End MoreInstances.
